(** * Frunna: the weekly plan synthesis pipeline

    A shallow embedding of the pure core of the Frunna application (the
    response parsers, the table normaliser, the run-day constraint enforcer,
    the history summariser, the calendar event deriver, the display tables
    and the week calendar, the completion keys and the weekly
    orchestrator), followed by the properties the specification states
    about them and by further properties of the code.

    Conventions of the embedding.
    - A JavaScript string is a [string]; each character stands for one code
      unit below 256 (the Latin-1 range), which is where [toLowerCase],
      [trim] and the case-insensitive regular expressions of the program
      are modelled.
    - [findIndex] returns [None] where JavaScript returns [-1].
    - A row of a table is a list of strings. The arrays of the language
      can have holes; they are modelled in [Sparse], for the one function
      that can make them.
    - A [number] that the program only ever uses as an integer is a [Z];
      the scores of the run-day enforcer are IEEE binary64 values
      ([float]), computed with the same operations in the same order. *)

From Stdlib Require Import ZArith Ascii Floats Uint63 DecimalString DecimalZ.
From stdpp Require Import base list gmap strings sorting.

#[local] Set Warnings "-inexact-float,-register-all".
Local Open Scope Z_scope.

(** ** JavaScript string primitives *)

Module Js.

Definition code (c : ascii) : N := Ascii.N_of_ascii c.

(** WhiteSpace and LineTerminator code units below 256: TAB, LF, VT, FF,
    CR, SP and NBSP. *)
Definition isWhiteSpace (c : ascii) : bool :=
  existsb (N.eqb (code c)) [9; 10; 11; 12; 13; 32; 160]%N.

Definition isDigit (c : ascii) : bool :=
  ((48 <=? code c) && (code c <=? 57))%N.

Definition lowerChar (c : ascii) : ascii :=
  let n := code c in
  if (((65 <=? n) && (n <=? 90))
      || ((192 <=? n) && (n <=? 222) && negb (n =? 215)))%N
  then Ascii.ascii_of_N (n + 32) else c.

Fixpoint toLowerCase (s : string) : string :=
  match s with
  | EmptyString => EmptyString
  | String c s' => String (lowerChar c) (toLowerCase s')
  end.

Fixpoint trimStart (s : string) : string :=
  match s with
  | EmptyString => EmptyString
  | String c s' => if isWhiteSpace c then trimStart s' else s
  end.

Definition reverse (s : string) : string :=
  String.string_of_list_ascii (rev (String.list_ascii_of_string s)).

Definition trimEnd (s : string) : string := reverse (trimStart (reverse s)).

Definition trim (s : string) : string := trimEnd (trimStart s).

Definition startsWith (p s : string) : bool := String.prefix p s.

Definition endsWith (p s : string) : bool :=
  String.prefix (reverse p) (reverse s).

(** [includes sub s] is [s.includes(sub)]. *)
Fixpoint includes (sub s : string) : bool :=
  String.prefix sub s ||
  match s with
  | EmptyString => false
  | String _ s' => includes sub s'
  end.

(** [split sep s] is [s.split(sep)] for a one-character separator. *)
Fixpoint split (sep : ascii) (s : string) : list string :=
  match s with
  | EmptyString => [EmptyString]
  | String c s' =>
      if Ascii.eqb c sep then EmptyString :: split sep s'
      else match split sep s' with
           | [] => [String c EmptyString]
           | h :: t => String c h :: t
           end
  end.

Definition join (sep : string) (l : list string) : string :=
  String.concat sep l.

(** [dropEnds s] is [s.slice(1, -1)]. *)
Definition dropEnds (s : string) : string :=
  match s with
  | EmptyString => EmptyString
  | String _ s' => reverse (match reverse s' with
                            | EmptyString => EmptyString
                            | String _ r => r
                            end)
  end.

(** The largest integer below which every integer is a binary64 value. *)
Definition MAX_SAFE_INTEGER : Z := 2 ^ 53 - 1.

(** A number printed by a template literal; the program only prints
    integers. These are the digits the language prints for an integer
    whose magnitude is at most [MAX_SAFE_INTEGER]; from [10^21] on it prints
    an exponent instead. What is proved of a printed number that is read
    back is stated within that range. *)
Definition showInt (z : Z) : string := NilEmpty.string_of_int (Z.to_int z).

(** [RegExp.prototype.test] for a case-insensitive pattern that is a plain
    lower-case ASCII word: on code units below 256 the canonicalisation of
    the [i] flag identifies exactly the pairs that [toLowerCase] does. *)
Definition testWord (word s : string) : bool := includes word (toLowerCase s).

(** *** [Number.parseInt(s, 10)] *)

Inductive number : Type :=
| NaN
| Infinity (negative : bool)
| Int (z : Z).

Definition isFinite (n : number) : bool :=
  match n with Int _ => true | _ => false end.

Fixpoint digitsPrefix (s : string) : list ascii :=
  match s with
  | EmptyString => []
  | String c s' => if isDigit c then c :: digitsPrefix s' else []
  end.

Definition digitValue (c : ascii) : Z := Z.of_N (code c) - 48.

Definition digitsValue (ds : list ascii) : Z :=
  fold_left (fun acc c => 10 * acc + digitValue c) ds 0.

(** The least magnitude that the conversion to binary64 rounds to an
    infinity. Below it the result is a finite double: the integer itself
    up to [MAX_SAFE_INTEGER], and the nearest double above. The finite case
    keeps the exact integer; what is proved of a parsed number is either
    stated for values up to [MAX_SAFE_INTEGER] or compares the number with
    small integers, which rounding does not disturb. *)
Definition overflowThreshold : Z := 2 ^ 1024 - 2 ^ 970.

Definition parseInt (s : string) : number :=
  let s1 := trimStart s in
  let '(negative, s2) :=
    match s1 with
    | String "-" r => (true, r)
    | String "+" r => (false, r)
    | _ => (false, s1)
    end in
  match digitsPrefix s2 with
  | [] => NaN
  | ds =>
      let v := digitsValue ds in
      if v <? overflowThreshold
      then Int (if negative then - v else v)
      else Infinity negative
  end.

End Js.

(** ** Tables *)

Record PlanTable : Type := mkPlanTable {
  headers : list string;
  rows : list (list string)
}.

Record DisplayPlanTable : Type := mkDisplayPlanTable {
  title : string;
  dheaders : list string;
  drows : list (list string)
}.

(** [Array.prototype.findIndex]; [None] is JavaScript's [-1]. *)
Fixpoint findIndex {A : Type} (p : A → bool) (l : list A) : option nat :=
  match l with
  | [] => None
  | x :: l' => if p x then Some 0%nat else S <$> findIndex p l'
  end.

(** [row[i] ?? d]. *)
Definition cellOr (d : string) (row : list string) (i : nat) : string :=
  default d (row !! i).

(** [row[i] = v] on a copy of [row], for a row of strings. Inside the array
    the cell is replaced, and at its end the cell is added; the tables the
    pipeline builds have rows as wide as their headers, so there every write
    is of this kind. Further past the end JavaScript grows the array and
    leaves holes before the new cell. A hole reads back as [undefined]; the
    functions below read a row they have written through [?? ''], and for
    them a hole is written here as an empty cell. An array with holes is
    not an array of strings: what depends on the holes themselves is stated
    on [Sparse] below. *)
Definition assign (i : nat) (v : string) (row : list string) : list string :=
  if decide (i < length row)%nat then <[i := v]> row
  else row ++ replicate (i - length row) EmptyString ++ [v].

Definition isDayHeader (h : string) : bool :=
  String.eqb (Js.toLowerCase h) "day".
Definition isWeekHeader (h : string) : bool :=
  String.eqb (Js.toLowerCase h) "week".
Definition isWorkoutHeader (h : string) : bool :=
  Js.includes "workout" (Js.toLowerCase h).
Definition isDetailsHeader (h : string) : bool :=
  Js.includes "details" (Js.toLowerCase h).
Definition isRationaleHeader (h : string) : bool :=
  Js.includes "rationale" (Js.toLowerCase h).

Definition WEEKDAY_NAMES : list string :=
  ["Monday"; "Tuesday"; "Wednesday"; "Thursday"; "Friday"; "Saturday"; "Sunday"].

(** ** The weekday table

    [DAY_INDEX] is an object literal, so a lookup also finds what the object
    inherits from [Object.prototype]. Every key the program looks up has
    been lower-cased, and the only inherited names without an upper-case
    letter are [constructor] and [__proto__]; such a lookup yields an
    object, not a number and not [undefined]. *)
Inductive dayEntry : Type :=
| DayNumber (n : nat)
| Inherited (name : string).

Global Instance dayEntry_eq_dec : EqDecision dayEntry.
Proof. solve_decision. Defined.

Definition DAY_INDEX_own : list (string * nat) :=
  [("monday", 0); ("mon", 0); ("tuesday", 1); ("tue", 1); ("tues", 1);
   ("wednesday", 2); ("wed", 2); ("thursday", 3); ("thu", 3); ("thurs", 3);
   ("friday", 4); ("fri", 4); ("saturday", 5); ("sat", 5); ("sunday", 6);
   ("sun", 6)]%nat.

Definition DAY_INDEX (key : string) : option dayEntry :=
  match List.find (fun kv => String.eqb (fst kv) key) DAY_INDEX_own with
  | Some kv => Some (DayNumber (snd kv))
  | None =>
      if String.eqb key "constructor" || String.eqb key "__proto__"
      then Some (Inherited key) else None
  end.

Definition isRestLikeWorkout (workoutType : string) : bool :=
  let normalized := Js.toLowerCase workoutType in
  Js.includes "rest" normalized || Js.includes "off" normalized.

(** ** Run-day cap *)

Definition parseRunDayCap (value : string) : Z :=
  match Js.parseInt (Js.trim value) with
  | Js.Int parsed => Z.min (Z.max parsed 1) 7
  | _ => 4
  end.

(** ** Run-day constraint enforcer *)

Definition floatOfNat (n : nat) : float :=
  PrimFloat.of_uint63 (Uint63.of_Z (Z.of_nat n)).

(** [Number(v)] for a value read from [DAY_INDEX]: an inherited object is
    not a number. *)
Definition numberOfDay (e : dayEntry) : float :=
  match e with
  | DayNumber n => floatOfNat n
  | Inherited _ => PrimFloat.nan
  end.

Definition qualityPattern (workout : string) : bool :=
  Js.testWord "interval" workout || Js.testWord "tempo" workout
  || Js.testWord "threshold" workout || Js.testWord "hill" workout
  || Js.testWord "speed" workout.

Record scoredRow : Type := mkScored { sr_idx : nat; sr_score : float }.

Definition scoreValue (isLongOnPreferredDay isQuality isLong : bool)
    (dayOrder : float) (idx : nat) : float :=
  ((if isLongOnPreferredDay then 100 else 0) + (if isQuality then 50 else 0)
   + (if isLong then 25 else 0) - dayOrder * 0.1 - floatOfNat idx * 0.01)%float.

Definition rowScore (dayIndex workoutIndex : nat) (longRunDayIndex : dayEntry)
    (idx : nat) (row : list string) : float :=
  let workout := cellOr "" row workoutIndex in
  let day := Js.toLowerCase (cellOr "" row dayIndex) in
  let dayOrder := default (DayNumber 7) (DAY_INDEX day) in
  let isLong := Js.testWord "long" workout in
  let isLongOnPreferredDay := isLong && bool_decide (dayOrder = longRunDayIndex) in
  let isQuality := qualityPattern workout in
  scoreValue isLongOnPreferredDay isQuality isLong (numberOfDay dayOrder) idx.

(** [scoredRows.sort((a, b) => b.score - a.score)]. The sort of the
    language is stable; it is written here as the stable insertion sort, and
    a comparator result that is [NaN] counts as [0], as the language says.
    With a score that is [NaN] the comparator is not consistent and the
    language leaves the order to the engine; the properties below that
    depend on the order are stated for scores that are numbers. *)
Definition comparator (a b : scoredRow) : float :=
  (sr_score b - sr_score a)%float.

Fixpoint insertSorted (x : scoredRow) (l : list scoredRow) : list scoredRow :=
  match l with
  | [] => [x]
  | y :: l' =>
      if (0 <? comparator x y)%float then y :: insertSorted x l' else x :: l
  end.

Definition sortScored (l : list scoredRow) : list scoredRow :=
  foldr insertSorted [] l.

(** [l.slice(0, n)], also for a negative [n]. *)
Definition sliceTo {A : Type} (n : Z) (l : list A) : list A :=
  if n <? 0 then take (Z.to_nat (Z.of_nat (length l) + n)) l
  else take (Z.to_nat n) l.

Definition isActiveRow (workoutIndex : nat) (row : list string) : bool :=
  negb (isRestLikeWorkout (cellOr "" row workoutIndex)).

Definition demoteRow (workoutIndex : nat) (detailsIndex rationaleIndex : option nat)
    (runDayCap : Z) (row : list string) : list string :=
  let r1 := assign workoutIndex "Rest Day" row in
  let r2 := match detailsIndex with
            | Some d => assign d "Recovery / optional mobility" r1
            | None => r1
            end in
  match rationaleIndex with
  | Some r =>
      assign r ("Respect " +:+ Js.showInt runDayCap +:+ " training days/week") r2
  | None => r2
  end.

Definition keepIndexesOf (dayIndex workoutIndex : nat) (runDayCap : Z)
    (longRunDay : string) (rows : list (list string)) : gset nat :=
  let activeRows :=
    List.filter (λ p, isActiveRow workoutIndex p.2) (imap pair rows) in
  let longRunDayIndex :=
    default (DayNumber 6) (DAY_INDEX (Js.toLowerCase longRunDay)) in
  let scoredRows :=
    (λ p, mkScored p.1 (rowScore dayIndex workoutIndex longRunDayIndex p.1 p.2))
      <$> activeRows in
  list_to_set (sr_idx <$> sliceTo runDayCap (sortScored scoredRows)).

Definition clampTable (runDayCap : Z) (longRunDay : string) (table : PlanTable)
    : PlanTable :=
  match findIndex isDayHeader (headers table),
        findIndex isWorkoutHeader (headers table) with
  | Some dayIndex, Some workoutIndex =>
      let detailsIndex := findIndex isDetailsHeader (headers table) in
      let rationaleIndex := findIndex isRationaleHeader (headers table) in
      let activeRows :=
        List.filter (λ p, isActiveRow workoutIndex p.2) (imap pair (rows table)) in
      if Z.of_nat (length activeRows) <=? runDayCap then table
      else
        let keepIndexes :=
          keepIndexesOf dayIndex workoutIndex runDayCap longRunDay (rows table) in
        mkPlanTable (headers table)
          (imap (λ idx row,
                   if bool_decide (idx ∈ keepIndexes)
                      || isRestLikeWorkout (cellOr "" row workoutIndex)
                   then row
                   else demoteRow workoutIndex detailsIndex rationaleIndex
                          runDayCap row)
                (rows table))
  | _, _ => table
  end.

Definition clampWeekToRunDayCap (tables : list PlanTable) (runDayCap : Z)
    (longRunDay : string) : list PlanTable :=
  clampTable runDayCap longRunDay <$> tables.

(** The rows of a table that are not rest-like, as the enforcer reads them. *)
Definition nonRestRows (table : PlanTable) : list (list string) :=
  match findIndex isWorkoutHeader (headers table) with
  | Some workoutIndex => List.filter (isActiveRow workoutIndex) (rows table)
  | None => rows table
  end.

(** ** Response parser: markdown tables *)

Definition LF : ascii := Ascii.ascii_of_nat 10.
Definition PIPE : ascii := Ascii.ascii_of_nat 124.

Definition parseCells (line : string) : list string :=
  Js.trim <$> Js.split PIPE (Js.dropEnds line).

Definition isTableLine (line : string) : bool :=
  Js.startsWith "|" line && Js.endsWith "|" line.

(** [l.slice(n)], also for a negative [n]. *)
Definition sliceFrom {A : Type} (n : Z) (l : list A) : list A :=
  if n <? 0 then drop (Z.to_nat (Z.of_nat (length l) + n)) l
  else drop (Z.to_nat n) l.

Definition repairRow (width : nat) (row : list string) : list string :=
  if decide (length row = width) then row
  else if decide (width < length row)%nat then
    sliceTo (Z.of_nat width - 1) row
      ++ [Js.join " | " (sliceFrom (Z.of_nat width - 1) row)]
  else row ++ replicate (width - length row) EmptyString.

(** What one maximal run of table lines contributes. *)
Definition tableOfBlock (block : list string) : list PlanTable :=
  if (length block <? 3)%nat || negb (Js.includes "---" (default EmptyString (block !! 1%nat)))
  then []
  else
    let headers := parseCells (default EmptyString (block !! 0%nat)) in
    let rows :=
      List.filter (λ row, (length row =? length headers)%nat)
        (repairRow (length headers) <$> (parseCells <$> drop 2 block)) in
    match rows with
    | [] => []
    | _ => [mkPlanTable headers rows]
    end.

(** The scanning loop: [block] holds the table lines read since the last
    line that is not one. *)
Fixpoint scanLines (lines : list string) (block : list string) : list PlanTable :=
  match lines with
  | [] => tableOfBlock block
  | line :: rest =>
      if isTableLine line then scanLines rest (block ++ [line])
      else tableOfBlock block ++ scanLines rest []
  end.

Definition rawLinesOf (text : string) : list string :=
  Js.trim <$> Js.split LF text.

Definition parseMarkdownTables (text : string) : list PlanTable :=
  scanLines (rawLinesOf text) [].

(** ** Response parser: the structured week *)

Record StructuredPlanDay : Type := mkDay {
  day : string;
  workoutType : string;
  details : string;
  rationale : string
}.

Record StructuredPlanWeek : Type := mkWeek {
  week : Z;
  verdict : string;
  reasoning : string;
  days : list StructuredPlanDay
}.

Definition normalizeDayName (value : string) : option string :=
  match DAY_INDEX (Js.toLowerCase (Js.trim value)) with
  | Some (DayNumber index) => WEEKDAY_NAMES !! index
  | _ => None
  end.

(** A value as [JSON.parse] returns it. An object keeps each key once. A
    number is an integer or an infinity; the parser reads a number only as
    the week, and numbers with a fraction are left out of the model. *)
Inductive json : Type :=
| JNull
| JBool (b : bool)
| JNumber (n : Js.number)
| JString (s : string)
| JArray (items : list json)
| JObject (fields : list (string * json)).

(** [v.k] for the keys the parser reads, none of which a prototype
    provides. The outer [None] is the TypeError of reading a property of
    [null]; the inner [None] is [undefined]. *)
Definition getProp (v : json) (k : string) : option (option json) :=
  match v with
  | JNull => None
  | JObject fields => Some (snd <$> List.find (λ kv, String.eqb kv.1 k) fields)
  | _ => Some None
  end.

(** [(v ?? d)] where the result is used as a string: calling [trim] on
    anything else is a TypeError ([None]). *)
Definition stringOr (d : string) (v : option json) : option string :=
  match v with
  | None | Some JNull => Some d
  | Some (JString s) => Some s
  | Some _ => None
  end.

(** [s.trim() || d]. *)
Definition trimmedOr (d : string) (s : string) : string :=
  match Js.trim s with
  | EmptyString => d
  | t => t
  end.

Definition restDay (name : string) : StructuredPlanDay :=
  mkDay name "Rest Day" "Recovery / mobility" "Load management".

(** The body of [parsed.days.forEach]. *)
Definition addDayEntry (byDay : gmap string StructuredPlanDay) (entry : json)
    : option (gmap string StructuredPlanDay) :=
  dayField ← getProp entry "day";
  dayText ← stringOr "" dayField;
  match normalizeDayName dayText with
  | None => Some byDay
  | Some normalizedDay =>
      if decide (is_Some (byDay !! normalizedDay)) then Some byDay
      else
        workoutField ← getProp entry "workoutType";
        workoutText ← stringOr "Rest Day" workoutField;
        detailsField ← getProp entry "details";
        detailsText ← stringOr "" detailsField;
        rationaleField ← getProp entry "rationale";
        rationaleText ← stringOr "" rationaleField;
        Some (<[normalizedDay :=
                 mkDay normalizedDay (trimmedOr "Rest Day" workoutText)
                   (trimmedOr "Recovery / mobility" detailsText)
                   (trimmedOr "Load management" rationaleText)]> byDay)
  end.

Fixpoint collectDays (byDay : gmap string StructuredPlanDay) (entries : list json)
    : option (gmap string StructuredPlanDay) :=
  match entries with
  | [] => Some byDay
  | entry :: rest => byDay' ← addDayEntry byDay entry; collectDays byDay' rest
  end.

Definition weekDays (byDay : gmap string StructuredPlanDay) : list StructuredPlanDay :=
  (λ name, default (restDay name) (byDay !! name)) <$> WEEKDAY_NAMES.

Fixpoint indexOf (c : ascii) (s : string) : option nat :=
  match s with
  | EmptyString => None
  | String c' s' => if Ascii.eqb c' c then Some 0%nat else S <$> indexOf c s'
  end.

Definition lastIndexOf (c : ascii) (s : string) : option nat :=
  (λ i, String.length s - 1 - i)%nat <$> indexOf c (Js.reverse s).

Definition dropChars (n : nat) (s : string) : string :=
  String.substring n (String.length s - n) s.

(** [s.replace(/^p/i, '')] for a lower-case literal [p]. *)
Definition stripPrefixCI (p s : string) : string :=
  if String.prefix p (Js.toLowerCase s) then dropChars (String.length p) s else s.

(** [s.replace(/p$/i, '')] for a literal [p] without letters. *)
Definition stripSuffix (p s : string) : string :=
  if Js.endsWith p s then String.substring 0 (String.length s - String.length p) s
  else s.

Definition FENCE : string := "```".
Definition LBRACE : ascii := Ascii.ascii_of_nat 123.
Definition RBRACE : ascii := Ascii.ascii_of_nat 125.

(** The text between the first opening and the last closing brace. *)
Definition jsonCandidate (text : string) : option string :=
  let trimmed := Js.trim text in
  if String.eqb trimmed "" then None
  else
    let withoutFence :=
      Js.trim (stripSuffix FENCE (stripPrefixCI FENCE
                 (stripPrefixCI (FENCE +:+ "json") trimmed))) in
    match indexOf LBRACE withoutFence, lastIndexOf RBRACE withoutFence with
    | Some firstBrace, Some lastBrace =>
        if (lastBrace <=? firstBrace)%nat then None
        else Some (String.substring firstBrace (lastBrace + 1 - firstBrace) withoutFence)
    | _, _ => None
    end.

(** What the [try] block does with the parsed value; [None] is any
    exception, which the [catch] turns into [null]. *)
Definition weekOfJson (parsed : json) (expectedWeek : Z) : option StructuredPlanWeek :=
  daysField ← getProp parsed "days";
  match daysField with
  | Some (JArray entries) =>
      byDay ← collectDays ∅ entries;
      weekField ← getProp parsed "week";
      verdictField ← getProp parsed "verdict";
      verdictText ← stringOr "Maintenance" verdictField;
      reasoningField ← getProp parsed "reasoning";
      reasoningText ← stringOr "Balanced load and recovery." reasoningField;
      Some (mkWeek
              (match weekField with
               | Some (JNumber (Js.Int n)) => n
               | _ => expectedWeek
               end)
              (trimmedOr "Maintenance" verdictText)
              (trimmedOr "Balanced load and recovery." reasoningText)
              (weekDays byDay))
  | _ => None
  end.

Section StructuredParser.

(** [JSON.parse]; [None] is its SyntaxError. *)
Variable JSON_parse : string → option json.

Definition parseWeekJsonFromText (text : string) (expectedWeek : Z)
    : option StructuredPlanWeek :=
  candidate ← jsonCandidate text;
  parsed ← JSON_parse candidate;
  weekOfJson parsed expectedWeek.

End StructuredParser.

Definition structuredWeekToTable (weekPlan : StructuredPlanWeek) : PlanTable :=
  mkPlanTable
    ["Week"; "Day"; "Workout Type"; "Details (Distance/Pace/Zone)"; "Rationale"]
    ((λ d, ["Week " +:+ Js.showInt (week weekPlan); day d; workoutType d;
            details d; rationale d]) <$> days weekPlan).

(** ** Table normaliser *)

Definition weekLabel (weekNumber : Z) : string := "Week " +:+ Js.showInt weekNumber.

Definition enforceWeekOnTable (weekNumber : Z) (table : PlanTable) : PlanTable :=
  match findIndex isWeekHeader (headers table) with
  | None =>
      mkPlanTable ("Week" :: headers table)
        ((λ row, weekLabel weekNumber :: row) <$> rows table)
  | Some weekIndex =>
      mkPlanTable (headers table)
        (assign weekIndex (weekLabel weekNumber) <$> rows table)
  end.

Definition enforceExpectedWeek (tables : list PlanTable) (weekNumber : Z)
    : list PlanTable :=
  enforceWeekOnTable weekNumber <$> tables.

(** *** Arrays with holes

    [enforceExpectedWeek] once more, on the arrays of the language. An
    index below the length of an array holds a value or is a hole. A row of
    a table holds strings; a copy of a row holds [undefined] where the row
    has a hole. *)
Module Sparse.

Inductive slot : Type :=
| Hole
| Undefined
| Text (s : string).

Record Table : Type := mkTable {
  columnHeaders : list string;
  arrayRows : list (list slot)
}.

(** [[...row]]: the copy has the length of [row], and the iterator reads a
    hole as [undefined]. *)
Definition spread (row : list slot) : list slot :=
  (λ cell, match cell with Hole => Undefined | _ => cell end) <$> row.

(** [row[i] = v]: inside the array the cell is replaced; past its end the
    array grows to [i + 1] cells, and the indexes between are holes. *)
Definition writeAt (i : nat) (v : string) (row : list slot) : list slot :=
  if decide (i < length row)%nat then <[i := Text v]> row
  else row ++ replicate (i - length row) Hole ++ [Text v].

(** The body of [enforceExpectedWeek], given the text of its template
    literal. *)
Definition enforceWeekLabel (label : string) (tables : list Table)
    : list Table :=
  (λ table,
     match findIndex isWeekHeader (columnHeaders table) with
     | None =>
         mkTable ("Week" :: columnHeaders table)
           ((λ row, Text label :: spread row) <$> arrayRows table)
     | Some weekIndex =>
         mkTable (columnHeaders table)
           ((λ row, writeAt weekIndex label (spread row)) <$> arrayRows table)
     end) <$> tables.

(** [enforceExpectedWeek] on arrays with holes. *)
Definition enforceExpectedWeekOnArrays (tables : list Table) (weekNumber : Z)
    : list Table :=
  enforceWeekLabel (weekLabel weekNumber) tables.

(** [row.filter((_, index) => index !== weekColumnIndex)], as
    [buildDisplayTables] drops the week cell of a row: [filter] does not
    visit a hole. *)
Definition withoutColumn (weekColumnIndex : nat) (row : list slot) : list slot :=
  imap pair row ≫=
    (λ p, match p.2 with
          | Hole => []
          | cell => if decide (p.1 = weekColumnIndex) then [] else [cell]
          end).

(** Every row of a table with a week column ends at that column or after
    it. *)
Definition reachesWeekColumn (table : Table) : Prop :=
  match findIndex isWeekHeader (columnHeaders table) with
  | Some weekIndex =>
      Forall (λ row, (weekIndex ≤ length row)%nat) (arrayRows table)
  | None => True
  end.

End Sparse.

(** A table of strings as a table of the language. *)
Definition denseTable (table : PlanTable) : Sparse.Table :=
  Sparse.mkTable (headers table)
    ((λ row : list string, Sparse.Text <$> row) <$> rows table).

(** ** Counting planned run days *)

Definition addRunDays (runDays : gset string) (table : PlanTable) : gset string :=
  match findIndex isDayHeader (headers table),
        findIndex isWorkoutHeader (headers table) with
  | Some dayIndex, Some workoutIndex =>
      fold_left
        (λ acc row,
           let day := Js.toLowerCase (Js.trim (cellOr "" row dayIndex)) in
           let workout := cellOr "" row workoutIndex in
           if String.eqb day "" || isRestLikeWorkout workout then acc
           else {[ day ]} ∪ acc)
        (rows table) runDays
  | _, _ => runDays
  end.

Definition countPlannedRunDays (tables : list PlanTable) : nat :=
  size (fold_left addRunDays tables ∅).

Definition NL : string := String LF EmptyString.

Definition withRunDayCorrection (prompt : string) (weekNumber runDayCap : Z) : string :=
  Js.join NL
    [ prompt; "";
      "Critical Fix: Rewrite Week " +:+ Js.showInt weekNumber +:+ " so it has EXACTLY "
        +:+ Js.showInt runDayCap +:+ " run days.";
      "Critical Fix: The other " +:+ Js.showInt (7 - runDayCap)
        +:+ " days must be Rest or non-running cross-training.";
      "Critical Fix: Return ONLY corrected JSON for that week using the same schema." ].

(** ** History summariser *)

(** The guard at the head of the row loop, negated: the row is summarised. *)
Definition rowIsSummarised (weekIndex : option nat) (weekNumber : Z)
    (row : list string) : bool :=
  match weekIndex with
  | None => true
  | Some wi =>
      match row !! wi with
      | None => true
      | Some cell =>
          String.eqb cell ""
          || Js.includes (Js.toLowerCase ("week " +:+ Js.showInt weekNumber))
               (Js.toLowerCase cell)
      end
  end.

Definition summaryBullet (dayIndex workoutIndex detailsIndex : option nat)
    (row : list string) : string :=
  let day := match dayIndex with None => "Day" | Some i => cellOr "Day" row i end in
  let workout := match workoutIndex with None => "Run" | Some i => cellOr "Run" row i end in
  let details := match detailsIndex with None => "" | Some i => cellOr "" row i end in
  "- " +:+ day +:+ ": " +:+ workout
    +:+ (if String.eqb details "" then "" else " (" +:+ details +:+ ")").

(** The two nested [forEach] loops, pushing onto [summaryLines]. *)
Definition summariseTable (weekNumber : Z) (summaryLines : list string)
    (table : PlanTable) : list string :=
  let weekIndex := findIndex isWeekHeader (headers table) in
  let dayIndex := findIndex isDayHeader (headers table) in
  let workoutIndex := findIndex isWorkoutHeader (headers table) in
  let detailsIndex := findIndex isDetailsHeader (headers table) in
  fold_left
    (λ lines row,
       if rowIsSummarised weekIndex weekNumber row
       then lines ++ [summaryBullet dayIndex workoutIndex detailsIndex row]
       else lines)
    (rows table) summaryLines.

Definition summaryLinesOf (tables : list PlanTable) (weekNumber : Z) : list string :=
  fold_left (summariseTable weekNumber) tables [].

Definition summarizeWeekForHistory (tables : list PlanTable) (weekNumber : Z) : string :=
  Js.join NL
    ((weekLabel weekNumber +:+ " Summary:") :: take 7 (summaryLinesOf tables weekNumber)).

(** ** Week numbers and durations *)

Fixpoint skipWhiteSpace (s : string) : string :=
  match s with
  | String c s' => if Js.isWhiteSpace c then skipWhiteSpace s' else s
  | EmptyString => EmptyString
  end.

(** The capture of [/week\s+(\d+)/i] when the match starts at the head
    of [s]. *)
Definition weekDigitsHere (s : string) : option string :=
  if String.prefix "week" (Js.toLowerCase s) then
    match dropChars 4 s with
    | String c rest =>
        if Js.isWhiteSpace c then
          match Js.digitsPrefix (skipWhiteSpace rest) with
          | [] => None
          | ds => Some (String.string_of_list_ascii ds)
          end
        else None
    | EmptyString => None
    end
  else None.

(** The capture of the leftmost match. *)
Fixpoint weekDigits (s : string) : option string :=
  match weekDigitsHere s with
  | Some ds => Some ds
  | None =>
      match s with
      | EmptyString => None
      | String _ s' => weekDigits s'
      end
  end.

Definition extractWeekNumber (title : string) (fallback : Z) : Z :=
  match weekDigits title with
  | None => fallback
  | Some digits =>
      match Js.parseInt digits with
      | Js.Int parsed => parsed
      | _ => fallback
      end
  end.

Definition estimatedDurationMinutes (workoutType : string) : Z :=
  let normalized := Js.toLowerCase workoutType in
  if Js.includes "long" normalized then 90
  else if Js.includes "interval" normalized || Js.includes "tempo" normalized
          || Js.includes "speed" normalized then 70
  else if Js.includes "recovery" normalized || Js.includes "easy" normalized then 50
  else if Js.includes "strength" normalized then 45
  else 60.

(** ** Dates

    A [Date] holds a time value, the milliseconds since the epoch in UTC, or
    is invalid ([None]). Local time is UTC shifted by one fixed offset, as
    on a host whose zone keeps its offset over the dates considered; the
    day arithmetic is that of the language (Day, TimeWithinDay, MakeDay,
    MakeDate), with the civil calendar computed on day numbers. The clipping
    of time values beyond the range of [Date] is not modelled: a time value
    of the model is that of the language while its magnitude is at most
    [8.64 * 10^15], and the model goes on counting where the language has an
    invalid date. *)

Definition msPerDay : Z := 86400000.
Definition msPerMinute : Z := 60000.
Definition msPerHour : Z := 3600000.

(** Year, month (1 to 12) and day of the month of a day number. *)
Definition civilFromDays (dayNumber : Z) : Z * Z * Z :=
  let z := dayNumber + 719468 in
  let era := z / 146097 in
  let doe := z - era * 146097 in
  let yoe := (doe - doe / 1460 + doe / 36524 - doe / 146096) / 365 in
  let doy := doe - (365 * yoe + yoe / 4 - yoe / 100) in
  let mp := (5 * doy + 2) / 153 in
  let d := doy - (153 * mp + 2) / 5 + 1 in
  let m := if mp <? 10 then mp + 3 else mp - 9 in
  (yoe + era * 400 + (if m <=? 2 then 1 else 0), m, d).

(** The day number of a civil date. *)
Definition daysFromCivil (y m d : Z) : Z :=
  let y' := if m <=? 2 then y - 1 else y in
  let era := y' / 400 in
  let yoe := y' - era * 400 in
  let doy := (153 * (if 2 <? m then m - 3 else m + 9) + 2) / 5 + d - 1 in
  let doe := yoe * 365 + yoe / 4 - yoe / 100 + doy in
  era * 146097 + doe - 719468.

(** [s.padStart(width, '0')]. *)
Definition padLeft (width : nat) (s : string) : string :=
  String.string_of_list_ascii (replicate (width - String.length s) "0"%char) +:+ s.

Definition toISOString (t : Z) : string :=
  let '(y, m, d) := civilFromDays (t / msPerDay) in
  let r := t mod msPerDay in
  let year :=
    if (0 <=? y) && (y <=? 9999) then padLeft 4 (Js.showInt y)
    else (if y <? 0 then "-" else "+") +:+ padLeft 6 (Js.showInt (Z.abs y)) in
  year +:+ "-" +:+ padLeft 2 (Js.showInt m) +:+ "-" +:+ padLeft 2 (Js.showInt d)
    +:+ "T" +:+ padLeft 2 (Js.showInt (r / msPerHour))
    +:+ ":" +:+ padLeft 2 (Js.showInt (r / msPerMinute mod 60))
    +:+ ":" +:+ padLeft 2 (Js.showInt (r / 1000 mod 60))
    +:+ "." +:+ padLeft 3 (Js.showInt (r mod 1000)) +:+ "Z".

Record CalendarWorkoutEvent : Type := mkEvent {
  ev_title : string;
  ev_startDate : string;
  ev_endDate : string;
  ev_notes : string
}.

Section Calendar.

(** Minutes that local time is ahead of UTC. *)
Variable tzOffsetMinutes : Z.
(** The time value of [new Date()]. *)
Variable now : Z.
(** [new Date(s)] for a string; [None] is an invalid date. *)
Variable Date_parse : string → option Z.

Definition localTime (t : Z) : Z := t + tzOffsetMinutes * msPerMinute.
Definition utcOfLocal (l : Z) : Z := l - tzOffsetMinutes * msPerMinute.

Definition getDate (t : Z) : Z := (civilFromDays (localTime t / msPerDay)).2.

Definition getDay (t : Z) : Z := (localTime t / msPerDay + 4) mod 7.

Definition getMinutes (t : Z) : Z := localTime t mod msPerDay / msPerMinute mod 60.

Definition setDate (t : Z) (date : Z) : Z :=
  let l := localTime t in
  let '(y, m, _) := civilFromDays (l / msPerDay) in
  utcOfLocal ((daysFromCivil y m 1 + date - 1) * msPerDay + l mod msPerDay).

(** [setHours(h, 0, 0, 0)]. *)
Definition setHours (t : Z) (h : Z) : Z :=
  utcOfLocal (localTime t / msPerDay * msPerDay + h * msPerHour).

Definition setMinutes (t : Z) (minutes : Z) : Z :=
  let l := localTime t in
  let r := l mod msPerDay in
  utcOfLocal (l / msPerDay * msPerDay + r / msPerHour * msPerHour
              + minutes * msPerMinute + r mod msPerMinute).

(** [new Date(y, m, d)] of the local date of [t]: its local midnight. *)
Definition localMidnight (t : Z) : Z :=
  utcOfLocal (localTime t / msPerDay * msPerDay).

Definition nextMonday : Z :=
  let start := localMidnight now in
  let weekday := getDay start in
  let daysUntilMonday := (8 - weekday) mod 7 in
  let daysUntilMonday := if daysUntilMonday =? 0 then 7 else daysUntilMonday in
  setDate start (getDate start + daysUntilMonday).

(** The body of [table.rows.forEach]; the outer [None] is the RangeError
    that [toISOString] raises on an invalid date. *)
Definition rowEvent (planStartMonday : option Z) (weekNumber : Z)
    (dayIndex workoutTypeIndex : nat) (detailsIndex rationaleIndex : option nat)
    (row : list string) : option (list CalendarWorkoutEvent) :=
  let dayLabel := Js.toLowerCase (Js.trim (cellOr "" row dayIndex)) in
  match DAY_INDEX dayLabel with
  | None => Some []
  | Some dayOffset =>
      let workoutType := cellOr "Run" row workoutTypeIndex in
      if isRestLikeWorkout workoutType then Some []
      else
        let details :=
          match detailsIndex with None => "" | Some i => cellOr "" row i end in
        let rationale :=
          match rationaleIndex with None => "" | Some i => cellOr "" row i end in
        let weekOffset := (weekNumber - 1) * 7 in
        match planStartMonday, dayOffset with
        | Some anchor, DayNumber offset =>
            let startDate :=
              setHours (setDate anchor (getDate anchor + weekOffset + Z.of_nat offset)) 7 in
            let endDate :=
              setMinutes startDate
                (getMinutes startDate + estimatedDurationMinutes workoutType) in
            let notesParts :=
              List.filter (λ part, negb (String.eqb part "")) [details; rationale] in
            Some [ mkEvent
                     ("Frunna W" +:+ Js.showInt weekNumber +:+ ": " +:+ workoutType)
                     (toISOString startDate) (toISOString endDate)
                     (Js.join NL notesParts) ]
        | _, _ => None
        end
  end.

Fixpoint rowsEvents (planStartMonday : option Z) (weekNumber : Z)
    (dayIndex workoutTypeIndex : nat) (detailsIndex rationaleIndex : option nat)
    (rows : list (list string)) : option (list CalendarWorkoutEvent) :=
  match rows with
  | [] => Some []
  | row :: rest =>
      evs ← rowEvent planStartMonday weekNumber dayIndex workoutTypeIndex
               detailsIndex rationaleIndex row;
      more ← rowsEvents planStartMonday weekNumber dayIndex workoutTypeIndex
               detailsIndex rationaleIndex rest;
      Some (evs ++ more)
  end.

Definition tableEvents (planStartMonday : option Z) (tableIndex : nat)
    (table : DisplayPlanTable) : option (list CalendarWorkoutEvent) :=
  let weekNumber := extractWeekNumber (title table) (Z.of_nat tableIndex + 1) in
  match findIndex isDayHeader (dheaders table),
        findIndex isWorkoutHeader (dheaders table) with
  | Some dayIndex, Some workoutTypeIndex =>
      rowsEvents planStartMonday weekNumber dayIndex workoutTypeIndex
        (findIndex isDetailsHeader (dheaders table))
        (findIndex isRationaleHeader (dheaders table)) (drows table)
  | _, _ => Some []
  end.

Fixpoint tablesEvents (planStartMonday : option Z) (tableIndex : nat)
    (tables : list DisplayPlanTable) : option (list CalendarWorkoutEvent) :=
  match tables with
  | [] => Some []
  | table :: rest =>
      evs ← tableEvents planStartMonday tableIndex table;
      more ← tablesEvents planStartMonday (S tableIndex) rest;
      Some (evs ++ more)
  end.

Definition toCalendarEvents (tables : list DisplayPlanTable)
    (planStartDateIso : option string) : option (list CalendarWorkoutEvent) :=
  let planStartMonday :=
    match planStartDateIso with
    | None | Some EmptyString => Some nextMonday
    | Some iso => Date_parse iso
    end in
  tablesEvents planStartMonday 0 tables.

End Calendar.

(** ** Weekly orchestrator *)

Record PlanInput : Type := mkPlanInput {
  lookbackDays : Z;
  planLengthWeeks : Z;
  selectedGoal : string;
  runningLevel : string;
  targetTime : option string;
  targetTimeSeconds : option Z;
  historyContext : option string;
  runDaysPerWeek : string;
  longRunDay : string;
  distanceUnit : string;
  restingHrTrend : string;
  sleepTrend : string;
  hrvTrend : string;
  vo2Trend : string;
  distanceTrend : string;
  stepTrend : string;
  workoutNarrative : list string;
  adaptationContext : option string
}.

Definition withHistory (input : PlanInput) (history : string) : PlanInput :=
  mkPlanInput (lookbackDays input) (planLengthWeeks input) (selectedGoal input)
    (runningLevel input) (targetTime input) (targetTimeSeconds input)
    (Some history) (runDaysPerWeek input) (longRunDay input) (distanceUnit input)
    (restingHrTrend input) (sleepTrend input) (hrvTrend input) (vo2Trend input)
    (distanceTrend input) (stepTrend input) (workoutNarrative input)
    (adaptationContext input).

Definition toCompactInput (input : PlanInput) : PlanInput :=
  mkPlanInput (lookbackDays input) (planLengthWeeks input) (selectedGoal input)
    (runningLevel input) (targetTime input) (targetTimeSeconds input)
    (historyContext input) (runDaysPerWeek input) (longRunDay input)
    (distanceUnit input) (restingHrTrend input) (sleepTrend input) (hrvTrend input)
    ("VO2: " +:+ vo2Trend input) ("Distance: " +:+ distanceTrend input)
    ("Steps: " +:+ stepTrend input) (take 3 (workoutNarrative input))
    (adaptationContext input).

Definition looksLikeContextWindowError (message : string) : bool :=
  let normalized := Js.toLowerCase message in
  Js.includes "context window" normalized || Js.includes "model size" normalized
  || Js.includes "token" normalized.

(** What a [throw] carries: an [Error] with its message, or any other
    value. *)
Inductive thrown : Type :=
| ErrorObject (message : string)
| OtherValue (description : string).

Definition planningMessage (caught : thrown) : string :=
  match caught with
  | ErrorObject message => message
  | OtherValue _ => "Unknown planning error."
  end.

Inductive result (A : Type) : Type :=
| Returned (a : A)
| Thrown (e : thrown).
Arguments Returned {A} a.
Arguments Thrown {A} e.

Inductive promptMode : Type := Full | Compact | FullCorrective | CompactCorrective.

Definition correctiveOf (mode : promptMode) : promptMode :=
  match mode with
  | Full | FullCorrective => FullCorrective
  | Compact | CompactCorrective => CompactCorrective
  end.

Record WeeklyDebugPrompt : Type := mkDebugPrompt {
  dp_week : Z;
  dp_mode : promptMode;
  dp_prompt : string
}.

(** The state the orchestrator works on: the log of generation requests
    with their outcomes, its four local arrays, and the three pieces of
    component state it publishes. *)
Record World : Type := mkWorld {
  requests : list (string * result string);
  partResponses : list string;
  accumulatedTables : list PlanTable;
  historySummaries : list string;
  nextDebugPrompts : list WeeklyDebugPrompt;
  response : string;
  planTables : list PlanTable;
  debugPrompts : list WeeklyDebugPrompt
}.

Definition M (A : Type) : Type := World → result A * World.

Definition ret {A : Type} (a : A) : M A := λ w, (Returned a, w).

Definition throw {A : Type} (e : thrown) : M A := λ w, (Thrown e, w).

Definition bind {A B : Type} (m : M A) (k : A → M B) : M B :=
  λ w, match m w with
       | (Returned a, w') => k a w'
       | (Thrown e, w') => (Thrown e, w')
       end.

Definition tryCatch {A : Type} (m : M A) (handler : thrown → M A) : M A :=
  λ w, match m w with
       | (Returned a, w') => (Returned a, w')
       | (Thrown e, w') => handler e w'
       end.

Definition modify (f : World → World) : M unit := λ w, (Returned tt, f w).

Definition gets {A : Type} (f : World → A) : M A := λ w, (Returned (f w), w).

Notation "x ←ᴹ m ; k" := (bind m (λ x, k))
  (at level 100, m at next level, right associativity).
Notation "m ;ᴹ k" := (bind m (λ _, k))
  (at level 100, right associativity).

Definition pushDebug (d : WeeklyDebugPrompt) : M unit :=
  modify (λ w, mkWorld (requests w) (partResponses w) (accumulatedTables w)
                 (historySummaries w) (nextDebugPrompts w ++ [d])
                 (response w) (planTables w) (debugPrompts w)).

Definition pushWeek (text : string) (tables : list PlanTable) (summary : string)
    : M unit :=
  modify (λ w, mkWorld (requests w) (partResponses w ++ [text])
                 (accumulatedTables w ++ tables) (historySummaries w ++ [summary])
                 (nextDebugPrompts w) (response w) (planTables w) (debugPrompts w)).

Definition publish (combined : string) : M unit :=
  modify (λ w, mkWorld (requests w) (partResponses w) (accumulatedTables w)
                 (historySummaries w) (nextDebugPrompts w)
                 combined (accumulatedTables w) (nextDebugPrompts w)).

Definition publishDebug : M unit :=
  modify (λ w, mkWorld (requests w) (partResponses w) (accumulatedTables w)
                 (historySummaries w) (nextDebugPrompts w)
                 (response w) (planTables w) (nextDebugPrompts w)).

(** The four arrays start empty at each call. *)
Definition initLocals : M unit :=
  modify (λ w, mkWorld (requests w) [] [] [] []
                 (response w) (planTables w) (debugPrompts w)).

Definition WEEK_PARTS : list string :=
  ["week1"; "week2"; "week3"; "week4"; "week5"; "week6"; "week7"; "week8";
   "week9"; "week10"; "week11"; "week12"].

Record planPart : Type := mkPart {
  part_key : string;
  part_label : string;
  part_title : string
}.

Definition partOfWeek (weekNo : Z) : planPart :=
  mkPart ("week" +:+ Js.showInt weekNo) (Js.showInt weekNo)
    ("## Week " +:+ Js.showInt weekNo).

(** [Array.from({ length }, ...)]: the parts of weeks 1 to [length], or the
    error of the first week that has no prompt. *)
Fixpoint buildParts (weeks : list nat) : result (list planPart) :=
  match weeks with
  | [] => Returned []
  | n :: rest =>
      let part := partOfWeek (Z.of_nat n) in
      if bool_decide (part_key part ∈ WEEK_PARTS) then
        match buildParts rest with
        | Returned parts => Returned (part :: parts)
        | Thrown e => Thrown e
        end
      else Thrown (ErrorObject ("Unsupported week prompt key: " +:+ part_key part))
  end.

(** [parts.slice(0, n).map(...).join] and [parts.map(...).join]. *)
Definition combineParts (parts : list planPart) (responses : list string) : string :=
  Js.join (NL +:+ NL)
    (imap (λ index part,
             Js.join NL [part_title part; default "" (responses !! index)])
          parts).

Section Orchestrator.

(** The text generation collaborator: what the request number [n] made
    with [prompt] comes back with. *)
Variable generate : nat → string → result string.
(** The prompt builder collaborator, from an input and a week key. *)
Variable buildAdaptiveRunningCoachPrompt : PlanInput → string → string.
Variable JSON_parse : string → option json.

Definition queryModel (textPrompt : string) : M string :=
  λ w,
    let outcome := generate (length (requests w)) textPrompt in
    (outcome,
     mkWorld (requests w ++ [(textPrompt, outcome)]) (partResponses w)
       (accumulatedTables w) (historySummaries w) (nextDebugPrompts w)
       (response w) (planTables w) (debugPrompts w)).

Definition normalizeResponse (text : string) (expectedWeekNumber : Z)
    : list PlanTable :=
  match parseWeekJsonFromText JSON_parse text expectedWeekNumber with
  | Some structuredWeek => [structuredWeekToTable structuredWeek]
  | None => enforceExpectedWeek (parseMarkdownTables text) expectedWeekNumber
  end.

(** The statements shared by the [try] block and the [catch] block: a
    request, a corrective request when the week plans too many run days,
    the enforcer, and the three pushes. *)
Definition generateWeek (mode : promptMode) (prompt : string)
    (expectedWeekNumber runDayCap : Z) (longRunDay : string) : M unit :=
  pushDebug (mkDebugPrompt expectedWeekNumber mode prompt) ;ᴹ
  text ←ᴹ queryModel prompt ;
  let normalizedTables := normalizeResponse text expectedWeekNumber in
  answer ←ᴹ
    (if (Z.of_nat (countPlannedRunDays normalizedTables) >? runDayCap)
     then
       let correctionPrompt :=
         withRunDayCorrection prompt expectedWeekNumber runDayCap in
       pushDebug (mkDebugPrompt expectedWeekNumber (correctiveOf mode) correctionPrompt) ;ᴹ
       text' ←ᴹ queryModel correctionPrompt ;
       ret (text', normalizeResponse text' expectedWeekNumber)
     else ret (text, normalizedTables)) ;
  let clamped := clampWeekToRunDayCap answer.2 runDayCap longRunDay in
  pushWeek answer.1 clamped (summarizeWeekForHistory clamped expectedWeekNumber).

(** One iteration of the loop over the parts. *)
Definition weekIteration (input compactInput : PlanInput) (runDayCap : Z)
    (parts : list planPart) (part : planPart) : M unit :=
  (* the label is the decimal text of the week, so the parse is a number *)
  let expectedWeekNumber :=
    match Js.parseInt (part_label part) with Js.Int n => n | _ => 0 end in
  history ←ᴹ gets (λ w, Js.join (NL +:+ NL) (historySummaries w)) ;
  let fullPromptInput := withHistory input history in
  let compactPromptInput := withHistory compactInput history in
  tryCatch
    (generateWeek Full
       (buildAdaptiveRunningCoachPrompt fullPromptInput (part_key part))
       expectedWeekNumber runDayCap (longRunDay input))
    (λ caught,
       if negb (looksLikeContextWindowError (planningMessage caught))
       then throw caught
       else
         generateWeek Compact
           (buildAdaptiveRunningCoachPrompt compactPromptInput (part_key part))
           expectedWeekNumber runDayCap (longRunDay input)) ;ᴹ
  completed ←ᴹ gets (λ w, length (partResponses w)) ;
  responses ←ᴹ gets partResponses ;
  publish (combineParts (take completed parts) responses).

Fixpoint forEachPart (input compactInput : PlanInput) (runDayCap : Z)
    (parts todo : list planPart) : M unit :=
  match todo with
  | [] => ret tt
  | part :: rest =>
      weekIteration input compactInput runDayCap parts part ;ᴹ
      forEachPart input compactInput runDayCap parts rest
  end.

Definition buildWeeklyPlan (input : PlanInput) : M (string * list PlanTable) :=
  match buildParts (seq 1 (Z.to_nat (planLengthWeeks input))) with
  | Thrown e => throw e
  | Returned parts =>
      let compactInput := toCompactInput input in
      let runDayCap := parseRunDayCap (runDaysPerWeek input) in
      initLocals ;ᴹ
      forEachPart input compactInput runDayCap parts parts ;ᴹ
      publishDebug ;ᴹ
      responses ←ᴹ gets partResponses ;
      tables ←ᴹ gets accumulatedTables ;
      ret (combineParts parts responses, tables)
  end.

End Orchestrator.

Definition emptyWorld : World := mkWorld [] [] [] [] [] "" [] [].

(** ** The structured week of a table *)

(** [row[i] ?? d] for an index that [findIndex] returned: at [-1] the read
    is [undefined]. *)
Definition cellAt (d : string) (row : list string) (i : option nat) : string :=
  match i with
  | Some i => cellOr d row i
  | None => d
  end.

(** [row[i]] is truthy: the cell is there and is not empty. *)
Definition hasCell (i : nat) (row : list string) : bool :=
  negb (String.eqb (cellOr "" row i) "").

(** The body of [table.rows.forEach]. *)
Definition addTableDay (dayIndex workoutIndex detailsIndex rationaleIndex : option nat)
    (byDay : gmap string StructuredPlanDay) (row : list string)
    : gmap string StructuredPlanDay :=
  match normalizeDayName (cellAt "" row dayIndex) with
  | None => byDay
  | Some normalizedDay =>
      if decide (is_Some (byDay !! normalizedDay)) then byDay
      else
        <[normalizedDay :=
            mkDay normalizedDay (cellAt "Rest Day" row workoutIndex)
              (cellAt "" row detailsIndex) (cellAt "" row rationaleIndex)]> byDay
  end.

Definition tableToStructuredWeek (table : PlanTable) (fallbackWeek : Z)
    : StructuredPlanWeek :=
  let weekIndex := findIndex isWeekHeader (headers table) in
  let dayIndex := findIndex isDayHeader (headers table) in
  let workoutIndex := findIndex isWorkoutHeader (headers table) in
  let detailsIndex := findIndex isDetailsHeader (headers table) in
  let rationaleIndex := findIndex isRationaleHeader (headers table) in
  let parsedWeek :=
    match weekIndex with
    | None => fallbackWeek
    | Some weekIndex =>
        extractWeekNumber
          (match List.find (hasCell weekIndex) (rows table) with
           | Some row => cellOr (weekLabel fallbackWeek) row weekIndex
           | None => weekLabel fallbackWeek
           end)
          fallbackWeek
    end in
  let byDay :=
    fold_left (addTableDay dayIndex workoutIndex detailsIndex rationaleIndex)
      (rows table) ∅ in
  mkWeek parsedWeek "Maintenance" "Generated via fallback parsing." (weekDays byDay).

(** ** Completion keys and check-ins *)

Definition completionKey (planId : string) (weekNumber : Z) (dayName : string)
    : string :=
  planId +:+ ":week-" +:+ Js.showInt weekNumber +:+ ":" +:+ Js.toLowerCase dayName.

(** [Math.min(hi, Math.max(1, Number.parseInt(text, 10) || fallback))], the
    rating that [saveTodayCheckin] stores: [NaN] and zero are falsy. *)
Definition checkinRating (hi fallback : Z) (text : string) : Z :=
  match Js.parseInt text with
  | Js.NaN => Z.min hi (Z.max 1 fallback)
  | Js.Int 0 => Z.min hi (Z.max 1 fallback)
  | Js.Int parsed => Z.min hi (Z.max 1 parsed)
  | Js.Infinity false => hi
  | Js.Infinity true => Z.min hi 1
  end.

Definition nextRpe (checkinRpe : string) : Z := checkinRating 10 6 checkinRpe.
Definition nextSoreness (checkinSoreness : string) : Z :=
  checkinRating 10 4 checkinSoreness.
Definition nextSleep (checkinSleep : string) : Z := checkinRating 5 3 checkinSleep.

(** ** Display tables

    [groupedRows] is an object used as a map from the week cell to the
    rows of that week. It is modelled by its own properties in the order of
    their creation. Reading a key that is not an own property finds what
    [Object.prototype] provides under that name; what is found there is not
    an array, so the [push] that follows is a TypeError ([None]). *)

Definition OBJECT_PROTOTYPE_NAMES : list string :=
  ["constructor"; "hasOwnProperty"; "isPrototypeOf"; "propertyIsEnumerable";
   "toLocaleString"; "toString"; "valueOf"; "__proto__"; "__defineGetter__";
   "__defineSetter__"; "__lookupGetter__"; "__lookupSetter__"].

(** The number of a key that is an array index: the canonical decimal text
    of an integer below [2^32 - 1]. *)
Definition arrayIndex (key : string) : option Z :=
  let ds := String.list_ascii_of_string key in
  let canonical :=
    match ds with
    | [] => false
    | [c] => Js.isDigit c
    | c :: _ => forallb Js.isDigit ds && negb (Ascii.eqb c "0")
    end in
  if canonical && (Js.digitsValue ds <? 2 ^ 32 - 1) then Some (Js.digitsValue ds)
  else None.

Definition pushGrouped (weekKey : string) (row : list string)
    (acc : list (string * list (list string)))
    : option (list (string * list (list string))) :=
  if existsb (λ kv, String.eqb kv.1 weekKey) acc then
    Some ((λ kv, if String.eqb kv.1 weekKey then (kv.1, kv.2 ++ [row]) else kv) <$> acc)
  else if bool_decide (weekKey ∈ OBJECT_PROTOTYPE_NAMES) then None
  else Some (acc ++ [(weekKey, [row])]).

(** The callback of [table.rows.reduce]. *)
Definition groupRow (fallbackTitle : string) (weekColumnIndex : nat)
    (acc : option (list (string * list (list string)))) (row : list string)
    : option (list (string * list (list string))) :=
  acc ← acc;
  let weekKey :=
    match cellOr "" row weekColumnIndex with
    | EmptyString => fallbackTitle
    | cell => cell
    end in
  pushGrouped weekKey row acc.

Fixpoint insertByIndex {A : Type} (x : Z * A) (l : list (Z * A)) : list (Z * A) :=
  match l with
  | [] => [x]
  | y :: l' => if x.1 <? y.1 then x :: l else y :: insertByIndex x l'
  end.

(** [Object.entries]: the keys that are array indexes in ascending order,
    then the other keys in the order of their creation. *)
Definition objectEntries {A : Type} (o : list (string * A)) : list (string * A) :=
  let indexed :=
    omap (λ kv, (λ n, (n, kv)) <$> arrayIndex kv.1) o in
  let named := List.filter (λ kv, negb (bool_decide (is_Some (arrayIndex kv.1)))) o in
  (foldr insertByIndex [] indexed).*2 ++ named.

(** The callback of [tables.forEach]: what one table adds to [output]. *)
Definition displayTablesOf (tableIndex : nat) (table : PlanTable)
    : option (list DisplayPlanTable) :=
  match findIndex isWeekHeader (headers table) with
  | None =>
      Some [mkDisplayPlanTable ("Plan " +:+ Js.showInt (Z.of_nat tableIndex + 1))
              (headers table) (rows table)]
  | Some weekColumnIndex =>
      groupedRows ←
        fold_left
          (groupRow ("Week " +:+ Js.showInt (Z.of_nat tableIndex + 1)) weekColumnIndex)
          (rows table) (Some []);
      let headersWithoutWeek := delete weekColumnIndex (headers table) in
      Some ((λ entry,
               mkDisplayPlanTable entry.1 headersWithoutWeek
                 (delete weekColumnIndex <$> entry.2))
            <$> objectEntries groupedRows)
  end.

Fixpoint displayTablesFrom (tableIndex : nat) (tables : list PlanTable)
    : option (list DisplayPlanTable) :=
  match tables with
  | [] => Some []
  | table :: rest =>
      first ← displayTablesOf tableIndex table;
      more ← displayTablesFrom (S tableIndex) rest;
      Some (first ++ more)
  end.

Definition buildDisplayTables (tables : list PlanTable)
    : option (list DisplayPlanTable) :=
  displayTablesFrom 0 tables.

Inductive PlanSegment : Type := weeks1to4 | weeks5to8.

Definition isVisible (segment : PlanSegment) (tableIndex : nat)
    (table : DisplayPlanTable) : bool :=
  let weekNumber := extractWeekNumber (title table) (Z.of_nat tableIndex + 1) in
  match segment with
  | weeks1to4 => weekNumber <=? 4
  | weeks5to8 => 5 <=? weekNumber
  end.

Definition getVisibleTables (tables : list DisplayPlanTable) (segment : PlanSegment)
    : list DisplayPlanTable :=
  (List.filter (λ p, isVisible segment p.1 p.2) (imap pair tables)).*2.

(** ** The week calendar *)

Record CalendarWeekCell : Type := mkCell {
  dayName : string;
  cell_workoutType : string;
  cell_details : string;
  isRest : bool
}.

Record CalendarWeekRow : Type := mkCalendarRow {
  row_title : string;
  cells : list CalendarWeekCell
}.

(** The body of [table.rows.forEach]; the map holds the workout type and
    the details of a day. *)
Definition addCalendarDay (dayIndex workoutIndex : nat) (detailsIndex : option nat)
    (dayMap : gmap string (string * string)) (row : list string)
    : gmap string (string * string) :=
  match normalizeDayName (cellOr "" row dayIndex) with
  | None => dayMap
  | Some normalizedDay =>
      if decide (is_Some (dayMap !! normalizedDay)) then dayMap
      else
        <[normalizedDay :=
            (cellOr "Rest Day" row workoutIndex, cellAt "" row detailsIndex)]> dayMap
  end.

Definition calendarWeekRow (table : DisplayPlanTable) : CalendarWeekRow :=
  let detailsIndex := findIndex isDetailsHeader (dheaders table) in
  let dayMap :=
    match findIndex isDayHeader (dheaders table),
          findIndex isWorkoutHeader (dheaders table) with
    | Some dayIndex, Some workoutIndex =>
        fold_left (addCalendarDay dayIndex workoutIndex detailsIndex) (drows table) ∅
    | _, _ => ∅
    end in
  mkCalendarRow (title table)
    ((λ dayName,
        let value := dayMap !! dayName in
        let workoutType := default "Rest Day" (fst <$> value) in
        mkCell dayName workoutType (default "" (snd <$> value))
          (isRestLikeWorkout workoutType))
     <$> WEEKDAY_NAMES).

Definition buildCalendarWeekRows (tables : list DisplayPlanTable)
    : list CalendarWeekRow :=
  calendarWeekRow <$> tables.

(** * Sample data *)

Definition paceTable : PlanTable :=
  mkPlanTable ["Session"; "Workout"]
    [ ["Mon"; "Easy Run"]; ["Tue"; "Tempo Run"]; ["Wed"; "Intervals"] ].

Definition sampleBlock : list string :=
  [ "| Day | Workout |"; "|---|---|"; "| Mon | Easy | extra |"; "| Tue |" ].

Definition sampleText : string :=
  Js.join NL (["Plan:"] ++ sampleBlock ++ ["Good luck"]).

(** The bullets a table contributes to the digest of a week, written as a
    filter and a map, for comparison with the loops of
    [summarizeWeekForHistory]. *)
Definition weekBullets (weekNumber : Z) (table : PlanTable) : list string :=
  summaryBullet (findIndex isDayHeader (headers table))
    (findIndex isWorkoutHeader (headers table))
    (findIndex isDetailsHeader (headers table))
  <$> List.filter (rowIsSummarised (findIndex isWeekHeader (headers table)) weekNumber)
        (rows table).

(** Membership of a row in a week as the specification words it: with a
    week column, the week cell contains the week label. *)
Definition rowBelongsAsStated (weekIndex : option nat) (weekNumber : Z)
    (row : list string) : bool :=
  match weekIndex with
  | None => true
  | Some wi =>
      Js.includes (Js.toLowerCase ("week " +:+ Js.showInt weekNumber))
        (Js.toLowerCase (cellOr "" row wi))
  end.

Definition blankWeekTable : PlanTable :=
  mkPlanTable ["Week"; "Day"; "Workout"] [ [""; "Monday"; "Run"] ].

(** The text of a field that is absent, [null] or a string, as
    [entry.k ?? d] reads it. *)
Definition fieldText (d : string) (entry : json) (k : string) : string :=
  match getProp entry k with
  | Some (Some (JString s)) => s
  | _ => d
  end.

(** A field that the parser can use as text: absent, [null] or a string,
    on a value that is not [null] itself. *)
Definition isTextField (entry : json) (k : string) : bool :=
  match getProp entry k with
  | Some None | Some (Some JNull) | Some (Some (JString _)) => true
  | _ => false
  end.

Definition isDayObject (entry : json) : bool :=
  isTextField entry "day" && isTextField entry "workoutType"
  && isTextField entry "details" && isTextField entry "rationale".

Definition entryDayName (entry : json) : option string :=
  normalizeDayName (fieldText "" entry "day").

Definition entryRecord (name : string) (entry : json) : StructuredPlanDay :=
  mkDay name (trimmedOr "Rest Day" (fieldText "Rest Day" entry "workoutType"))
    (trimmedOr "Recovery / mobility" (fieldText "" entry "details"))
    (trimmedOr "Load management" (fieldText "" entry "rationale")).

(** The day of a weekday: that of the first entry naming it, or the rest
    day. *)
Definition dayFor (entries : list json) (name : string) : StructuredPlanDay :=
  match List.find (λ e, bool_decide (entryDayName e = Some name)) entries with
  | Some entry => entryRecord name entry
  | None => restDay name
  end.

Definition DQ : string := String (Ascii.ascii_of_nat 34) EmptyString.

(** The week [{ days: [ { day: 1, workoutType: 'Easy Run' } ] }] and its
    JSON text. *)
Definition numericDayJson : json :=
  JObject [("days", JArray [JObject [("day", JNumber (Js.Int 1));
                                     ("workoutType", JString "Easy Run")]])].

Definition numericDayText : string :=
  "{" +:+ DQ +:+ "days" +:+ DQ +:+ ":[{" +:+ DQ +:+ "day" +:+ DQ +:+ ":1,"
  +:+ DQ +:+ "workoutType" +:+ DQ +:+ ":" +:+ DQ +:+ "Easy Run" +:+ DQ +:+ "}]}".

Definition numericDayParse (s : string) : option json :=
  if String.eqb s numericDayText then Some numericDayJson else None.

(** A well-formed answer with a duplicate, an abbreviation and a gap. *)
Definition shuffledJson : json :=
  JObject [("week", JNumber (Js.Int 2));
           ("days",
            JArray [JObject [("day", JString "Sun"); ("workoutType", JString "Long Run")];
                    JObject [("day", JString "monday"); ("workoutType", JString "Easy Run");
                             ("details", JString "5km")];
                    JObject [("day", JString "Monday"); ("workoutType", JString "Tempo")]])].

Definition shuffledText : string := "```json { week 2 } ```".

Definition shuffledParse (s : string) : option json :=
  if String.eqb s "{ week 2 }" then Some shuffledJson else None.

(** The map after the loop body has run on a well-typed entry. *)
Definition addedDay (byDay : gmap string StructuredPlanDay) (entry : json)
    : gmap string StructuredPlanDay :=
  match entryDayName entry with
  | None => byDay
  | Some name =>
      if decide (is_Some (byDay !! name)) then byDay
      else <[name := entryRecord name entry]> byDay
  end.

(** A row the scoring favours: a long run or a quality session. *)
Definition isFeaturedRow (workoutIndex : nat) (row : list string) : bool :=
  Js.testWord "long" (cellOr "" row workoutIndex)
  || qualityPattern (cellOr "" row workoutIndex).

(** The day cell of a row resolves to a number: to a listed weekday, or to
    none, which counts as 7. *)
Definition hasNumericDay (dayIndex : nat) (row : list string) : bool :=
  match DAY_INDEX (Js.toLowerCase (cellOr "" row dayIndex)) with
  | Some (Inherited _) => false
  | _ => true
  end.

(** The rows of a table are bounded for the comparison of scores below: the
    penalty of the row index stays small, and the scores can be compared
    one by one. *)
Definition maxScoredRows : nat := 32.

(** The order of the sort, read off the scores: [y] comes before [x] when
    its score is higher, or the same at an earlier position. *)
Definition ranksBefore (y x : scoredRow) : bool :=
  PrimFloat.ltb (sr_score x) (sr_score y)
  || (PrimFloat.eqb (sr_score x) (sr_score y) && (sr_idx y <? sr_idx x)%nat).

(** The entry the enforcer sorts for the row at position [idx]. *)
Definition scoredAt (dayIndex workoutIndex : nat) (longRunDay : string)
    (idx : nat) (row : list string) : scoredRow :=
  mkScored idx
    (rowScore dayIndex workoutIndex
       (default (DayNumber 6) (DAY_INDEX (Js.toLowerCase longRunDay))) idx row).

(** The rows of a table that are not rest-like and rank before the row
    [row] at position [idx], each with its position. *)
Definition rankedBefore (dayIndex workoutIndex : nat) (longRunDay : string)
    (rows : list (list string)) (idx : nat) (row : list string)
    : list (nat * list string) :=
  List.filter
    (λ p, isActiveRow workoutIndex p.2
          && ranksBefore (scoredAt dayIndex workoutIndex longRunDay p.1 p.2)
               (scoredAt dayIndex workoutIndex longRunDay idx row))
    (imap pair rows).

(** A score as an exact integer, in units of [2^-60]; the scores of the
    table below are multiples of that unit. *)
Definition scoreKey (s : float) : Z :=
  match Prim2SF s with
  | S754_finite negative m e =>
      let v := Z.shiftl (Z.pos m) (e + 60) in if negative then - v else v
  | _ => 0
  end.

(** The flags of a score, [(isLongOnPreferredDay, isQuality, isLong)]: a
    long run on the preferred day is a long run. *)
Definition scoreFlags : list (bool * bool * bool) :=
  [(true, true, true); (true, false, true); (false, true, true);
   (false, true, false); (false, false, true); (false, false, false)].

(** Every score of a row with a numeric day in a table of at most
    [maxScoredRows] rows, with its exact value and its flags. *)
Definition scoreTable : list (float * Z * (bool * bool * bool)) :=
  f ← scoreFlags; d ← seq 0 8; i ← seq 0 maxScoredRows;
  let s := scoreValue f.1.1 f.1.2 f.2 (floatOfNat d) i in
  [(s, scoreKey s, f)].

(** What is checked of two scores of the table: the comparator of the sort
    and the comparisons of the scores follow the exact values, a long run on
    the preferred day lies above a row that is none, and a quality session
    above a row that is neither long nor a quality session. *)
Definition scoreOrderAgrees (a b : float * Z * (bool * bool * bool)) : bool :=
  let '(s, k, (lp, q, l)) := a in
  let '(s', k', (lp', q', l')) := b in
  Bool.eqb (PrimFloat.ltb 0 (s' - s)) (k <? k')
  && Bool.eqb (PrimFloat.ltb s s') (k <? k')
  && Bool.eqb (PrimFloat.eqb s s') (k =? k')
  && (negb lp' || lp || (k <? k'))
  && (negb q' || q || l || (k <? k')).

Definition rowKey (x : scoredRow) : Z := scoreKey (sr_score x).

(** [x] is an entry of the score table with the flags [f]. *)
Definition tabled (x : scoredRow) (f : bool * bool * bool) : Prop :=
  f ∈ scoreFlags ∧ (sr_idx x < maxScoredRows)%nat
  ∧ ∃ d, (d < 8)%nat
      ∧ sr_score x = scoreValue f.1.1 f.1.2 f.2 (floatOfNat d) (sr_idx x).

(** The order of the sort on exact values. *)
Definition before (y x : scoredRow) : Prop :=
  rowKey x < rowKey y ∨ (rowKey x = rowKey y ∧ (sr_idx y < sr_idx x)%nat).

Definition beforeb (y x : scoredRow) : bool :=
  (rowKey x <? rowKey y) || ((rowKey x =? rowKey y) && (sr_idx y <? sr_idx x)%nat).

(** The sort follows the exact values on a list whose comparator does. *)
Definition keyOrdered (l : list scoredRow) : Prop :=
  ∀ x y, x ∈ l → y ∈ l →
    PrimFloat.ltb 0 (comparator x y) = (rowKey x <? rowKey y).

Definition scoredEntry (dayIndex workoutIndex : nat) (longRunDay : string)
    (p : nat * list string) : scoredRow :=
  scoredAt dayIndex workoutIndex longRunDay p.1 p.2.

(** The flags of the score of a row. *)
Definition rowFlags (dayIndex workoutIndex : nat) (longRunDay : string)
    (row : list string) : bool * bool * bool :=
  let workout := cellOr "" row workoutIndex in
  let dayOrder :=
    default (DayNumber 7) (DAY_INDEX (Js.toLowerCase (cellOr "" row dayIndex))) in
  (Js.testWord "long" workout
   && bool_decide
        (dayOrder = default (DayNumber 6) (DAY_INDEX (Js.toLowerCase longRunDay))),
   qualityPattern workout, Js.testWord "long" workout).

(** A table as the markdown fallback hands it to the enforcer when the
    model answers with one column for the workout and its details. *)
Definition mergedColumnTable : PlanTable :=
  mkPlanTable ["Week"; "Day"; "Workout Details"]
    [ ["Week 1"; "Monday"; "Easy Run 5 km"];
      ["Week 1"; "Tuesday"; "Tempo Run 6 km"];
      ["Week 1"; "Wednesday"; "Easy Run 5 km"] ].

Definition crowdedWeek : PlanTable :=
  mkPlanTable ["Week"; "Day"; "Workout Type"; "Details"; "Rationale"]
    [ ["Week 1"; "Monday"; "Hill Sprints"; "8 x 30 s"; "power"];
      ["Week 1"; "Tuesday"; "Tempo Run"; "6 km"; "threshold"];
      ["Week 1"; "Wednesday"; "Long Intervals"; "4 x 2 km"; "stamina"];
      ["Week 1"; "Thursday"; "Easy Run"; "5 km"; "base"];
      ["Week 1"; "Friday"; "Long Hill Run"; "12 km"; "strength"];
      ["Week 1"; "Saturday"; "Long Tempo Progression"; "14 km"; "pace"];
      ["Week 1"; "Sunday"; "Long Run"; "18 km"; "endurance"];
      ["Week 1"; "Sunday"; "Strides"; "6 x 100 m"; "form"] ].

Definition plainWeek : PlanTable :=
  mkPlanTable ["Week"; "Day"; "Workout Type"; "Details"; "Rationale"]
    [ ["Week 1"; "Monday"; "Easy Run"; "5 km"; "base"];
      ["Week 1"; "Tuesday"; "Tempo Run"; "6 km"; "threshold"];
      ["Week 1"; "Wednesday"; "Easy Run"; "5 km"; "base"];
      ["Week 1"; "Thursday"; "Strides"; "6 x 100 m"; "form"];
      ["Week 1"; "Friday"; "Easy Run"; "5 km"; "base"];
      ["Week 1"; "Saturday"; "Cross Training"; "45 min"; "variety"];
      ["Week 1"; "Sunday"; "Long Run"; "18 km"; "endurance"];
      ["Week 1"; "Sunday"; "Mobility"; "20 min"; "care"] ].

(** A week with five long runs or quality sessions, of which only the long
    run ranks before the tempo run. *)
Definition busyWeek : PlanTable :=
  mkPlanTable ["Week"; "Day"; "Workout Type"; "Details"; "Rationale"]
    [ ["Week 1"; "Monday"; "Easy Run"; "5 km"; "base"];
      ["Week 1"; "Tuesday"; "Tempo Run"; "6 km"; "threshold"];
      ["Week 1"; "Wednesday"; "Intervals"; "6 x 400 m"; "speed"];
      ["Week 1"; "Thursday"; "Hill Repeats"; "8 x 60 s"; "strength"];
      ["Week 1"; "Friday"; "Speed Play"; "30 min"; "turnover"];
      ["Week 1"; "Saturday"; "Easy Run"; "5 km"; "base"];
      ["Week 1"; "Sunday"; "Long Run"; "18 km"; "endurance"];
      ["Week 1"; "Sunday"; "Mobility"; "20 min"; "care"] ].

(** The day label of a row, as the calendar reads it, is not a name that
    [DAY_INDEX] inherits. *)
Definition hasNumericDayLabel (dayIndex : nat) (row : list string) : bool :=
  match DAY_INDEX (Js.toLowerCase (Js.trim (cellOr "" row dayIndex))) with
  | Some (Inherited _) => false
  | _ => true
  end.

Definition tableDaysResolve (table : DisplayPlanTable) : bool :=
  match findIndex isDayHeader (dheaders table) with
  | Some dayIndex => forallb (hasNumericDayLabel dayIndex) (drows table)
  | None => true
  end.

(** 2024-06-03T00:00:00.000Z. *)
Definition june3 : Z := daysFromCivil 2024 6 3 * msPerDay.

Definition week2Intervals : DisplayPlanTable :=
  mkDisplayPlanTable "Week 2" ["Day"; "Workout Type"; "Details"]
    [ ["Monday"; "Rest Day"; "Recovery / mobility"];
      ["Wednesday"; "Intervals"; "6 x 400 m"] ].

Definition week2LongIntervals : DisplayPlanTable :=
  mkDisplayPlanTable "Week 2" ["Day"; "Workout Type"; "Details"]
    [ ["Wednesday"; "Long Intervals"; "5 x 1 km"] ].

(** What a caller can see of the work done so far: the three arrays that
    accumulate the completed weeks and the two published values. *)
Definition progress (w : World)
    : list string * list PlanTable * list string * string * list PlanTable :=
  (partResponses w, accumulatedTables w, historySummaries w, response w, planTables w).

Definition succeeded (request : string * result string) : Prop :=
  ∃ text, request.2 = Returned text.

(** A request that either succeeded or failed with a message that looks
    like a context window error. *)
Definition recoverable (request : string * result string) : Prop :=
  ∀ e, request.2 = Thrown e → looksLikeContextWindowError (planningMessage e) = true.

(** A model that answers week 1 and then fails with a network error. *)
Definition flakyModel (n : nat) (prompt : string) : result string :=
  match n with
  | O => Returned (Js.join NL ["| Day | Workout |"; "|---|---|";
                               "| Monday | Easy Run |"; "| Sunday | Long Run |"])
  | _ => Thrown (ErrorObject "Network request failed")
  end.

Definition samplePrompt (input : PlanInput) (key : string) : string :=
  "Plan " +:+ key +:+ " after " +:+ default "" (historyContext input).

Definition noJson (s : string) : option json := None.

Definition sampleInput : PlanInput :=
  mkPlanInput 30 8 "10K" "Intermediate" None None None "4" "Sunday" "km"
    "steady" "steady" "steady" "steady" "steady" "steady" [] None.

(** Every row of the table is as wide as its headers. *)
Definition rectangular (table : PlanTable) : Prop :=
  Forall (λ row, length row = length (headers table)) (rows table).

(** Two lines of a table and nothing else. *)
Definition headerOnlyText : string :=
  Js.join NL ["| Day | Workout |"; "|---|---|"; "Monday: Easy Run"].

(** The workout column of the table is not also its details column or its
    rationale column. *)
Definition workoutColumnApart (table : PlanTable) : bool :=
  match findIndex isWorkoutHeader (headers table) with
  | Some workoutIndex =>
      negb (bool_decide (findIndex isDetailsHeader (headers table) = Some workoutIndex))
      && negb (bool_decide (findIndex isRationaleHeader (headers table) = Some workoutIndex))
  | None => true
  end.

(** What the loop over the entries keeps true of the map of the days: a
    day is stored under its own name and none of its texts is empty. *)
Definition completeDay (name : string) (d : StructuredPlanDay) : Prop :=
  day d = name ∧ workoutType d ≠ "" ∧ details d ≠ "" ∧ rationale d ≠ "".

(** A row for which the calendar derives an event: its day label is a key
    of the weekday table and its workout type is not rest-like. *)
Definition isScheduledRow (dayIndex workoutTypeIndex : nat) (row : list string) : bool :=
  match DAY_INDEX (Js.toLowerCase (Js.trim (cellOr "" row dayIndex))) with
  | Some _ => negb (isRestLikeWorkout (cellOr "Run" row workoutTypeIndex))
  | None => false
  end.

(** The rows of a display table for which the calendar derives an event. *)
Definition scheduledRows (table : DisplayPlanTable) : list (list string) :=
  match findIndex isDayHeader (dheaders table),
        findIndex isWorkoutHeader (dheaders table) with
  | Some dayIndex, Some workoutTypeIndex =>
      List.filter (isScheduledRow dayIndex workoutTypeIndex) (drows table)
  | _, _ => []
  end.

Definition restWeek : DisplayPlanTable :=
  mkDisplayPlanTable "Week 1" ["Day"; "Workout Type"]
    [ ["Monday"; "Rest Day"]; ["Someday"; "Easy Run"]; ["Sunday"; "Day off"] ].

(** The cell of a weekday in the week calendar, read off the rows of the
    table: that of the first row that names the day, or a rest day. *)
Definition calendarCellFor (dayIndex workoutIndex : nat) (detailsIndex : option nat)
    (rows : list (list string)) (name : string) : CalendarWeekCell :=
  match List.find (λ row, bool_decide (normalizeDayName (cellOr "" row dayIndex) = Some name))
          rows with
  | Some row =>
      mkCell name (cellOr "Rest Day" row workoutIndex) (cellAt "" row detailsIndex)
        (isRestLikeWorkout (cellOr "Rest Day" row workoutIndex))
  | None => mkCell name "Rest Day" "" true
  end.

Definition twoMondays : DisplayPlanTable :=
  mkDisplayPlanTable "Week 1" ["Day"; "Workout Type"; "Details"]
    [ ["Mon"; "Easy Run"; "5 km"]; ["Funday"; "Party"; ""];
      ["monday"; "Tempo Run"; "6 km"]; ["Sunday"; "Day off"] ].

(** A table as the orchestrator stores it: its rows are as wide as its
    headers and it has a week column. *)
Definition storedTable (table : PlanTable) : Prop :=
  rectangular table ∧ is_Some (findIndex isWeekHeader (headers table)).

(** A model that answers every request with the same table. *)
Definition steadyModel (n : nat) (prompt : string) : result string :=
  Returned (Js.join NL ["| Day | Workout |"; "|---|---|";
                        "| Monday | Easy Run |"; "| Sunday | Long Run |"]).

Definition twoWeekInput : PlanInput :=
  mkPlanInput 30 2 "10K" "Intermediate" None None None "4" "Sunday" "km"
    "steady" "steady" "steady" "steady" "steady" "steady" [] None.

Definition longInput : PlanInput :=
  mkPlanInput 30 16 "Marathon" "Advanced" None None None "5" "Sunday" "km"
    "steady" "steady" "steady" "steady" "steady" "steady" [] None.

(** A logged request whose outcome is what the model gave for its prompt. *)
Definition answeredBy (generate : nat → string → result string)
    (request : string * result string) : Prop :=
  ∃ k, request.2 = generate k request.1.

Definition COLON : ascii := Ascii.ascii_of_nat 58.

(** The bullets of all the rows of a table. *)
Definition allBullets (table : PlanTable) : list string :=
  summaryBullet (findIndex isDayHeader (headers table))
    (findIndex isWorkoutHeader (headers table))
    (findIndex isDetailsHeader (headers table))
  <$> rows table.

(** The table has a week column, and the week cell of every row is the
    label of the week. *)
Definition labelledWith (weekNumber : Z) (table : PlanTable) : Prop :=
  ∃ weekIndex,
    findIndex isWeekHeader (headers table) = Some weekIndex
    ∧ Forall (λ row, cellOr "" row weekIndex = weekLabel weekNumber) (rows table).

Definition steadyText : string :=
  Js.join NL ["| Day | Workout |"; "|---|---|";
              "| Monday | Easy Run |"; "| Sunday | Long Run |"].

(** The text from the first opening brace to the last closing brace of
    [s], when the first lies before the second. *)
Definition braceSpan (s : string) : option string :=
  match indexOf LBRACE s, lastIndexOf RBRACE s with
  | Some firstBrace, Some lastBrace =>
      if (lastBrace <=? firstBrace)%nat then None
      else Some (String.substring firstBrace (lastBrace + 1 - firstBrace) s)
  | _, _ => None
  end.

(** Neither brace occurs in [s]. *)
Definition braceFree (s : string) : Prop :=
  indexOf LBRACE s = None ∧ indexOf RBRACE s = None.

(** A table whose one row ends before the week column. *)
Definition shortRowTable : Sparse.Table :=
  Sparse.mkTable ["Day"; "Workout Type"; "Week"] [[Sparse.Text "Monday"]].

(** The largest magnitude of a time value: a [Date] beyond it is invalid. *)
Definition maxTime : Z := 8640000000000000.

Definition validTime (t : Z) : bool := (- maxTime <=? t) && (t <=? maxTime).

(** The seven local days of the week that the table at position
    [tableIndex] schedules, counted from the local day of [anchor], lie
    within the range of [Date]. *)
Definition weekWithinDateRange (tzOffsetMinutes anchor : Z) (tableIndex : nat)
    (table : DisplayPlanTable) : bool :=
  let weekNumber := extractWeekNumber (title table) (Z.of_nat tableIndex + 1) in
  let firstDay :=
    localTime tzOffsetMinutes anchor / msPerDay + (weekNumber - 1) * 7 in
  validTime (utcOfLocal tzOffsetMinutes (firstDay * msPerDay))
  && validTime (utcOfLocal tzOffsetMinutes ((firstDay + 7) * msPerDay)).

(** The event of a row for which the calendar derives one, by the day
    count: it starts at 07:00 local time on the day that lies
    [(weekNumber - 1) * 7] days and the number of the weekday after the
    local day of [anchor]. *)
Definition scheduledEvent (tzOffsetMinutes anchor weekNumber : Z)
    (dayIndex workoutTypeIndex : nat) (detailsIndex rationaleIndex : option nat)
    (row : list string) : CalendarWorkoutEvent :=
  let workoutType := cellOr "Run" row workoutTypeIndex in
  let dayOffset :=
    match DAY_INDEX (Js.toLowerCase (Js.trim (cellOr "" row dayIndex))) with
    | Some (DayNumber n) => Z.of_nat n
    | _ => 0
    end in
  let startDay :=
    localTime tzOffsetMinutes anchor / msPerDay + (weekNumber - 1) * 7 + dayOffset in
  let start := utcOfLocal tzOffsetMinutes (startDay * msPerDay + 7 * msPerHour) in
  let details := match detailsIndex with None => "" | Some i => cellOr "" row i end in
  let rationale :=
    match rationaleIndex with None => "" | Some i => cellOr "" row i end in
  mkEvent ("Frunna W" +:+ Js.showInt weekNumber +:+ ": " +:+ workoutType)
    (toISOString start)
    (toISOString (start + estimatedDurationMinutes workoutType * msPerMinute))
    (Js.join NL (List.filter (λ part, negb (String.eqb part "")) [details; rationale])).

(** The events of the scheduled rows of the table at position
    [tableIndex], in the order of the rows. *)
Definition scheduledEventsOf (tzOffsetMinutes anchor : Z) (tableIndex : nat)
    (table : DisplayPlanTable) : list CalendarWorkoutEvent :=
  match findIndex isDayHeader (dheaders table),
        findIndex isWorkoutHeader (dheaders table) with
  | Some dayIndex, Some workoutTypeIndex =>
      scheduledEvent tzOffsetMinutes anchor
        (extractWeekNumber (title table) (Z.of_nat tableIndex + 1))
        dayIndex workoutTypeIndex
        (findIndex isDetailsHeader (dheaders table))
        (findIndex isRationaleHeader (dheaders table))
      <$> List.filter (isScheduledRow dayIndex workoutTypeIndex) (drows table)
  | _, _ => []
  end.

(** The events of the scheduled rows of all tables, in the order of the
    tables. *)
Definition scheduledEvents (tzOffsetMinutes anchor : Z)
    (tables : list DisplayPlanTable) : list CalendarWorkoutEvent :=
  mjoin (imap (scheduledEventsOf tzOffsetMinutes anchor) tables).

(** The rows of a table as the display shows them: without the cell of the
    week column, when the table has one. *)
Definition shownRows (table : PlanTable) : list (list string) :=
  match findIndex isWeekHeader (headers table) with
  | Some weekColumnIndex => delete weekColumnIndex <$> rows table
  | None => rows table
  end.

(** * Properties *)

(** ** The model on small inputs *)

Example parseRunDayCap_plain : parseRunDayCap "5" = 5.
Proof. reflexivity. Qed.

Example parseRunDayCap_clamped :
  parseRunDayCap " 12 days" = 7 ∧ parseRunDayCap "-3" = 1 ∧ parseRunDayCap "0" = 1.
Proof. repeat split. Qed.

Example parseRunDayCap_default :
  parseRunDayCap "" = 4 ∧ parseRunDayCap "four" = 4.
Proof. split; reflexivity. Qed.

Example normalizeDayName_abbreviations :
  normalizeDayName " Tues " = Some "Tuesday"
  ∧ normalizeDayName "SUN" = Some "Sunday"
  ∧ normalizeDayName "someday" = None
  ∧ normalizeDayName "constructor" = None.
Proof. repeat split. Qed.

Example isRestLikeWorkout_samples :
  isRestLikeWorkout "Rest Day" = true
  ∧ isRestLikeWorkout "Day OFF" = true
  ∧ isRestLikeWorkout "Recovery / optional mobility" = false
  ∧ isRestLikeWorkout "Respect 4 training days/week" = false.
Proof. repeat split. Qed.

Example extractWeekNumber_samples :
  extractWeekNumber "Week 2" 7 = 2
  ∧ extractWeekNumber "Plan for WEEK   11 (deload)" 7 = 11
  ∧ extractWeekNumber "Week two" 7 = 7
  ∧ extractWeekNumber "Weekly 3" 7 = 7.
Proof. repeat split. Qed.

Example estimatedDurationMinutes_precedence :
  estimatedDurationMinutes "Long Run" = 90
  ∧ estimatedDurationMinutes "Tempo Run" = 70
  ∧ estimatedDurationMinutes "Easy Run" = 50
  ∧ estimatedDurationMinutes "Strength" = 45
  ∧ estimatedDurationMinutes "Fartlek" = 60.
Proof. repeat split. Qed.

Example toISOString_sample :
  toISOString (daysFromCivil 2024 6 12 * msPerDay + 7 * msPerHour + 5 * msPerMinute)
  = "2024-06-12T07:05:00.000Z".
Proof. reflexivity. Qed.

Example civil_dates_sample :
  civilFromDays 0 = (1970, 1, 1)
  ∧ civilFromDays (daysFromCivil 2024 2 29) = (2024, 2, 29)
  ∧ daysFromCivil 2024 6 3 = 19877.
Proof. repeat split. Qed.

Example structured_week_scenario :
  (structuredWeekToTable <$> weekOfJson shuffledJson 9)
  = Some (mkPlanTable
            ["Week"; "Day"; "Workout Type"; "Details (Distance/Pace/Zone)"; "Rationale"]
            [ ["Week 2"; "Monday"; "Easy Run"; "5km"; "Load management"];
              ["Week 2"; "Tuesday"; "Rest Day"; "Recovery / mobility"; "Load management"];
              ["Week 2"; "Wednesday"; "Rest Day"; "Recovery / mobility"; "Load management"];
              ["Week 2"; "Thursday"; "Rest Day"; "Recovery / mobility"; "Load management"];
              ["Week 2"; "Friday"; "Rest Day"; "Recovery / mobility"; "Load management"];
              ["Week 2"; "Saturday"; "Rest Day"; "Recovery / mobility"; "Load management"];
              ["Week 2"; "Sunday"; "Long Run"; "Recovery / mobility"; "Load management"] ]).
Proof. reflexivity. Qed.

Example countPlannedRunDays_sample :
  countPlannedRunDays [plainWeek] = 7%nat ∧ countPlannedRunDays [paceTable] = 0%nat.
Proof. split; reflexivity. Qed.

(** ** Run-day cap parsing *)

(** C10: for every input string [parseRunDayCap] returns an integer between
    1 and 7, and 4 whenever the trimmed string does not parse to a finite
    integer. *)
Theorem parseRunDayCap_range (value : string) :
  1 ≤ parseRunDayCap value ≤ 7
  ∧ (Js.isFinite (Js.parseInt (Js.trim value)) = false → parseRunDayCap value = 4).
Proof.
  unfold parseRunDayCap.
  destruct (Js.parseInt (Js.trim value)) as [| neg | parsed]; simpl.
  - split; [lia | done].
  - split; [lia | done].
  - split; [lia | discriminate].
Qed.

(** ** Tables without the columns the enforcer needs *)

(** C9: a table that lacks a day header or lacks a workout header is
    returned unchanged, whatever the cap and the long-run day. *)
Theorem clamp_without_columns_unchanged (table : PlanTable) (runDayCap : Z)
    (longRunDay : string) :
  findIndex isDayHeader (headers table) = None
  ∨ findIndex isWorkoutHeader (headers table) = None →
  clampTable runDayCap longRunDay table = table
  ∧ clampWeekToRunDayCap [table] runDayCap longRunDay = [table].
Proof.
  intros H.
  assert (clampTable runDayCap longRunDay table = table) as E.
  { unfold clampTable. destruct H as [-> | H].
    - done.
    - rewrite H. by destruct (findIndex isDayHeader (headers table)). }
  split; [done |]. unfold clampWeekToRunDayCap. simpl. by rewrite E.
Qed.

Lemma clamp_without_columns_unchanged_witness :
  length (nonRestRows paceTable) = 3%nat
  ∧ clampTable 1 "Sunday" paceTable = paceTable
  ∧ clampWeekToRunDayCap [paceTable] 1 "Sunday" = [paceTable].
Proof.
  split; [reflexivity |].
  apply (clamp_without_columns_unchanged paceTable 1 "Sunday").
  left. reflexivity.
Defined.

(** ** Array writes *)

Lemma assign_lookup_same (i : nat) (v : string) (row : list string) :
  assign i v row !! i = Some v.
Proof.
  unfold assign. case_decide as Hi.
  - by apply list_lookup_insert_eq.
  - rewrite lookup_app_r by lia. rewrite lookup_app_r; rewrite length_replicate; [| lia].
    by replace (i - length row - (i - length row))%nat with 0%nat by lia.
Qed.

Lemma assign_lookup_other (i j : nat) (v : string) (row : list string) :
  i ≠ j → cellOr "" (assign i v row) j = cellOr "" row j.
Proof.
  intros Hne. unfold cellOr, assign. case_decide as Hi.
  - by rewrite list_lookup_insert_ne.
  - destruct (decide (j < length row)%nat) as [Hj | Hj].
    + by rewrite lookup_app_l.
    + rewrite (lookup_ge_None_2 row j) by lia. simpl.
      rewrite lookup_app_r by lia.
      destruct (decide (j - length row < i - length row)%nat) as [Hk | Hk].
      * rewrite lookup_app_l by (rewrite length_replicate; lia).
        by rewrite lookup_replicate_2.
      * rewrite lookup_app_r by (rewrite length_replicate; lia).
        rewrite length_replicate.
        destruct (j - length row - (i - length row))%nat as [| k] eqn:E; [lia |].
        done.
Qed.

Lemma assign_length_in_range (i : nat) (v : string) (row : list string) :
  (i < length row)%nat → length (assign i v row) = length row.
Proof. intros Hi. unfold assign. rewrite decide_True by done. apply length_insert. Qed.

(** ** The normaliser on arrays with holes *)

Lemma spread_length (row : list Sparse.slot) :
  length (Sparse.spread row) = length row.
Proof. apply length_fmap. Qed.

Lemma spread_dense (row : list Sparse.slot) :
  Forall (λ cell, cell ≠ Sparse.Hole) row → Sparse.spread row = row.
Proof.
  induction 1 as [| cell row Hcell _ IH]; [done |].
  unfold Sparse.spread in *. rewrite fmap_cons, IH. by destruct cell.
Qed.

Lemma spread_without_holes (row : list Sparse.slot) :
  Forall (λ cell, cell ≠ Sparse.Hole) (Sparse.spread row).
Proof.
  unfold Sparse.spread. apply Forall_fmap, Forall_forall. intros cell _.
  by destruct cell.
Qed.

Lemma writeAt_lookup (i : nat) (v : string) (row : list Sparse.slot) :
  Sparse.writeAt i v row !! i = Some (Sparse.Text v).
Proof.
  unfold Sparse.writeAt. case_decide as Hi.
  - by apply list_lookup_insert_eq.
  - rewrite lookup_app_r by lia. rewrite lookup_app_r; rewrite length_replicate; [| lia].
    by replace (i - length row - (i - length row))%nat with 0%nat by lia.
Qed.

(** Writing the label a second time: the row stays exactly when the first
    write left no hole. *)
Lemma writeAt_again (i : nat) (v : string) (row : list Sparse.slot) :
  Forall (λ cell, cell ≠ Sparse.Hole) row →
  Sparse.writeAt i v (Sparse.spread (Sparse.writeAt i v row)) = Sparse.writeAt i v row
  ↔ (i ≤ length row)%nat.
Proof.
  intros Hrow. split.
  - intros E. destruct (decide (i ≤ length row)%nat) as [| Hgt]; [done |]. exfalso.
    apply (f_equal (λ r, r !! length row)) in E. revert E.
    assert (length row < i)%nat as Hlt by lia.
    assert (Sparse.writeAt i v row !! length row = Some Sparse.Hole) as Hhole.
    { unfold Sparse.writeAt. rewrite decide_False by lia.
      rewrite lookup_app_r by lia. rewrite Nat.sub_diag.
      rewrite lookup_app_l by (rewrite length_replicate; lia).
      apply lookup_replicate_2. lia. }
    rewrite Hhole.
    unfold Sparse.writeAt at 1. rewrite decide_True.
    + rewrite list_lookup_insert_ne by lia.
      unfold Sparse.spread. rewrite list_lookup_fmap, Hhole. done.
    + rewrite spread_length. apply lookup_lt_is_Some. rewrite writeAt_lookup. eauto.
  - intros Hle. rewrite spread_dense.
    + unfold Sparse.writeAt at 1. rewrite decide_True.
      * apply list_insert_id, writeAt_lookup.
      * apply lookup_lt_is_Some. rewrite writeAt_lookup. eauto.
    + unfold Sparse.writeAt. case_decide as Hi.
      * apply Forall_insert; done.
      * replace (i - length row)%nat with 0%nat by lia. simpl.
        apply Forall_app. split; [done |]. by repeat constructor.
Qed.

Lemma fmap_fixed {A : Type} (f : A → A) (l : list A) :
  f <$> (f <$> l) = f <$> l ↔ Forall (λ x, f (f x) = f x) l.
Proof.
  induction l as [| x l IH]; [by split; [constructor |] |].
  rewrite !fmap_cons, Forall_cons, <- IH. split.
  - by intros [= -> ->].
  - by intros [-> ->].
Qed.

Lemma fmap_agree {A B : Type} (f g : A → B) (l : list A) :
  f <$> l = g <$> l ↔ Forall (λ x, f x = g x) l.
Proof.
  induction l as [| x l IH]; [by split; [constructor |] |].
  rewrite !fmap_cons, Forall_cons, <- IH. split.
  - by intros [= -> ->].
  - by intros [-> ->].
Qed.

Lemma enforceWeekLabel_idempotent (label : string) (tables : list Sparse.Table) :
  Sparse.enforceWeekLabel label (Sparse.enforceWeekLabel label tables)
  = Sparse.enforceWeekLabel label tables
  ↔ Forall Sparse.reachesWeekColumn tables.
Proof.
  unfold Sparse.enforceWeekLabel. rewrite fmap_fixed.
  apply Forall_iff. intros table. unfold Sparse.reachesWeekColumn.
  destruct (findIndex isWeekHeader (Sparse.columnHeaders table)) as [weekIndex |] eqn:E;
    cbn [Sparse.columnHeaders Sparse.arrayRows].
  - rewrite E. split.
    + intros [= H]. rewrite <- list_fmap_compose in H. apply fmap_agree in H.
      apply (Forall_impl _ _ _ H). intros row Hrow. cbn [compose] in Hrow.
      apply writeAt_again in Hrow; [| apply spread_without_holes].
      by rewrite spread_length in Hrow.
    + intros H. f_equal. rewrite <- list_fmap_compose. apply fmap_agree.
      apply (Forall_impl _ _ _ H). intros row Hrow. cbn [compose].
      apply writeAt_again; [apply spread_without_holes |].
      by rewrite spread_length.
  - cbn [findIndex]. change (isWeekHeader "Week") with true. cbv iota.
    split; [done |]. intros _. f_equal. rewrite <- list_fmap_compose.
    apply list_fmap_ext. intros _ row _. cbn [compose].
    unfold Sparse.writeAt. rewrite decide_True by (simpl; lia). simpl.
    f_equal. apply spread_dense, spread_without_holes.
Qed.

(** Where every row reaches the week column, the function on strings is the
    function on the arrays of the language. *)
Lemma enforceExpectedWeek_dense (tables : list PlanTable) (weekNumber : Z) :
  Forall Sparse.reachesWeekColumn (denseTable <$> tables) →
  Sparse.enforceExpectedWeekOnArrays (denseTable <$> tables) weekNumber
  = denseTable <$> enforceExpectedWeek tables weekNumber.
Proof.
  intros H. unfold Sparse.enforceExpectedWeekOnArrays, Sparse.enforceWeekLabel,
    enforceExpectedWeek.
  rewrite <- !list_fmap_compose. apply fmap_agree.
  rewrite Forall_fmap in H. apply (Forall_impl _ _ _ H). intros table Ht.
  cbn [compose] in *. unfold Sparse.reachesWeekColumn in Ht.
  unfold enforceWeekOnTable. unfold denseTable in *.
  cbn [Sparse.columnHeaders Sparse.arrayRows] in *.
  assert (∀ row : list string, Sparse.spread (Sparse.Text <$> row) = Sparse.Text <$> row)
    as Hspread.
  { intros row. apply spread_dense, Forall_fmap, Forall_forall. by intros. }
  destruct (findIndex isWeekHeader (headers table)) as [weekIndex |];
    cbn [headers rows]; f_equal.
  - rewrite <- !list_fmap_compose. apply fmap_agree.
    rewrite Forall_fmap in Ht. apply (Forall_impl _ _ _ Ht). intros row Hrow.
    cbn [compose] in *. rewrite Hspread. rewrite length_fmap in Hrow.
    unfold Sparse.writeAt, assign. rewrite length_fmap.
    case_decide as Hi.
    + by rewrite list_fmap_insert.
    + replace (weekIndex - length row)%nat with 0%nat by lia. simpl.
      by rewrite fmap_app.
  - rewrite <- !list_fmap_compose. apply list_fmap_ext. intros _ row _.
    cbn [compose]. by rewrite Hspread.
Qed.



(** ** Markdown tables *)

Lemma split_nonempty (sep : ascii) (s : string) : Js.split sep s ≠ [].
Proof.
  induction s as [| c s IH]; simpl; [done |].
  destruct (Ascii.eqb c sep); [done |].
  by destruct (Js.split sep s).
Qed.

Lemma parseCells_width_positive (line : string) : (1 ≤ length (parseCells line))%nat.
Proof.
  unfold parseCells. rewrite length_fmap.
  pose proof (split_nonempty PIPE (Js.dropEnds line)) as H.
  destruct (Js.split PIPE (Js.dropEnds line)); [done | simpl; lia].
Qed.

(** What [repairRow] does in each of its three cases, with the slices
    written as [take] and [drop]. *)
Lemma repairRow_cases (width : nat) (row : list string) :
  (1 ≤ width)%nat →
  (length row = width → repairRow width row = row)
  ∧ ((width < length row)%nat →
     repairRow width row
     = take (width - 1) row ++ [Js.join " | " (drop (width - 1) row)])
  ∧ ((length row < width)%nat →
     repairRow width row = row ++ replicate (width - length row) EmptyString).
Proof.
  intros Hw. unfold repairRow, sliceTo, sliceFrom. repeat split; intros H.
  - by rewrite decide_True.
  - rewrite decide_False by lia. rewrite decide_True by done.
    replace (Z.of_nat width - 1 <? 0) with false by (symmetry; apply Z.ltb_ge; lia).
    by replace (Z.to_nat (Z.of_nat width - 1)) with (width - 1)%nat by lia.
  - rewrite decide_False by lia. by rewrite decide_False by lia.
Qed.

Lemma repairRow_length (width : nat) (row : list string) :
  (1 ≤ width)%nat → length (repairRow width row) = width.
Proof.
  intros Hw. destruct (repairRow_cases width row Hw) as (Heq & Hgt & Hlt).
  destruct (decide (length row = width)) as [E | N].
  - by rewrite Heq.
  - destruct (decide (width < length row)%nat) as [G | L].
    + rewrite Hgt by done. rewrite length_app, length_take. simpl. lia.
    + rewrite Hlt by lia. rewrite length_app, length_replicate. lia.
Qed.

Lemma filter_all {A : Type} (p : A → bool) (l : list A) :
  Forall (λ x, p x = true) l → List.filter p l = l.
Proof.
  induction 1 as [| x l Hx _ IH]; simpl; [done |]. by rewrite Hx, IH.
Qed.

Lemma scanLines_table_lines (block rest acc : list string) :
  Forall (λ line, isTableLine line = true) block →
  scanLines (block ++ rest) acc = scanLines rest (acc ++ block).
Proof.
  intros H. revert acc. induction H as [| line block Hl _ IH]; intros acc; simpl.
  - by rewrite app_nil_r.
  - rewrite Hl, IH. by rewrite <- app_assoc.
Qed.

Lemma scanLines_flushed (before rest acc : list string) (l : string) :
  last before = Some l → isTableLine l = false →
  scanLines (before ++ rest) acc = scanLines before acc ++ scanLines rest [].
Proof.
  revert acc. induction before as [| x before IH]; intros acc Hlast Hl; [done |].
  destruct before as [| y before].
  - simpl in Hlast. injection Hlast as ->. simpl. rewrite Hl.
    change (tableOfBlock []) with (@nil PlanTable). by rewrite app_nil_r.
  - change (last (x :: y :: before)) with (last (y :: before)) in Hlast.
    change ((x :: y :: before) ++ rest) with (x :: ((y :: before) ++ rest)).
    cbn [scanLines]. destruct (isTableLine x).
    + by apply IH.
    + rewrite (IH [] Hlast Hl). by rewrite app_assoc.
Qed.

Lemma scanLines_split (before rest : list string) :
  (∀ l, last before = Some l → isTableLine l = false) →
  scanLines (before ++ rest) [] = scanLines before [] ++ scanLines rest [].
Proof.
  intros H. destruct (last before) as [l |] eqn:E.
  - by apply (scanLines_flushed _ _ _ l); [| apply H].
  - apply last_None in E. by subst.
Qed.

Lemma scanLines_block_end (block after : list string) :
  (∀ l, head after = Some l → isTableLine l = false) →
  scanLines after block = tableOfBlock block ++ scanLines after [].
Proof.
  intros H. destruct after as [| l after]; simpl.
  - change (tableOfBlock []) with (@nil PlanTable). by rewrite app_nil_r.
  - by rewrite (H l eq_refl).
Qed.

(** C5: a run of at least three table lines whose second line holds the
    separator yields the table whose header is the cells of the first line
    and whose rows are the cells of the lines from the third on, each
    repaired to the header width: a longer row keeps its first cells and
    joins the overflow into the last column, a shorter row is padded with
    empty strings. *)
Theorem parseMarkdownTables_block (text : string)
    (before block after : list string) (header separator : string) :
  rawLinesOf text = before ++ block ++ after →
  Forall (λ line, isTableLine line = true) block →
  (∀ l, last before = Some l → isTableLine l = false) →
  (∀ l, head after = Some l → isTableLine l = false) →
  (3 ≤ length block)%nat →
  block !! 0%nat = Some header →
  block !! 1%nat = Some separator →
  Js.includes "---" separator = true →
  let width := length (parseCells header) in
  let rows := repairRow width <$> (parseCells <$> drop 2 block) in
  parseMarkdownTables text
  = scanLines before [] ++ [mkPlanTable (parseCells header) rows] ++ scanLines after []
  ∧ length rows = (length block - 2)%nat
  ∧ (∀ i line, block !! (2 + i)%nat = Some line →
       let cells := parseCells line in
       ∃ row, rows !! i = Some row ∧ length row = width
         ∧ (length cells = width → row = cells)
         ∧ ((width < length cells)%nat →
            row = take (width - 1) cells ++ [Js.join " | " (drop (width - 1) cells)])
         ∧ ((length cells < width)%nat →
            row = cells ++ replicate (width - length cells) EmptyString)).
Proof.
  intros Htext Hblock Hbefore Hafter Hlen Hhead Hsep Hinc width rows.
  pose proof (parseCells_width_positive header) as Hw. fold width in Hw.
  assert (length rows = (length block - 2)%nat) as Hrows.
  { unfold rows. by rewrite !length_fmap, length_drop. }
  split; [| split; [done |]].
  - unfold parseMarkdownTables. rewrite Htext.
    rewrite scanLines_split by done.
    rewrite scanLines_table_lines by done. simpl.
    rewrite (scanLines_block_end block after) by done. f_equal.
    change (?t :: scanLines after []) with ([t] ++ scanLines after []). f_equal.
    unfold tableOfBlock. rewrite Hhead, Hsep. simpl. rewrite Hinc. simpl.
    replace (length block <? 3)%nat with false
      by (symmetry; apply Nat.ltb_ge; lia).
    simpl. fold width. fold rows.
    rewrite filter_all.
    + destruct rows; [simpl in Hrows; lia | done].
    + apply Forall_forall. intros row Hin. apply Nat.eqb_eq.
      unfold rows in Hin. apply list_elem_of_fmap in Hin as (cells & -> & _).
      by apply repairRow_length.
  - intros i line Hline cells.
    exists (repairRow width cells). split.
    + unfold rows. rewrite !list_lookup_fmap, lookup_drop, Hline. done.
    + split; [by apply repairRow_length |]. by apply repairRow_cases.
Qed.

Lemma parseMarkdownTables_block_witness :
  parseMarkdownTables sampleText
  = [mkPlanTable ["Day"; "Workout"] [["Mon"; "Easy | extra"]; ["Tue"; ""]]].
Proof.
  apply (parseMarkdownTables_block sampleText ["Plan:"] sampleBlock ["Good luck"]
           "| Day | Workout |" "|---|---|").
  - reflexivity.
  - repeat constructor.
  - intros l [= <-]. reflexivity.
  - intros l [= <-]. reflexivity.
  - simpl. lia.
  - reflexivity.
  - reflexivity.
  - reflexivity.
Defined.

(** ** History digest *)

Lemma push_loop_filter_map {A : Type} (p : A → bool) (f : A → string)
    (l : list A) (acc : list string) :
  fold_left (λ lines x, if p x then lines ++ [f x] else lines) l acc
  = acc ++ (f <$> List.filter p l).
Proof.
  revert acc. induction l as [| x l IH]; intros acc; simpl.
  - by rewrite app_nil_r.
  - rewrite IH. destruct (p x); [| done]. simpl. by rewrite <- app_assoc.
Qed.

Lemma summariseTable_bullets (weekNumber : Z) (acc : list string) (table : PlanTable) :
  summariseTable weekNumber acc table = acc ++ weekBullets weekNumber table.
Proof. unfold summariseTable, weekBullets. apply push_loop_filter_map. Qed.

Lemma summaryLines_from (weekNumber : Z) (tables : list PlanTable) (acc : list string) :
  fold_left (summariseTable weekNumber) tables acc
  = acc ++ concat (weekBullets weekNumber <$> tables).
Proof.
  revert acc. induction tables as [| table tables IH]; intros acc; simpl.
  - by rewrite app_nil_r.
  - rewrite IH, summariseTable_bullets. by rewrite <- app_assoc.
Qed.

Lemma rowIsSummarised_spec (weekIndex : option nat) (weekNumber : Z) (row : list string) :
  rowIsSummarised weekIndex weekNumber row = true
  ↔ weekIndex = None
    ∨ ∃ wi, weekIndex = Some wi
        ∧ (row !! wi = None ∨ row !! wi = Some EmptyString
           ∨ ∃ cell, row !! wi = Some cell
               ∧ Js.includes (Js.toLowerCase ("week " +:+ Js.showInt weekNumber))
                   (Js.toLowerCase cell) = true).
Proof.
  unfold rowIsSummarised. destruct weekIndex as [wi |].
  - destruct (row !! wi) as [cell |] eqn:E.
    + split.
      * intros H. right. exists wi. split; [done |].
        apply orb_true_iff in H as [H | H].
        -- right. left. apply String.eqb_eq in H. by subst.
        -- right. right. by exists cell.
      * intros [? | (wi' & [= <-] & H)]; [done |]. rewrite E in H.
        destruct H as [? | [[= ->] | (cell' & [= <-] & H)]]; [done | done |].
        by rewrite H, orb_true_r.
    + split; [| done]. intros _. right. exists wi. by split; [| left].
  - split; [by left | done].
Qed.

(** C8, as amended: the digest is the header line followed by the bullets of
    the first seven summarised rows, in table and row order; a row of a
    table with a week column is summarised exactly when its week cell is
    missing, empty, or contains the week label without regard to case, and
    every row of a table without a week column is. *)
Theorem summarizeWeekForHistory_shape (tables : list PlanTable) (weekNumber : Z) :
  let bullets := take 7 (concat (weekBullets weekNumber <$> tables)) in
  summarizeWeekForHistory tables weekNumber
  = Js.join NL (("Week " +:+ Js.showInt weekNumber +:+ " Summary:") :: bullets)
  ∧ (length bullets ≤ 7)%nat
  ∧ (∀ weekIndex row,
       rowIsSummarised weekIndex weekNumber row = true
       ↔ weekIndex = None
         ∨ ∃ wi, weekIndex = Some wi
             ∧ (row !! wi = None ∨ row !! wi = Some EmptyString
                ∨ ∃ cell, row !! wi = Some cell
                    ∧ Js.includes (Js.toLowerCase ("week " +:+ Js.showInt weekNumber))
                        (Js.toLowerCase cell) = true)).
Proof.
  intros bullets. split; [| split].
  - unfold summarizeWeekForHistory, summaryLinesOf. by rewrite summaryLines_from.
  - unfold bullets. rewrite length_take. lia.
  - intros weekIndex row. apply rowIsSummarised_spec.
Qed.

(** C8, as stated, fails: a row whose week cell is empty does not contain
    the week label and is summarised all the same. *)
Lemma summary_counts_blank_week_cell :
  findIndex isWeekHeader (headers blankWeekTable) = Some 0%nat
  ∧ rowBelongsAsStated (Some 0%nat) 1 [""; "Monday"; "Run"] = false
  ∧ summarizeWeekForHistory [blankWeekTable] 1
    = Js.join NL ["Week 1 Summary:"; "- Monday: Run"].
Proof. repeat split; reflexivity. Qed.

(** ** The structured week *)

Lemma isTextField_stringOr (d : string) (entry : json) (k : string) :
  isTextField entry k = true →
  ∃ field, getProp entry k = Some field ∧ stringOr d field = Some (fieldText d entry k).
Proof.
  unfold isTextField, fieldText.
  destruct (getProp entry k) as [[[]|]|]; try done; eauto.
Qed.

Lemma addDayEntry_typed (byDay : gmap string StructuredPlanDay) (entry : json) :
  isDayObject entry = true → addDayEntry byDay entry = Some (addedDay byDay entry).
Proof.
  unfold isDayObject. rewrite !andb_true_iff. intros [[[Hd Hw] He] Hr].
  destruct (isTextField_stringOr "" entry "day" Hd) as (fd & Gd & Sd).
  destruct (isTextField_stringOr "Rest Day" entry "workoutType" Hw) as (fw & Gw & Sw).
  destruct (isTextField_stringOr "" entry "details" He) as (fe & Ge & Se).
  destruct (isTextField_stringOr "" entry "rationale" Hr) as (fr & Gr & Sr).
  unfold addDayEntry, addedDay, entryDayName.
  rewrite Gd. simpl. rewrite Sd. simpl.
  destruct (normalizeDayName (fieldText "" entry "day")) as [name |]; [| done].
  case_decide; [done |].
  rewrite Gw. simpl. rewrite Sw. simpl. rewrite Ge. simpl. rewrite Se. simpl.
  rewrite Gr. simpl. rewrite Sr. simpl. done.
Qed.

Lemma addedDay_lookup (byDay : gmap string StructuredPlanDay) (entry : json)
    (name : string) :
  addedDay byDay entry !! name
  = match byDay !! name with
    | Some d => Some d
    | None =>
        if bool_decide (entryDayName entry = Some name)
        then Some (entryRecord name entry) else None
    end.
Proof.
  unfold addedDay. destruct (entryDayName entry) as [nd |] eqn:E.
  - case_decide as Hin.
    + destruct (byDay !! name) as [d |] eqn:L; [done |].
      case_bool_decide as Hn; [| done]. injection Hn as ->.
      rewrite L in Hin. by destruct Hin.
    + destruct (decide (nd = name)) as [-> | Hne].
      * rewrite lookup_insert_eq.
        destruct (byDay !! name) as [d |] eqn:L; [destruct Hin; eauto |].
        by rewrite bool_decide_eq_true_2.
      * rewrite lookup_insert_ne by done.
        destruct (byDay !! name); [done |].
        rewrite bool_decide_eq_false_2; [done | congruence].
  - destruct (byDay !! name); [done |]. by rewrite bool_decide_eq_false_2.
Qed.

Lemma collectDays_typed (entries : list json) (byDay : gmap string StructuredPlanDay) :
  Forall (λ e, isDayObject e = true) entries →
  ∃ byDay', collectDays byDay entries = Some byDay'
    ∧ ∀ name,
        byDay' !! name
        = match byDay !! name with
          | Some d => Some d
          | None =>
              entryRecord name
              <$> List.find (λ e, bool_decide (entryDayName e = Some name)) entries
          end.
Proof.
  intros H. revert byDay. induction H as [| e entries He _ IH]; intros byDay.
  - exists byDay. split; [done |]. intros name. by destruct (byDay !! name).
  - destruct (IH (addedDay byDay e)) as (byDay' & Hc & Hl).
    exists byDay'. split.
    + simpl. rewrite addDayEntry_typed by done. simpl. exact Hc.
    + intros name. rewrite Hl, addedDay_lookup. simpl.
      destruct (byDay !! name); [done |].
      by destruct (bool_decide (entryDayName e = Some name)).
Qed.

Lemma dayFor_day (entries : list json) (name : string) :
  day (dayFor entries name) = name.
Proof. unfold dayFor. by destruct (List.find _ entries). Qed.

(** C2, as amended: when the days field is a list whose entries carry their
    day, workout type, details and rationale as strings (or not at all), and
    the verdict and the reasoning are strings (or absent), the parser
    returns a week of exactly seven days, one per weekday in the order
    Monday to Sunday; each is the first entry naming that weekday, and a
    weekday that no entry names is the default rest day. *)
Theorem parseWeekJsonFromText_seven_days (JSON_parse : string → option json)
    (text candidate : string) (expectedWeek : Z) (parsed : json)
    (entries : list json) :
  jsonCandidate text = Some candidate →
  JSON_parse candidate = Some parsed →
  getProp parsed "days" = Some (Some (JArray entries)) →
  Forall (λ e, isDayObject e = true) entries →
  isTextField parsed "verdict" = true →
  isTextField parsed "reasoning" = true →
  ∃ weekPlan,
    parseWeekJsonFromText JSON_parse text expectedWeek = Some weekPlan
    ∧ length (days weekPlan) = 7%nat
    ∧ day <$> days weekPlan = WEEKDAY_NAMES
    ∧ days weekPlan = dayFor entries <$> WEEKDAY_NAMES
    ∧ (∀ name, name ∈ WEEKDAY_NAMES →
         (∀ e, e ∈ entries → entryDayName e ≠ Some name) →
         dayFor entries name
         = mkDay name "Rest Day" "Recovery / mobility" "Load management").
Proof.
  intros Hcand Hparse Hdays Htyped Hv Hr.
  destruct (collectDays_typed entries ∅ Htyped) as (byDay & Hc & Hl).
  destruct (isTextField_stringOr "Maintenance" parsed "verdict" Hv) as (fv & Gv & Sv).
  destruct (isTextField_stringOr "Balanced load and recovery." parsed "reasoning" Hr)
    as (fr & Gr & Sr).
  assert (∃ fw, getProp parsed "week" = Some fw) as (fw & Gw).
  { destruct parsed; simpl in *; eauto; discriminate. }
  assert (weekDays byDay = dayFor entries <$> WEEKDAY_NAMES) as Hwd.
  { unfold weekDays. apply list_fmap_ext. intros _ name _. simpl.
    rewrite Hl, lookup_empty. unfold dayFor.
    by destruct (List.find _ entries). }
  eexists. split.
  { unfold parseWeekJsonFromText. rewrite Hcand. simpl. rewrite Hparse. simpl.
    unfold weekOfJson. rewrite Hdays. simpl. rewrite Hc. simpl.
    rewrite Gw. simpl. rewrite Gv. simpl. rewrite Sv. simpl.
    rewrite Gr. simpl. rewrite Sr. simpl. reflexivity. }
  cbn [days]. rewrite Hwd. split; [done |]. split; [| split; [done |]].
  - unfold WEEKDAY_NAMES. simpl. by rewrite !dayFor_day.
  - intros name _ Hnone. unfold dayFor.
    destruct (List.find _ entries) as [e |] eqn:F; [| done].
    apply find_some in F as [Hin Hb]. apply bool_decide_eq_true_1 in Hb.
    destruct (Hnone e); [| done]. by apply list_elem_of_In.
Qed.

Lemma parseWeekJsonFromText_seven_days_witness :
  ∃ weekPlan,
    parseWeekJsonFromText shuffledParse shuffledText 9 = Some weekPlan
    ∧ days weekPlan
      = [ mkDay "Monday" "Easy Run" "5km" "Load management";
          restDay "Tuesday"; restDay "Wednesday"; restDay "Thursday";
          restDay "Friday"; restDay "Saturday";
          mkDay "Sunday" "Long Run" "Recovery / mobility" "Load management" ].
Proof.
  destruct (parseWeekJsonFromText_seven_days shuffledParse shuffledText "{ week 2 }" 9
              shuffledJson
              [JObject [("day", JString "Sun"); ("workoutType", JString "Long Run")];
               JObject [("day", JString "monday"); ("workoutType", JString "Easy Run");
                        ("details", JString "5km")];
               JObject [("day", JString "Monday"); ("workoutType", JString "Tempo")]])
    as (weekPlan & Hp & _ & _ & Hd & _).
  - reflexivity.
  - reflexivity.
  - reflexivity.
  - repeat constructor.
  - reflexivity.
  - reflexivity.
  - exists weekPlan. split; [exact Hp |]. rewrite Hd. reflexivity.
Defined.

(** C2, as stated, fails: the days field of this JSON text is a list, and
    the parser returns no week, because the day of its entry is a number. *)
Lemma numeric_day_yields_no_week :
  jsonCandidate numericDayText = Some numericDayText
  ∧ numericDayParse numericDayText = Some numericDayJson
  ∧ (∃ entries, getProp numericDayJson "days" = Some (Some (JArray entries)))
  ∧ parseWeekJsonFromText numericDayParse numericDayText 1 = None.
Proof.
  split; [reflexivity |]. split; [reflexivity |].
  split; [eexists; reflexivity |]. reflexivity.
Qed.

(** ** Run-day enforcement *)

Lemma findIndex_lt {A : Type} (p : A → bool) (l : list A) (i : nat) :
  findIndex p l = Some i → (i < length l)%nat.
Proof.
  revert i. induction l as [| x l IH]; intros i; simpl; [done |].
  destruct (p x).
  - intros [= <-]. lia.
  - destruct (findIndex p l) as [j |]; simpl; [| done].
    intros [= <-]. specialize (IH j eq_refl). lia.
Qed.

(** The rows of a table that are as wide as its headers reach its week
    column. *)
Lemma rectangular_reaches_week_column (table : PlanTable) :
  rectangular table → Sparse.reachesWeekColumn (denseTable table).
Proof.
  unfold rectangular, Sparse.reachesWeekColumn, denseTable.
  cbn [Sparse.columnHeaders Sparse.arrayRows]. intros H.
  destruct (findIndex isWeekHeader (headers table)) as [weekIndex |] eqn:E; [| done].
  apply findIndex_lt in E. apply Forall_fmap.
  apply (Forall_impl _ _ _ H). intros row Hrow. cbn. rewrite length_fmap. lia.
Qed.

Lemma filter_sublist {A : Type} (p : A → bool) (l : list A) :
  List.filter p l `sublist_of` l.
Proof.
  induction l as [| x l IH]; simpl; [done |].
  destruct (p x); by constructor.
Qed.

Lemma elem_of_bool_filter {A : Type} (p : A → bool) (l : list A) (x : A) :
  x ∈ List.filter p l ↔ x ∈ l ∧ p x = true.
Proof. rewrite !list_elem_of_In. apply filter_In. Qed.

Lemma indexed_indices {A : Type} (l : list A) :
  (imap pair l).*1 = seq 0 (length l).
Proof.
  rewrite fmap_imap. rewrite <- (list_fmap_id (seq 0 (length l))).
  by rewrite <- (imap_seq_0 l id).
Qed.

Lemma elem_of_indexed {A : Type} (l : list A) (i : nat) (x : A) :
  (i, x) ∈ imap pair l ↔ l !! i = Some x.
Proof.
  rewrite elem_of_lookup_imap. split.
  - by intros (j & y & [= -> ->] & H).
  - intros H. by exists i, x.
Qed.

Lemma filter_indexed_length {A : Type} (p : A → bool) (l : list A) (f : nat → nat) :
  length (List.filter (λ q, p q.2) (imap (λ i x, (f i, x)) l))
  = length (List.filter p l).
Proof.
  revert f. induction l as [| x l IH]; intros f; simpl; [done |].
  specialize (IH (f ∘ S)). destruct (p x); simpl; by rewrite <- IH.
Qed.

Lemma filter_pairs_length {A : Type} (p : A → bool) (l : list A) :
  length (List.filter (λ q, p q.2) (imap pair l)) = length (List.filter p l).
Proof. exact (filter_indexed_length p l id). Qed.

Lemma insertSorted_perm (x : scoredRow) (l : list scoredRow) :
  insertSorted x l ≡ₚ x :: l.
Proof.
  induction l as [| y l IH]; simpl; [done |].
  destruct (PrimFloat.ltb 0 (comparator x y)); [| done].
  rewrite IH. apply Permutation_swap.
Qed.

Lemma sortScored_perm (l : list scoredRow) : sortScored l ≡ₚ l.
Proof.
  induction l as [| x l IH]; simpl; [done |].
  by rewrite insertSorted_perm, IH.
Qed.

Lemma sliceTo_nonneg {A : Type} (n : Z) (l : list A) :
  0 ≤ n → sliceTo n l = take (Z.to_nat n) l.
Proof. intros H. unfold sliceTo. by rewrite (proj2 (Z.ltb_ge n 0)). Qed.

(** The indexes the enforcer keeps: as many as the cap, all different, each
    the index of a row that is not rest-like. *)
Lemma keepIndexesOf_spec (dayIndex workoutIndex : nat) (runDayCap : Z)
    (longRunDay : string) (rows : list (list string)) :
  0 ≤ runDayCap < Z.of_nat (length (List.filter (isActiveRow workoutIndex) rows)) →
  ∃ kept : list nat,
    NoDup kept ∧ length kept = Z.to_nat runDayCap
    ∧ (∀ i, i ∈ keepIndexesOf dayIndex workoutIndex runDayCap longRunDay rows
            ↔ i ∈ kept)
    ∧ (∀ i, i ∈ kept →
            ∃ row, rows !! i = Some row ∧ isActiveRow workoutIndex row = true).
Proof.
  intros Hcap. unfold keepIndexesOf.
  set (activeRows := List.filter (λ p, isActiveRow workoutIndex p.2) (imap pair rows)).
  set (scoredRows := _ <$> activeRows).
  assert (sr_idx <$> scoredRows = activeRows.*1) as Hidx.
  { unfold scoredRows. rewrite <- list_fmap_compose. by apply list_fmap_ext. }
  assert (length activeRows = length (List.filter (isActiveRow workoutIndex) rows))
    as Hcount.
  { apply filter_pairs_length. }
  exists (sr_idx <$> sliceTo runDayCap (sortScored scoredRows)).
  rewrite sliceTo_nonneg by lia.
  assert (NoDup (sr_idx <$> sortScored scoredRows)) as Hnd.
  { rewrite sortScored_perm, Hidx.
    apply (sublist_NoDup _ (imap pair rows).*1).
    - rewrite indexed_indices. apply NoDup_seq.
    - apply fmap_sublist, filter_sublist. }
  assert (sr_idx <$> take (Z.to_nat runDayCap) (sortScored scoredRows)
          `sublist_of` sr_idx <$> sortScored scoredRows) as Hsub.
  { apply fmap_sublist, sublist_take. }
  split; [| split; [| split]].
  - by apply (sublist_NoDup _ (sr_idx <$> sortScored scoredRows)).
  - rewrite length_fmap, length_take.
    assert (length (sortScored scoredRows) = length activeRows) as ->.
    { rewrite sortScored_perm. unfold scoredRows. by rewrite length_fmap. }
    lia.
  - intros i. apply elem_of_list_to_set.
  - intros i Hi.
    assert (i ∈ activeRows.*1) as Hin.
    { rewrite <- Hidx, <- (sortScored_perm scoredRows).
      by apply (elem_of_sublist _ _ _ Hi). }
    apply list_elem_of_fmap in Hin as ([j row] & -> & Hin).
    apply elem_of_bool_filter in Hin as [Hin Hact].
    apply elem_of_indexed in Hin. by exists row.
Qed.

Lemma demoteRow_is_rest (workoutIndex : nat) (detailsIndex rationaleIndex : option nat)
    (runDayCap : Z) (row : list string) :
  detailsIndex ≠ Some workoutIndex → rationaleIndex ≠ Some workoutIndex →
  isActiveRow workoutIndex
    (demoteRow workoutIndex detailsIndex rationaleIndex runDayCap row) = false.
Proof.
  intros Hd Hr. unfold isActiveRow, demoteRow.
  assert (∀ r, cellOr "" r workoutIndex = "Rest Day" →
               cellOr "" (match detailsIndex with
                          | Some d => assign d "Recovery / optional mobility" r
                          | None => r
                          end) workoutIndex = "Rest Day") as Hd'.
  { intros r Hc. destruct detailsIndex as [d |]; [| done].
    rewrite assign_lookup_other; [done | congruence]. }
  assert (cellOr "" (assign workoutIndex "Rest Day" row) workoutIndex = "Rest Day") as H0.
  { unfold cellOr. by rewrite assign_lookup_same. }
  apply Hd' in H0.
  destruct rationaleIndex as [r |].
  - rewrite assign_lookup_other by congruence. by rewrite H0.
  - by rewrite H0.
Qed.

Lemma demoteRow_length (workoutIndex : nat) (detailsIndex rationaleIndex : option nat)
    (runDayCap : Z) (row : list string) :
  (workoutIndex < length row)%nat →
  (∀ d, detailsIndex = Some d → (d < length row)%nat) →
  (∀ r, rationaleIndex = Some r → (r < length row)%nat) →
  length (demoteRow workoutIndex detailsIndex rationaleIndex runDayCap row)
  = length row.
Proof.
  intros Hw Hd Hr. unfold demoteRow.
  assert (length (assign workoutIndex "Rest Day" row) = length row) as H1
    by by apply assign_length_in_range.
  set (r1 := assign workoutIndex "Rest Day" row) in *.
  assert (length (match detailsIndex with
                  | Some d => assign d "Recovery / optional mobility" r1
                  | None => r1
                  end) = length row) as H2.
  { destruct detailsIndex as [d |]; [| done].
    rewrite assign_length_in_range; [done |]. rewrite H1. by apply Hd. }
  destruct rationaleIndex as [r |]; [| done].
  rewrite assign_length_in_range; [done |]. rewrite H2. by apply Hr.
Qed.

Lemma filter_imap_length {A : Type} (p : A → bool) (q : nat → bool)
    (l : list A) (k : nat) (g : nat → A → A) :
  (∀ i x, l !! i = Some x → p (g i x) = q (k + i)%nat) →
  length (List.filter p (imap g l)) = length (List.filter q (seq k (length l))).
Proof.
  revert k g. induction l as [| x l IH]; intros k g H; [done |].
  cbn [imap length seq List.filter].
  rewrite (H 0%nat x eq_refl), Nat.add_0_r.
  assert (length (List.filter p (imap (g ∘ S) l))
          = length (List.filter q (seq (S k) (length l)))) as E.
  { apply IH. intros i y Hy. simpl. rewrite (H (S i) y Hy). f_equal. lia. }
  destruct (q k); simpl; by rewrite E.
Qed.

Lemma kept_count (kept : list nat) (n : nat) :
  NoDup kept → (∀ i, i ∈ kept → (i < n)%nat) →
  length (List.filter (λ i, bool_decide (i ∈ kept)) (seq 0 n)) = length kept.
Proof.
  intros Hnd Hlt. apply Permutation_length, NoDup_Permutation; [| done |].
  - apply (sublist_NoDup _ (seq 0 n)); [apply NoDup_seq | apply filter_sublist].
  - intros i. rewrite elem_of_bool_filter, bool_decide_eq_true, elem_of_seq.
    split; [tauto |]. intros Hi. specialize (Hlt i Hi). split; [lia | done].
Qed.

(** What the enforcer guarantees when no other column shares the cell of
    the workout type: the headers and the number of rows stay, exactly the
    cap of rows stay active, each of them an unchanged active row of the
    input at the same position, rest-like rows stay as they are, and a row
    of the width of the headers keeps that width. *)
Lemma clampTable_enforces_cap (table : PlanTable) (runDayCap : Z)
    (longRunDay : string) (dayIndex workoutIndex : nat) :
  findIndex isDayHeader (headers table) = Some dayIndex →
  findIndex isWorkoutHeader (headers table) = Some workoutIndex →
  findIndex isDetailsHeader (headers table) ≠ Some workoutIndex →
  findIndex isRationaleHeader (headers table) ≠ Some workoutIndex →
  0 ≤ runDayCap < Z.of_nat (length (nonRestRows table)) →
  let table' := clampTable runDayCap longRunDay table in
  headers table' = headers table
  ∧ length (rows table') = length (rows table)
  ∧ length (nonRestRows table') = Z.to_nat runDayCap
  ∧ (∀ i row', rows table' !! i = Some row' →
       isActiveRow workoutIndex row' = true →
       rows table !! i = Some row')
  ∧ (∀ i row, rows table !! i = Some row →
       isActiveRow workoutIndex row = false →
       rows table' !! i = Some row)
  ∧ (∀ i row row', rows table !! i = Some row → rows table' !! i = Some row' →
       length row = length (headers table) →
       length row' = length (headers table)).
Proof.
  intros Hday Hworkout Hdetails Hrationale Hcap table'.
  unfold nonRestRows in Hcap. rewrite Hworkout in Hcap.
  destruct (keepIndexesOf_spec dayIndex workoutIndex runDayCap longRunDay
              (rows table) Hcap) as (kept & Hnd & Hlen & Hkeep & Hactive).
  set (keepIndexes :=
         keepIndexesOf dayIndex workoutIndex runDayCap longRunDay (rows table)) in *.
  set (g := λ (idx : nat) (row : list string),
         if bool_decide (idx ∈ keepIndexes)
            || isRestLikeWorkout (cellOr "" row workoutIndex)
         then row
         else demoteRow workoutIndex (findIndex isDetailsHeader (headers table))
                (findIndex isRationaleHeader (headers table)) runDayCap row).
  assert (table' = mkPlanTable (headers table) (imap g (rows table))) as ->.
  { unfold table', clampTable. rewrite Hday, Hworkout.
    rewrite filter_pairs_length.
    by rewrite (proj2 (Z.leb_gt _ _)) by lia. }
  assert (∀ i row, rows table !! i = Some row →
            isActiveRow workoutIndex (g i row) = bool_decide (i ∈ kept)) as Hg.
  { intros i row Hrow. unfold g.
    destruct (decide (i ∈ kept)) as [Hin | Hout].
    - rewrite (bool_decide_eq_true_2 (i ∈ keepIndexes)) by by apply Hkeep.
      simpl. destruct (Hactive i Hin) as (row0 & Hrow0 & Hact).
      rewrite bool_decide_eq_true_2 by done. congruence.
    - rewrite (bool_decide_eq_false_2 (i ∈ keepIndexes)) by by rewrite Hkeep.
      rewrite (bool_decide_eq_false_2 (i ∈ kept)) by done. simpl.
      destruct (isRestLikeWorkout (cellOr "" row workoutIndex)) eqn:Hrest.
      + unfold isActiveRow. by rewrite Hrest.
      + by apply demoteRow_is_rest. }
  cbn [headers rows]. split; [done |]. split; [apply length_imap |].
  split; [| split; [| split]].
  - unfold nonRestRows. cbn [headers rows]. rewrite Hworkout.
    rewrite (filter_imap_length _ (λ i, bool_decide (i ∈ kept)) _ 0%nat); [| done].
    rewrite kept_count; [done | done |].
    intros i Hi. destruct (Hactive i Hi) as (row & Hrow & _).
    by apply lookup_lt_Some in Hrow.
  - intros i row' Hrow' Hact. rewrite list_lookup_imap in Hrow'.
    destruct (rows table !! i) as [row |] eqn:Hrow; [| done].
    injection Hrow' as <-. f_equal. unfold g in *.
    destruct (bool_decide (i ∈ keepIndexes)
              || isRestLikeWorkout (cellOr "" row workoutIndex)); [done |].
    by rewrite demoteRow_is_rest in Hact.
  - intros i row Hrow Hrest. rewrite list_lookup_imap, Hrow. simpl. f_equal.
    unfold g. unfold isActiveRow in Hrest. apply negb_false_iff in Hrest.
    by rewrite Hrest, orb_true_r.
  - intros i row row' Hrow Hrow' Hwidth. rewrite list_lookup_imap, Hrow in Hrow'.
    injection Hrow' as <-. unfold g.
    destruct (bool_decide (i ∈ keepIndexes)
              || isRestLikeWorkout (cellOr "" row workoutIndex)); [done |].
    rewrite demoteRow_length; [done | ..]; rewrite Hwidth.
    + by apply (findIndex_lt isWorkoutHeader).
    + intros d. apply findIndex_lt.
    + intros r. apply findIndex_lt.
Qed.

(** *** The order of the kept rows *)

Lemma DAY_INDEX_number_bound (key : string) (n : nat) :
  DAY_INDEX key = Some (DayNumber n) → (n < 7)%nat.
Proof.
  unfold DAY_INDEX, DAY_INDEX_own. cbn [List.find fst snd].
  repeat (destruct (String.eqb _ key); [intros [= <-]; lia |]).
  by destruct (String.eqb key "constructor" || String.eqb key "__proto__").
Qed.

Lemma numeric_day_order (dayIndex : nat) (row : list string) :
  hasNumericDay dayIndex row = true →
  ∃ d, (d < 8)%nat
    ∧ numberOfDay (default (DayNumber 7)
                     (DAY_INDEX (Js.toLowerCase (cellOr "" row dayIndex))))
      = floatOfNat d.
Proof.
  unfold hasNumericDay.
  destruct (DAY_INDEX (Js.toLowerCase (cellOr "" row dayIndex))) as [[n | name] |] eqn:E.
  - intros _. exists n. split; [| done]. apply DAY_INDEX_number_bound in E. lia.
  - done.
  - intros _. exists 7%nat. split; [lia | done].
Qed.

Lemma filter_fmap_length {A B : Type} (p : B → bool) (h : A → B) (l : list A) :
  length (List.filter p (h <$> l)) = length (List.filter (p ∘ h) l).
Proof.
  induction l as [| x l IH]; [done |].
  rewrite fmap_cons. cbn [List.filter compose].
  destruct (p (h x)); cbn [length]; by rewrite IH.
Qed.

Lemma filter_ext_elem {A : Type} (p q : A → bool) (l : list A) :
  (∀ x, x ∈ l → p x = q x) → List.filter p l = List.filter q l.
Proof.
  intros H. apply filter_ext_in. intros x Hx. apply H. by apply list_elem_of_In.
Qed.

(** The table the enforcer returns when it has rows to demote. *)
Lemma clampTable_unfold (table : PlanTable) (runDayCap : Z) (longRunDay : string)
    (dayIndex workoutIndex : nat) :
  findIndex isDayHeader (headers table) = Some dayIndex →
  findIndex isWorkoutHeader (headers table) = Some workoutIndex →
  runDayCap < Z.of_nat (length (nonRestRows table)) →
  clampTable runDayCap longRunDay table
  = mkPlanTable (headers table)
      (imap (λ idx row,
               if bool_decide
                    (idx ∈ keepIndexesOf dayIndex workoutIndex runDayCap longRunDay
                             (rows table))
                  || isRestLikeWorkout (cellOr "" row workoutIndex)
               then row
               else demoteRow workoutIndex (findIndex isDetailsHeader (headers table))
                      (findIndex isRationaleHeader (headers table)) runDayCap row)
            (rows table)).
Proof.
  intros Hday Hworkout Hcap. unfold nonRestRows in Hcap. rewrite Hworkout in Hcap.
  unfold clampTable. rewrite Hday, Hworkout, filter_pairs_length.
  by rewrite (proj2 (Z.leb_gt _ _)) by lia.
Qed.

(** The comparisons hold for every pair of scores of a table of at most
    [maxScoredRows] rows, by evaluating each. *)
Lemma scoreOrder_checked :
  forallb (λ a, forallb (scoreOrderAgrees a) scoreTable) scoreTable = true.
Proof. vm_compute. reflexivity. Qed.

Lemma scoreTable_elem (f : bool * bool * bool) (d i : nat) :
  f ∈ scoreFlags → (d < 8)%nat → (i < maxScoredRows)%nat →
  let s := scoreValue f.1.1 f.1.2 f.2 (floatOfNat d) i in
  In (s, scoreKey s, f) scoreTable.
Proof.
  intros Hf Hd Hi s. apply list_elem_of_In. unfold scoreTable.
  apply list_elem_of_bind. exists f. split; [| done].
  apply list_elem_of_bind. exists d. split; [| apply elem_of_seq; lia].
  apply list_elem_of_bind. exists i. split; [| apply elem_of_seq; lia].
  apply list_elem_of_singleton. done.
Qed.

Lemma tabled_order (x y : scoredRow) (f g : bool * bool * bool) :
  tabled x f → tabled y g →
  PrimFloat.ltb 0 (comparator x y) = (rowKey x <? rowKey y)
  ∧ PrimFloat.ltb (sr_score x) (sr_score y) = (rowKey x <? rowKey y)
  ∧ PrimFloat.eqb (sr_score x) (sr_score y) = (rowKey x =? rowKey y)
  ∧ (g.1.1 = true → f.1.1 = false → rowKey x < rowKey y)
  ∧ (g.1.2 = true → f.1.2 = false → f.2 = false → rowKey x < rowKey y).
Proof.
  intros (Hf & Hi & d & Hd & Ex) (Hg & Hj & e & He & Ey).
  pose proof (proj1 (forallb_forall _ _) scoreOrder_checked _
                (scoreTable_elem f d (sr_idx x) Hf Hd Hi)) as H.
  cbv beta zeta in H.
  pose proof (proj1 (forallb_forall _ _) H _
                (scoreTable_elem g e (sr_idx y) Hg He Hj)) as H'.
  clear H. cbv beta zeta in H'. unfold scoreOrderAgrees in H'.
  destruct f as [[lp q] l], g as [[lp' q'] l']. cbn [fst snd] in *.
  unfold comparator, rowKey. rewrite Ex, Ey.
  apply andb_true_iff in H' as [H' H5]. apply andb_true_iff in H' as [H' H4].
  apply andb_true_iff in H' as [H' H3]. apply andb_true_iff in H' as [H1 H2].
  apply Bool.eqb_prop in H1, H2, H3.
  split; [done |]. split; [done |]. split; [done |]. split.
  - intros -> ->. cbn in H4. by apply Z.ltb_lt.
  - intros -> -> ->. cbn in H5. by apply Z.ltb_lt.
Qed.

Lemma filter_perm {A : Type} (p : A → bool) (a b : list A) :
  a ≡ₚ b → List.filter p a ≡ₚ List.filter p b.
Proof.
  induction 1 as [| x l1 l2 _ IH | x y l1 | l1 l2 l3 _ IH1 _ IH2]; simpl.
  - done.
  - destruct (p x); by rewrite IH.
  - destruct (p x), (p y); try done. apply Permutation_swap.
  - by rewrite IH1.
Qed.

Lemma filter_andb {A : Type} (p q : A → bool) (l : list A) :
  List.filter (λ x, p x && q x) l = List.filter q (List.filter p l).
Proof.
  induction l as [| x l IH]; simpl; [done |].
  destruct (p x); simpl; [destruct (q x) |]; by rewrite IH.
Qed.

Lemma filter_none {A : Type} (p : A → bool) (l : list A) :
  Forall (λ x, p x = false) l → List.filter p l = [].
Proof. induction 1 as [| x l Hx _ IH]; simpl; [done |]. by rewrite Hx. Qed.

Lemma filter_length_lt {A : Type} (p q : A → bool) (l : list A) (a : A) :
  (∀ x, x ∈ l → p x = true → q x = true) →
  a ∈ l → p a = false → q a = true →
  (length (List.filter p l) < length (List.filter q l))%nat.
Proof.
  intros Hpq Ha Hpa Hqa.
  assert (∀ l', (∀ x, x ∈ l' → p x = true → q x = true) →
            (length (List.filter p l') ≤ length (List.filter q l'))%nat) as Hle.
  { induction l' as [| x l' IH]; intros H; simpl; [done |].
    assert (length (List.filter p l') ≤ length (List.filter q l'))%nat as IH'.
    { apply IH. intros y Hy. apply H. by constructor. }
    destruct (p x) eqn:Px.
    - rewrite (H x) by (done || constructor). simpl. lia.
    - destruct (q x); simpl; lia. }
  induction l as [| x l IH]; [by apply elem_of_nil in Ha |].
  simpl. apply elem_of_cons in Ha as [<- | Ha].
  - rewrite Hpa, Hqa. simpl.
    assert (length (List.filter p l) ≤ length (List.filter q l))%nat; [| lia].
    apply Hle. intros y Hy. apply Hpq. by constructor.
  - assert (length (List.filter p l) < length (List.filter q l))%nat as IH'.
    { apply IH; [| done]. intros y Hy. apply Hpq. by constructor. }
    destruct (p x) eqn:Px.
    + rewrite (Hpq x) by (done || constructor). simpl. lia.
    + destruct (q x); simpl; lia.
Qed.

Lemma beforeb_spec (y x : scoredRow) : beforeb y x = true ↔ before y x.
Proof.
  unfold beforeb, before.
  rewrite orb_true_iff, andb_true_iff, Z.ltb_lt, Z.eqb_eq, Nat.ltb_lt. done.
Qed.

Lemma before_irrefl (x : scoredRow) : ¬ before x x.
Proof. unfold before. lia. Qed.

Lemma before_asym (x y : scoredRow) : before x y → ¬ before y x.
Proof. unfold before. lia. Qed.

Lemma insertSorted_sorted (x : scoredRow) (l : list scoredRow) :
  keyOrdered (x :: l) → Forall (λ y, (sr_idx x < sr_idx y)%nat) l →
  StronglySorted before l → StronglySorted before (insertSorted x l).
Proof.
  intros Hord Hidx Hsorted.
  induction Hsorted as [| y l Hsorted IH Hy]; simpl; [repeat constructor |].
  apply Forall_cons in Hidx as [Hxy Hidx].
  rewrite (Hord x y) by (repeat constructor).
  destruct (rowKey x <? rowKey y) eqn:C.
  - apply Z.ltb_lt in C. constructor.
    + apply IH; [| done]. intros a b Ha Hb. apply Hord.
      * apply elem_of_cons in Ha as [-> | Ha]; [constructor | by do 2 constructor].
      * apply elem_of_cons in Hb as [-> | Hb]; [constructor | by do 2 constructor].
    + rewrite insertSorted_perm. constructor; [by left | done].
  - apply Z.ltb_ge in C. constructor; [by constructor |].
    constructor.
    + unfold before. lia.
    + rewrite Forall_forall in Hy, Hidx. apply Forall_forall. intros z Hz.
      specialize (Hy z Hz). specialize (Hidx z Hz). unfold before in *. lia.
Qed.

Lemma sortScored_sorted (l : list scoredRow) :
  keyOrdered l → StronglySorted (λ a b, (sr_idx a < sr_idx b)%nat) l →
  StronglySorted before (sortScored l).
Proof.
  intros Hord Hidx. induction Hidx as [| x l Hidx IH Hx]; simpl; [constructor |].
  apply insertSorted_sorted.
  - intros a b Ha Hb. apply Hord.
    + apply elem_of_cons in Ha as [-> | Ha]; [constructor |].
      constructor. by rewrite <- (sortScored_perm l).
    + apply elem_of_cons in Hb as [-> | Hb]; [constructor |].
      constructor. by rewrite <- (sortScored_perm l).
  - by rewrite sortScored_perm.
  - apply IH. intros a b Ha Hb. apply Hord; by constructor.
Qed.

(** In a sorted list, an entry is among the first [n] exactly when fewer
    than [n] entries come before it. *)
Lemma sorted_take_iff (s : list scoredRow) (n : nat) (x : scoredRow) :
  StronglySorted before s → x ∈ s →
  x ∈ take n s ↔ (length (List.filter (λ y, beforeb y x) s) < n)%nat.
Proof.
  intros Hsorted Hx. apply list_elem_of_split in Hx as (s1 & s2 & ->).
  assert (List.filter (λ y, beforeb y x) (s1 ++ x :: s2) = s1) as ->.
  { rewrite List.filter_app. cbn [List.filter].
    assert (beforeb x x = false) as ->.
    { apply not_true_iff_false. rewrite beforeb_spec. apply before_irrefl. }
    rewrite (filter_none _ s2).
    - rewrite app_nil_r. apply filter_all. apply Forall_forall. intros y Hy.
      apply beforeb_spec.
      apply (StronglySorted_app_1_elem_of before s1 (x :: s2)); [done | done |].
      constructor.
    - apply Forall_forall. intros y Hy. apply not_true_iff_false.
      rewrite beforeb_spec. apply before_asym.
      apply StronglySorted_app_1_r in Hsorted.
      apply StronglySorted_inv in Hsorted as [_ Hall].
      rewrite Forall_forall in Hall. by apply Hall. }
  split.
  - intros Hin. destruct (decide (length s1 < n)%nat) as [| Hge]; [done |].
    rewrite take_app_le in Hin by lia.
    assert (x ∈ s1) as Hx1.
    { apply (elem_of_sublist _ _ _ Hin), sublist_take. }
    exfalso. apply (before_irrefl x).
    apply (StronglySorted_app_1_elem_of before s1 (x :: s2)); [done | done |].
    constructor.
  - intros Hlt. rewrite take_app_ge by lia. apply elem_of_app. right.
    destruct (n - length s1)%nat as [| m] eqn:E; [lia |]. simpl. constructor.
Qed.

Lemma indexed_filter_sorted {A : Type} (p : nat * A → bool) (l : list A) (k : nat) :
  StronglySorted (λ a b, (a.1 < b.1)%nat)
    (List.filter p (imap (λ i x, ((k + i)%nat, x)) l))
  ∧ Forall (λ a, (k ≤ a.1)%nat) (List.filter p (imap (λ i x, ((k + i)%nat, x)) l)).
Proof.
  revert k. induction l as [| x l IH]; intros k; [split; constructor |].
  rewrite imap_cons. cbn [List.filter].
  rewrite (imap_ext _ (λ i x, ((S k + i)%nat, x))) by (intros; simpl; f_equal; lia).
  destruct (IH (S k)) as [Hs Hf].
  assert (Forall (λ a : nat * A, (k ≤ a.1)%nat)
            (List.filter p (imap (λ i x, ((S k + i)%nat, x)) l))) as Hk.
  { apply (Forall_impl _ _ _ Hf). intros a. lia. }
  destruct (p ((k + 0)%nat, x)); [| done]. split.
  - constructor; [done |]. apply (Forall_impl _ _ _ Hf). intros a. simpl. lia.
  - constructor; [simpl; lia | done].
Qed.

Section Ranking.

Variables (dayIndex workoutIndex : nat) (longRunDay : string).
Variable rows : list (list string).

Hypothesis Hlength : (length rows ≤ maxScoredRows)%nat.
Hypothesis Hnumeric :
  Forall (λ row, isActiveRow workoutIndex row = true →
                 hasNumericDay dayIndex row = true) rows.

Local Abbreviation entry := (scoredEntry dayIndex workoutIndex longRunDay).
Local Abbreviation activeRows :=
  (List.filter (λ p : nat * list string, isActiveRow workoutIndex p.2)
     (imap pair rows)).

Lemma activeRows_elem (j : nat) (r : list string) :
  (j, r) ∈ activeRows ↔ rows !! j = Some r ∧ isActiveRow workoutIndex r = true.
Proof. by rewrite elem_of_bool_filter, elem_of_indexed. Qed.

Lemma scoredAt_tabled (j : nat) (r : list string) :
  rows !! j = Some r → isActiveRow workoutIndex r = true →
  tabled (scoredAt dayIndex workoutIndex longRunDay j r)
    (rowFlags dayIndex workoutIndex longRunDay r).
Proof.
  intros Hj Hact.
  assert (hasNumericDay dayIndex r = true) as Hn.
  { rewrite Forall_forall in Hnumeric. apply Hnumeric; [| done].
    by eapply list_elem_of_lookup_2. }
  destruct (numeric_day_order dayIndex r Hn) as (d & Hd & Ed).
  split; [| split].
  - unfold rowFlags, scoreFlags.
    destruct (Js.testWord "long" _), (bool_decide _), (qualityPattern _);
      cbn [andb]; repeat first [by left | right].
  - apply lookup_lt_Some in Hj. cbn [scoredAt sr_idx]. lia.
  - exists d. split; [done |]. cbn [scoredAt sr_idx sr_score rowFlags fst snd].
    unfold rowScore. by rewrite Ed.
Qed.

Lemma entries_tabled (x : scoredRow) :
  x ∈ entry <$> activeRows →
  ∃ j r, x = scoredAt dayIndex workoutIndex longRunDay j r
    ∧ rows !! j = Some r ∧ isActiveRow workoutIndex r = true
    ∧ tabled x (rowFlags dayIndex workoutIndex longRunDay r).
Proof.
  intros Hx. apply list_elem_of_fmap in Hx as ([j r] & -> & Hx).
  apply activeRows_elem in Hx as [Hj Hact]. exists j, r.
  split; [done |]. split; [done |]. split; [done |]. by apply scoredAt_tabled.
Qed.

Lemma entries_keyOrdered : keyOrdered (entry <$> activeRows).
Proof.
  intros x y Hx Hy.
  destruct (entries_tabled x Hx) as (j & r & _ & _ & _ & Tx).
  destruct (entries_tabled y Hy) as (j' & r' & _ & _ & _ & Ty).
  by destruct (tabled_order x y _ _ Tx Ty) as [H _].
Qed.

Lemma entries_increasing :
  StronglySorted (λ a b, (sr_idx a < sr_idx b)%nat) (entry <$> activeRows).
Proof.
  apply (StronglySorted_fmap _ (λ a b : nat * list string, (a.1 < b.1)%nat)); [done |].
  destruct (indexed_filter_sorted
              (λ p : nat * list string, isActiveRow workoutIndex p.2) rows 0) as [H _].
  by rewrite (imap_ext _ pair) in H.
Qed.

Lemma ranksBefore_beforeb (x y : scoredRow) :
  x ∈ entry <$> activeRows → y ∈ entry <$> activeRows →
  ranksBefore y x = beforeb y x.
Proof.
  intros Hx Hy.
  destruct (entries_tabled x Hx) as (j & r & _ & _ & _ & Tx).
  destruct (entries_tabled y Hy) as (j' & r' & _ & _ & _ & Ty).
  destruct (tabled_order x y _ _ Tx Ty) as (_ & H1 & H2 & _).
  unfold ranksBefore, beforeb. by rewrite H1, H2.
Qed.

(** The rows that rank before a row, counted among the sorted entries. *)
Lemma rankedBefore_length (i : nat) (row : list string) :
  rows !! i = Some row → isActiveRow workoutIndex row = true →
  length (rankedBefore dayIndex workoutIndex longRunDay rows i row)
  = length (List.filter (λ y, beforeb y (entry (i, row)))
              (sortScored (entry <$> activeRows))).
Proof.
  intros Hi Hact. unfold rankedBefore.
  rewrite (filter_andb (λ p, isActiveRow workoutIndex p.2)
             (λ p, ranksBefore (entry p) (entry (i, row)))).
  rewrite (Permutation_length (filter_perm _ _ _ (sortScored_perm _))).
  rewrite filter_fmap_length. f_equal. apply filter_ext_elem.
  intros p Hp. cbn [compose].
  apply (ranksBefore_beforeb (entry (i, row)) (entry p)).
  - apply (list_elem_of_fmap_2 entry _ (i, row)). by apply activeRows_elem.
  - by apply (list_elem_of_fmap_2 entry).
Qed.

(** A row that is not rest-like is among the kept ones exactly when fewer
    rows than the cap rank before it. *)
Lemma keepIndexesOf_rank (runDayCap : Z) (i : nat) (row : list string) :
  0 ≤ runDayCap →
  rows !! i = Some row → isActiveRow workoutIndex row = true →
  i ∈ keepIndexesOf dayIndex workoutIndex runDayCap longRunDay rows
  ↔ (length (rankedBefore dayIndex workoutIndex longRunDay rows i row)
     < Z.to_nat runDayCap)%nat.
Proof.
  intros Hcap Hi Hact. rewrite (rankedBefore_length i row Hi Hact).
  assert (entry (i, row) ∈ sortScored (entry <$> activeRows)) as Hin.
  { rewrite sortScored_perm. apply list_elem_of_fmap_2. by apply activeRows_elem. }
  rewrite <- (sorted_take_iff _ _ _
                (sortScored_sorted _ entries_keyOrdered entries_increasing) Hin).
  unfold keepIndexesOf. rewrite sliceTo_nonneg by done.
  rewrite elem_of_list_to_set. split.
  - intros Hk. apply list_elem_of_fmap in Hk as (x & Ex & Hx).
    assert (x ∈ entry <$> activeRows) as Hx'.
    { rewrite <- (sortScored_perm _). apply (elem_of_sublist _ _ _ Hx), sublist_take. }
    destruct (entries_tabled x Hx') as (j & r & -> & Hj & _ & _).
    cbn [scoredAt sr_idx] in Ex. subst j.
    assert (r = row) as -> by congruence. done.
  - intros Hk. by apply (list_elem_of_fmap_2' sr_idx _ (entry (i, row))).
Qed.

(** A long run on the preferred day ranks before a row that is none. *)
Lemma preferred_long_run_ranks_first (i j : nat) (row other : list string) :
  rows !! i = Some row → isActiveRow workoutIndex row = true →
  rows !! j = Some other → isActiveRow workoutIndex other = true →
  (rowFlags dayIndex workoutIndex longRunDay row).1.1 = true →
  (rowFlags dayIndex workoutIndex longRunDay other).1.1 = false →
  (length (rankedBefore dayIndex workoutIndex longRunDay rows i row)
   < length (rankedBefore dayIndex workoutIndex longRunDay rows j other))%nat.
Proof.
  intros Hi Hact Hj Hact' Hlp Hlp'.
  pose proof (scoredAt_tabled i row Hi Hact) as Ti.
  pose proof (scoredAt_tabled j other Hj Hact') as Tj.
  destruct (tabled_order _ _ _ _ Tj Ti) as (_ & _ & _ & Hlt & _).
  specialize (Hlt Hlp Hlp').
  assert (∀ k r, rows !! k = Some r → isActiveRow workoutIndex r = true →
            ∀ z, tabled z (rowFlags dayIndex workoutIndex longRunDay row) ∨
                 tabled z (rowFlags dayIndex workoutIndex longRunDay other) →
            ranksBefore (scoredAt dayIndex workoutIndex longRunDay k r) z
            = beforeb (scoredAt dayIndex workoutIndex longRunDay k r) z) as Hb.
  { intros k r Hk Hr z Tz. pose proof (scoredAt_tabled k r Hk Hr) as Tk.
    unfold ranksBefore, beforeb.
    destruct Tz as [Tz | Tz];
      destruct (tabled_order _ _ _ _ Tz Tk) as (_ & H1 & H2 & _);
      by rewrite H1, H2. }
  unfold rankedBefore. apply (filter_length_lt _ _ _ (i, row)).
  - intros [k r] Hk. cbn [fst snd]. apply elem_of_indexed in Hk.
    destruct (isActiveRow workoutIndex r) eqn:Hr; [| done]. cbn [andb].
    rewrite (Hb k r Hk Hr (scoredAt dayIndex workoutIndex longRunDay i row))
      by by left.
    rewrite (Hb k r Hk Hr (scoredAt dayIndex workoutIndex longRunDay j other))
      by by right.
    rewrite !beforeb_spec. unfold before. lia.
  - by apply elem_of_indexed.
  - cbn [fst snd]. rewrite Hact. cbn [andb].
    rewrite (Hb i row Hi Hact) by by left.
    apply not_true_iff_false. rewrite beforeb_spec. apply before_irrefl.
  - cbn [fst snd]. rewrite Hact. cbn [andb].
    rewrite (Hb i row Hi Hact) by by right.
    apply beforeb_spec. by left.
Qed.

(** Only long runs and quality sessions rank before a quality session. *)
Lemma featured_rank_before_quality (i : nat) (row : list string) :
  rows !! i = Some row → isActiveRow workoutIndex row = true →
  qualityPattern (cellOr "" row workoutIndex) = true →
  Forall (λ p, isFeaturedRow workoutIndex p.2 = true)
    (rankedBefore dayIndex workoutIndex longRunDay rows i row).
Proof.
  intros Hi Hact Hq. apply Forall_forall. intros [k r] Hk.
  unfold rankedBefore in Hk. apply elem_of_bool_filter in Hk as [Hk Hp].
  apply elem_of_indexed in Hk. cbn [fst snd] in *.
  apply andb_true_iff in Hp as [Hr Hp].
  pose proof (scoredAt_tabled i row Hi Hact) as Ti.
  pose proof (scoredAt_tabled k r Hk Hr) as Tk.
  destruct (tabled_order _ _ _ _ Tk Ti) as (_ & _ & _ & _ & Hlt).
  destruct (tabled_order _ _ _ _ Ti Tk) as (_ & H1 & H2 & _).
  unfold isFeaturedRow.
  destruct (Js.testWord "long" (cellOr "" r workoutIndex)) eqn:Hl; [done |].
  destruct (qualityPattern (cellOr "" r workoutIndex)) eqn:Hq'; [done |].
  exfalso. cbn [rowFlags fst snd] in Hlt. specialize (Hlt Hq Hq' Hl).
  unfold ranksBefore in Hp. rewrite H1, H2 in Hp.
  apply orb_true_iff in Hp as [Hp | Hp].
  - apply Z.ltb_lt in Hp. lia.
  - apply andb_true_iff in Hp as [Hp _]. apply Z.eqb_eq in Hp. lia.
Qed.

End Ranking.

(** A row that is not rest-like stays as it is exactly when its index is
    among the kept ones. *)
Lemma clampTable_row_kept (table : PlanTable) (runDayCap : Z) (longRunDay : string)
    (dayIndex workoutIndex i : nat) (row : list string) :
  findIndex isDayHeader (headers table) = Some dayIndex →
  findIndex isWorkoutHeader (headers table) = Some workoutIndex →
  findIndex isDetailsHeader (headers table) ≠ Some workoutIndex →
  findIndex isRationaleHeader (headers table) ≠ Some workoutIndex →
  runDayCap < Z.of_nat (length (nonRestRows table)) →
  rows table !! i = Some row → isActiveRow workoutIndex row = true →
  rows (clampTable runDayCap longRunDay table) !! i = Some row
  ↔ i ∈ keepIndexesOf dayIndex workoutIndex runDayCap longRunDay (rows table).
Proof.
  intros Hday Hworkout Hdetails Hrationale Hcap Hrow Hact.
  rewrite (clampTable_unfold table runDayCap longRunDay dayIndex workoutIndex)
    by done.
  cbn [rows]. rewrite list_lookup_imap, Hrow. cbn [fmap option_fmap option_map].
  assert (isRestLikeWorkout (cellOr "" row workoutIndex) = false) as ->.
  { unfold isActiveRow in Hact. by apply negb_true_iff in Hact. }
  rewrite orb_false_r. split.
  - intros [= E]. destruct (bool_decide _) eqn:Hk; [by apply bool_decide_eq_true in Hk |].
    exfalso. apply (f_equal (isActiveRow workoutIndex)) in E.
    rewrite demoteRow_is_rest in E by done. congruence.
  - intros Hk. by rewrite bool_decide_eq_true_2.
Qed.

(** C1: the claimed enforcement fails on a table whose workout column is
    also its details column. The table has a day and a workout column and
    three active rows; with a cap of 2 the demoted row is written
    [Rest Day] and then overwritten with the recovery note, which is not
    rest-like, so three active rows remain. *)
Theorem clamp_merged_column_exceeds_cap :
  findIndex isDayHeader (headers mergedColumnTable) = Some 1%nat
  ∧ findIndex isWorkoutHeader (headers mergedColumnTable) = Some 2%nat
  ∧ findIndex isDetailsHeader (headers mergedColumnTable) = Some 2%nat
  ∧ length (nonRestRows mergedColumnTable) = 3%nat
  ∧ rows (clampTable 2 "Sunday" mergedColumnTable)
    = [ ["Week 1"; "Monday"; "Easy Run 5 km"];
        ["Week 1"; "Tuesday"; "Tempo Run 6 km"];
        ["Week 1"; "Wednesday"; "Recovery / optional mobility"] ]
  ∧ length (nonRestRows (clampTable 2 "Sunday" mergedColumnTable)) = 3%nat.
Proof. repeat split; vm_compute; reflexivity. Qed.




(** In the crowded week five rows rank before the tempo run; in the busy
    week five rows are long runs or quality sessions, one ranks before the
    tempo run, and both rows are kept. *)
Example tempo_run_ranks :
  rankedBefore 1 2 "Sunday" (rows crowdedWeek) 1
    ["Week 1"; "Tuesday"; "Tempo Run"; "6 km"; "threshold"]
  = [ (0%nat, ["Week 1"; "Monday"; "Hill Sprints"; "8 x 30 s"; "power"]);
      (2%nat, ["Week 1"; "Wednesday"; "Long Intervals"; "4 x 2 km"; "stamina"]);
      (4%nat, ["Week 1"; "Friday"; "Long Hill Run"; "12 km"; "strength"]);
      (5%nat, ["Week 1"; "Saturday"; "Long Tempo Progression"; "14 km"; "pace"]);
      (6%nat, ["Week 1"; "Sunday"; "Long Run"; "18 km"; "endurance"]) ]
  ∧ length (List.filter (isFeaturedRow 2) (rows busyWeek)) = 5%nat
  ∧ rankedBefore 1 2 "Sunday" (rows busyWeek) 1
      ["Week 1"; "Tuesday"; "Tempo Run"; "6 km"; "threshold"]
    = [ (6%nat, ["Week 1"; "Sunday"; "Long Run"; "18 km"; "endurance"]) ]
  ∧ rows (clampTable 4 "Sunday" busyWeek) !! 1%nat
    = Some ["Week 1"; "Tuesday"; "Tempo Run"; "6 km"; "threshold"]
  ∧ rows (clampTable 4 "Sunday" busyWeek) !! 6%nat
    = Some ["Week 1"; "Sunday"; "Long Run"; "18 km"; "endurance"].
Proof. repeat split; vm_compute; reflexivity. Qed.

(** ** Calendar events *)

Section CalendarFacts.

Variable tzOffsetMinutes now : Z.
Variable Date_parse : string → option Z.

Local Abbreviation toLocal := (localTime tzOffsetMinutes).
Local Abbreviation toUtc := (utcOfLocal tzOffsetMinutes).

Lemma localTime_utcOfLocal (l : Z) : toLocal (toUtc l) = l.
Proof. unfold localTime, utcOfLocal. lia. Qed.

Lemma day_of_local (dayNumber r : Z) :
  0 ≤ r < msPerDay →
  (dayNumber * msPerDay + r) / msPerDay = dayNumber
  ∧ (dayNumber * msPerDay + r) mod msPerDay = r.
Proof.
  intros Hr. unfold msPerDay in *. split.
  - rewrite Z.add_comm, Z.div_add by lia. rewrite Z.div_small by lia. lia.
  - rewrite Z.add_comm, Z.mod_add by lia. apply Z.mod_small. lia.
Qed.

(** Moving a date whose local day is 3 June 2024 to day [3 + 9] of the
    month and to seven o'clock. *)
Lemma start_of_wednesday (anchor : Z) :
  toLocal anchor / msPerDay = daysFromCivil 2024 6 3 →
  setHours tzOffsetMinutes
    (setDate tzOffsetMinutes anchor (getDate tzOffsetMinutes anchor + (2 - 1) * 7 + 2)) 7
  = toUtc (daysFromCivil 2024 6 12 * msPerDay + 7 * msPerHour).
Proof.
  intros Hday. unfold setHours, setDate, getDate. rewrite Hday.
  change (civilFromDays (daysFromCivil 2024 6 3)) with (2024, 6, 3).
  cbn [snd]. rewrite localTime_utcOfLocal.
  change (daysFromCivil 2024 6 1 + (3 + (2 - 1) * 7 + 2) - 1)
    with (daysFromCivil 2024 6 12).
  assert (0 ≤ toLocal anchor mod msPerDay < msPerDay) as Hr
    by (apply Z.mod_pos_bound; reflexivity).
  by rewrite (proj1 (day_of_local _ _ Hr)).
Qed.

Lemma end_after_minutes (dayNumber minutes : Z) :
  let start := toUtc (dayNumber * msPerDay + 7 * msPerHour) in
  setMinutes tzOffsetMinutes start (getMinutes tzOffsetMinutes start + minutes)
  = start + minutes * msPerMinute.
Proof.
  intros start. unfold setMinutes, getMinutes, start.
  rewrite localTime_utcOfLocal.
  assert (0 ≤ 7 * msPerHour < msPerDay) as Hr by (unfold msPerHour, msPerDay; lia).
  destruct (day_of_local dayNumber _ Hr) as [-> ->].
  change (7 * msPerHour / msPerMinute mod 60) with 0.
  change (7 * msPerHour / msPerHour * msPerHour) with (7 * msPerHour).
  change (7 * msPerHour mod msPerMinute) with 0.
  unfold utcOfLocal. lia.
Qed.

Lemma rowEvent_resolves (anchor weekNumber : Z) (dayIndex workoutTypeIndex : nat)
    (detailsIndex rationaleIndex : option nat) (row : list string) :
  hasNumericDayLabel dayIndex row = true →
  ∃ evs, rowEvent tzOffsetMinutes (Some anchor) weekNumber dayIndex workoutTypeIndex
           detailsIndex rationaleIndex row = Some evs.
Proof.
  unfold hasNumericDayLabel, rowEvent.
  destruct (DAY_INDEX _) as [[n | name] |]; [| done | eauto].
  intros _. destruct (isRestLikeWorkout _); eauto.
Qed.

Lemma rowsEvents_contains (anchor weekNumber : Z) (dayIndex workoutTypeIndex : nat)
    (detailsIndex rationaleIndex : option nat) (rows : list (list string)) :
  forallb (hasNumericDayLabel dayIndex) rows = true →
  ∃ evs, rowsEvents tzOffsetMinutes (Some anchor) weekNumber dayIndex workoutTypeIndex
           detailsIndex rationaleIndex rows = Some evs
    ∧ ∀ row ev, row ∈ rows →
        rowEvent tzOffsetMinutes (Some anchor) weekNumber dayIndex workoutTypeIndex
          detailsIndex rationaleIndex row = Some [ev] →
        ev ∈ evs.
Proof.
  induction rows as [| row rows IH]; intros Hall.
  - exists []. split; [done |]. intros row ev Hin. by apply elem_of_nil in Hin.
  - simpl in Hall. apply andb_true_iff in Hall as [Hrow Hall].
    destruct (IH Hall) as (more & Hmore & Hin).
    destruct (rowEvent_resolves anchor weekNumber dayIndex workoutTypeIndex
                detailsIndex rationaleIndex row Hrow) as (evs & Hevs).
    exists (evs ++ more). split.
    + simpl. rewrite Hevs. simpl. by rewrite Hmore.
    + intros row' ev Hrow' Hev. apply elem_of_app.
      apply elem_of_cons in Hrow' as [-> | Hrow'].
      * left. rewrite Hevs in Hev. injection Hev as ->. constructor.
      * right. by apply (Hin row').
Qed.

Lemma tableEvents_resolves (anchor : Z) (tableIndex : nat) (table : DisplayPlanTable) :
  tableDaysResolve table = true →
  ∃ evs, tableEvents tzOffsetMinutes (Some anchor) tableIndex table = Some evs.
Proof.
  unfold tableDaysResolve, tableEvents.
  destruct (findIndex isDayHeader (dheaders table)) as [dayIndex |]; [| eauto].
  destruct (findIndex isWorkoutHeader (dheaders table)) as [workoutIndex |]; [| eauto].
  intros H.
  destruct (rowsEvents_contains anchor
              (extractWeekNumber (title table) (Z.of_nat tableIndex + 1))
              dayIndex workoutIndex (findIndex isDetailsHeader (dheaders table))
              (findIndex isRationaleHeader (dheaders table)) (drows table) H)
    as (evs & -> & _).
  eauto.
Qed.

Lemma tablesEvents_contains (anchor : Z) (tables : list DisplayPlanTable)
    (tableIndex : nat) :
  forallb tableDaysResolve tables = true →
  ∃ events, tablesEvents tzOffsetMinutes (Some anchor) tableIndex tables = Some events
    ∧ ∀ k table evs ev, tables !! k = Some table →
        tableEvents tzOffsetMinutes (Some anchor) (tableIndex + k) table = Some evs →
        ev ∈ evs → ev ∈ events.
Proof.
  revert tableIndex. induction tables as [| table tables IH]; intros tableIndex Hall.
  - exists []. split; [done |]. intros k table evs ev Hk. done.
  - simpl in Hall. apply andb_true_iff in Hall as [Htable Hall].
    destruct (IH (S tableIndex) Hall) as (more & Hmore & Hin).
    destruct (tableEvents_resolves anchor tableIndex table Htable) as (evs & Hevs).
    exists (evs ++ more). split.
    + simpl. rewrite Hevs. simpl. by rewrite Hmore.
    + intros k table' evs' ev Hk Hevs' Hev. apply elem_of_app.
      destruct k as [| k]; simpl in Hk.
      * injection Hk as <-. rewrite Nat.add_0_r in Hevs'. left. congruence.
      * right. apply (Hin k table' evs' ev Hk); [| done].
        by replace (S tableIndex + k)%nat with (tableIndex + S k)%nat by lia.
Qed.

End CalendarFacts.

(** C7, as amended: with a plan start whose local calendar date is
    2024-06-03, a table titled [Week 2] with a day and a workout column,
    and a Wednesday row whose workout type contains [interval] but neither
    [long] nor a rest-like word, the events derived hold one for that row
    that starts on 2024-06-12 at 07:00 local time and ends 70 minutes
    later. No day label of the tables may be a name that the weekday table
    inherits, which would make the derivation fail. *)
Theorem wednesday_interval_event (tzOffsetMinutes now : Z)
    (Date_parse : string → option Z) (iso : string) (anchor : Z)
    (tables : list DisplayPlanTable) (k : nat) (table : DisplayPlanTable)
    (dayIndex workoutIndex : nat) (row : list string) :
  iso ≠ EmptyString →
  Date_parse iso = Some anchor →
  localTime tzOffsetMinutes anchor / msPerDay = daysFromCivil 2024 6 3 →
  forallb tableDaysResolve tables = true →
  tables !! k = Some table →
  title table = "Week 2" →
  findIndex isDayHeader (dheaders table) = Some dayIndex →
  findIndex isWorkoutHeader (dheaders table) = Some workoutIndex →
  row ∈ drows table →
  DAY_INDEX (Js.toLowerCase (Js.trim (cellOr "" row dayIndex))) = Some (DayNumber 2) →
  let workoutType := cellOr "Run" row workoutIndex in
  Js.includes "interval" (Js.toLowerCase workoutType) = true →
  Js.includes "long" (Js.toLowerCase workoutType) = false →
  isRestLikeWorkout workoutType = false →
  let start :=
    utcOfLocal tzOffsetMinutes (daysFromCivil 2024 6 12 * msPerDay + 7 * msPerHour) in
  ∃ events ev,
    toCalendarEvents tzOffsetMinutes now Date_parse tables (Some iso) = Some events
    ∧ ev ∈ events
    ∧ ev_title ev = "Frunna W2: " +:+ workoutType
    ∧ ev_startDate ev = toISOString start
    ∧ ev_endDate ev = toISOString (start + 70 * msPerMinute).
Proof.
  intros Hiso Hparse Hdate Hresolve Hk Htitle Hday Hworkout Hrow Hwed workoutType
    Hinterval Hlong Hrest start.
  destruct (tablesEvents_contains tzOffsetMinutes anchor tables 0 Hresolve)
    as (events & Hevents & Hin).
  assert (tableDaysResolve table = true) as Htable.
  { rewrite forallb_forall in Hresolve. apply Hresolve, list_elem_of_In.
    by eapply list_elem_of_lookup_2. }
  unfold tableDaysResolve in Htable. rewrite Hday in Htable.
  destruct (rowsEvents_contains tzOffsetMinutes anchor 2 dayIndex workoutIndex
              (findIndex isDetailsHeader (dheaders table))
              (findIndex isRationaleHeader (dheaders table)) (drows table) Htable)
    as (evs & Hevs & Hinrow).
  set (ev := mkEvent ("Frunna W2: " +:+ workoutType) (toISOString start)
               (toISOString (start + 70 * msPerMinute))
               (Js.join NL
                  (List.filter (λ part, negb (String.eqb part ""))
                     [match findIndex isDetailsHeader (dheaders table) with
                      | None => "" | Some i => cellOr "" row i end;
                      match findIndex isRationaleHeader (dheaders table) with
                      | None => "" | Some i => cellOr "" row i end]))).
  exists events, ev. split; [| split; [| done]].
  - unfold toCalendarEvents. destruct iso; [done |]. by rewrite Hparse.
  - apply (Hin k table evs ev Hk).
    + unfold tableEvents. rewrite Htitle, Hday, Hworkout. exact Hevs.
    + apply (Hinrow row ev Hrow). unfold rowEvent. rewrite Hwed.
      fold workoutType. rewrite Hrest.
      change (Z.of_nat 2) with 2. rewrite (start_of_wednesday _ _ Hdate).
      fold start. unfold start at 2 3. rewrite end_after_minutes. fold start.
      unfold estimatedDurationMinutes. rewrite Hlong, Hinterval. simpl orb.
      cbv iota. reflexivity.
Qed.

Lemma wednesday_interval_event_witness :
  ∃ events ev,
    toCalendarEvents 120 0 (λ _, Some (june3 - 120 * msPerMinute)) [week2Intervals]
      (Some "2024-06-02T22:00:00.000Z") = Some events
    ∧ ev ∈ events
    ∧ ev_title ev = "Frunna W2: Intervals"
    ∧ ev_startDate ev = "2024-06-12T05:00:00.000Z"
    ∧ ev_endDate ev = "2024-06-12T06:10:00.000Z".
Proof.
  destruct (wednesday_interval_event 120 0 (λ _, Some (june3 - 120 * msPerMinute))
              "2024-06-02T22:00:00.000Z" (june3 - 120 * msPerMinute)
              [week2Intervals] 0 week2Intervals 0 1
              ["Wednesday"; "Intervals"; "6 x 400 m"])
    as (events & ev & Hrun & Hin & Htitle & Hstart & Hend).
  - discriminate.
  - reflexivity.
  - reflexivity.
  - reflexivity.
  - reflexivity.
  - reflexivity.
  - reflexivity.
  - reflexivity.
  - do 2 constructor.
  - reflexivity.
  - reflexivity.
  - reflexivity.
  - reflexivity.
  - exists events, ev. split; [exact Hrun |]. split; [exact Hin |].
    split; [exact Htitle |]. split; [exact Hstart | exact Hend].
Defined.

(** C7, as stated, fails: the workout type of this Wednesday row contains
    [interval], and its event lasts 90 minutes, because it contains [long]
    as well. *)
Lemma long_interval_row_lasts_90_minutes :
  Js.includes "interval" (Js.toLowerCase "Long Intervals") = true
  ∧ toCalendarEvents 0 0 (λ _, Some june3) [week2LongIntervals] (Some "2024-06-03")
    = Some [ mkEvent "Frunna W2: Long Intervals" "2024-06-12T07:00:00.000Z"
               "2024-06-12T08:30:00.000Z" "5 x 1 km" ].
Proof. split; vm_compute; reflexivity. Qed.

(** Two more rows that the statement of C7 covers and the amended one
    leaves out: a workout type that is rest-like yields no event, and a
    plan start that lies on 2 June in local time moves the event to
    11 June. *)
Example interval_row_with_rest_has_no_event :
  Js.includes "interval" (Js.toLowerCase "Intervals, 2 min rest") = true
  ∧ toCalendarEvents 0 0 (λ _, Some june3)
      [mkDisplayPlanTable "Week 2" ["Day"; "Workout Type"]
         [["Wednesday"; "Intervals, 2 min rest"]]] (Some "2024-06-03")
    = Some [].
Proof. split; reflexivity. Qed.

Example utc_midnight_start_west_of_utc :
  civilFromDays (localTime (-240) june3 / msPerDay) = (2024, 6, 2)
  ∧ ev_startDate
      <$> (toCalendarEvents (-240) 0 (λ _, Some june3) [week2Intervals]
             (Some "2024-06-03") ≫= head)
    = Some "2024-06-11T11:00:00.000Z".
Proof. split; vm_compute; reflexivity. Qed.

(** ** The orchestrator and failed requests *)

Section OrchestratorFacts.

Variable generate : nat → string → result string.
Variable buildAdaptiveRunningCoachPrompt : PlanInput → string → string.
Variable JSON_parse : string → option json.

Local Abbreviation attemptWeek := (generateWeek generate JSON_parse).
Local Abbreviation iteration :=
  (weekIteration generate buildAdaptiveRunningCoachPrompt JSON_parse).
Local Abbreviation loop :=
  (forEachPart generate buildAdaptiveRunningCoachPrompt JSON_parse).

Lemma succeeded_recoverable (request : string * result string) :
  succeeded request → recoverable request.
Proof. intros [text H] e He. congruence. Qed.

(** One attempt at a week makes one or two requests. It returns when they
    all succeed, leaving the published values alone; it throws what the
    first failing request throws, and then it has changed nothing of the
    progress. *)
Lemma generateWeek_outcome (mode : promptMode) (prompt : string)
    (expectedWeekNumber runDayCap : Z) (longRunDay : string) (w : World) :
  ∃ r w' new,
    attemptWeek mode prompt expectedWeekNumber runDayCap longRunDay w = (r, w')
    ∧ requests w' = requests w ++ new
    ∧ ((r = Returned tt ∧ Forall succeeded new
        ∧ response w' = response w ∧ planTables w' = planTables w)
       ∨ (∃ e pre failing, r = Thrown e ∧ new = pre ++ [(failing, Thrown e)]
            ∧ Forall succeeded pre ∧ progress w' = progress w)).
Proof.
  unfold generateWeek, bind, pushDebug, pushWeek, modify, queryModel, ret.
  cbn [requests nextDebugPrompts partResponses accumulatedTables historySummaries
       response planTables debugPrompts].
  destruct (generate (length (requests w)) prompt) as [text | e] eqn:E1.
  - destruct (Z.of_nat (countPlannedRunDays
                (normalizeResponse JSON_parse text expectedWeekNumber)) >? runDayCap).
    + cbn [requests nextDebugPrompts partResponses accumulatedTables historySummaries
           response planTables debugPrompts].
      match goal with
      | |- context [generate ?n ?p] => destruct (generate n p) as [text' | e] eqn:E2
      end.
      * eexists _, _, [(prompt, Returned text); (_, Returned text')].
        split; [reflexivity |]. cbn [requests].
        split; [by rewrite <- app_assoc |]. left.
        repeat split; try done. repeat constructor; by eexists.
      * eexists _, _, [(prompt, Returned text); (_, Thrown e)].
        split; [reflexivity |]. cbn [requests].
        split; [by rewrite <- app_assoc |]. right.
        eexists e, [(prompt, Returned text)], _. repeat split; try done.
        repeat constructor; by eexists.
    + eexists _, _, [(prompt, Returned text)].
      split; [reflexivity |]. cbn [requests]. split; [done |]. left.
      repeat split; try done. repeat constructor; by eexists.
  - eexists _, _, [(prompt, Thrown e)].
    split; [reflexivity |]. cbn [requests]. split; [done |]. right.
    eexists e, [], prompt. repeat split; try done.
Qed.

(** One iteration of the loop returns only when each request that failed in
    it looked like a context window error; when it throws, what it throws
    comes from the last request it made, the failures before that one
    looked like context window errors, and the progress is untouched. *)
Lemma weekIteration_outcome (input compactInput : PlanInput) (runDayCap : Z)
    (parts : list planPart) (part : planPart) (w : World) :
  ∃ r w' new,
    iteration input compactInput runDayCap parts part w = (r, w')
    ∧ requests w' = requests w ++ new
    ∧ ((r = Returned tt ∧ Forall recoverable new)
       ∨ (∃ e pre failing, r = Thrown e ∧ new = pre ++ [(failing, Thrown e)]
            ∧ Forall recoverable pre ∧ progress w' = progress w)).
Proof.
  unfold weekIteration.
  set (week := match Js.parseInt (part_label part) with Js.Int n => n | _ => 0 end).
  unfold bind at 1. unfold gets at 1.
  set (history := Js.join (NL +:+ NL) (historySummaries w)).
  unfold bind at 1. unfold tryCatch.
  destruct (generateWeek_outcome Full
              (buildAdaptiveRunningCoachPrompt (withHistory input history) (part_key part))
              week runDayCap (longRunDay input) w)
    as (r1 & w1 & new1 & -> & Hreq1 & [(-> & Hok1 & _ & _) | (e1 & pre1 & f1 & -> & -> & Hpre1 & Hprog1)]).
  - (* the full prompt was answered *)
    unfold bind, gets, publish, modify. cbn [requests].
    eexists _, _, new1. split; [reflexivity |]. cbn [requests].
    split; [done |]. left. split; [done |].
    eapply Forall_impl; [exact Hok1 | apply succeeded_recoverable].
  - destruct (looksLikeContextWindowError (planningMessage e1)) eqn:Hctx; cbn [negb].
    + (* fall back to the compact prompt *)
      destruct (generateWeek_outcome Compact
                  (buildAdaptiveRunningCoachPrompt (withHistory compactInput history)
                     (part_key part))
                  week runDayCap (longRunDay input) w1)
        as (r2 & w2 & new2 & -> & Hreq2
            & [(-> & Hok2 & _ & _) | (e2 & pre2 & f2 & -> & -> & Hpre2 & Hprog2)]).
      * unfold bind, gets, publish, modify. cbn [requests].
        eexists _, _, ((pre1 ++ [(f1, Thrown e1)]) ++ new2).
        split; [reflexivity |]. cbn [requests].
        split; [by rewrite Hreq2, Hreq1, <- app_assoc |]. left. split; [done |].
        apply Forall_app. split; [apply Forall_app; split |].
        -- eapply Forall_impl; [exact Hpre1 | apply succeeded_recoverable].
        -- constructor; [| constructor]. intros e [= <-]. done.
        -- eapply Forall_impl; [exact Hok2 | apply succeeded_recoverable].
      * eexists _, _, (((pre1 ++ [(f1, Thrown e1)]) ++ pre2) ++ [(f2, Thrown e2)]).
        split; [reflexivity |].
        split; [by rewrite Hreq2, Hreq1, <- !app_assoc |]. right.
        eexists e2, _, f2. split; [done |]. split; [done |]. split.
        -- apply Forall_app. split; [apply Forall_app; split |].
           ++ eapply Forall_impl; [exact Hpre1 | apply succeeded_recoverable].
           ++ constructor; [| constructor]. intros e [= <-]. done.
           ++ eapply Forall_impl; [exact Hpre2 | apply succeeded_recoverable].
        -- congruence.
    + (* any other failure is thrown again *)
      unfold throw. eexists _, _, (pre1 ++ [(f1, Thrown e1)]).
      split; [reflexivity |]. split; [done |]. right.
      eexists e1, pre1, f1. repeat split; try done.
      eapply Forall_impl; [exact Hpre1 | apply succeeded_recoverable].
Qed.

(** The loop over the parts returns only when every failed request looked
    like a context window error. When it throws, some number [k] of
    iterations had completed, the failing request is the last one made, and
    the progress is the one those [k] iterations left. *)
Lemma forEachPart_outcome (input compactInput : PlanInput) (runDayCap : Z)
    (parts todo : list planPart) (w : World) :
  ∃ r w' new,
    loop input compactInput runDayCap parts todo w = (r, w')
    ∧ requests w' = requests w ++ new
    ∧ ((r = Returned tt ∧ Forall recoverable new)
       ∨ (∃ e before failing k wk,
            r = Thrown e ∧ new = before ++ [(failing, Thrown e)]
            ∧ Forall recoverable before
            ∧ (k < length todo)%nat
            ∧ loop input compactInput runDayCap parts (take k todo) w
              = (Returned tt, wk)
            ∧ requests wk `prefix_of` requests w'
            ∧ progress w' = progress wk)).
Proof.
  revert w. induction todo as [| part rest IH]; intros w.
  - exists (Returned tt), w, []. split; [done |]. split; [by rewrite app_nil_r |].
    left. by split.
  - cbn [forEachPart]. unfold bind at 1.
    destruct (weekIteration_outcome input compactInput runDayCap parts part w)
      as (r1 & w1 & new1 & Hrun1 & Hreq1
          & [(-> & Hok1) | (e1 & pre1 & f1 & -> & -> & Hpre1 & Hprog1)]).
    + rewrite Hrun1.
      destruct (IH w1)
        as (r2 & w2 & new2 & Hrun2 & Hreq2
            & [(-> & Hok2)
              | (e2 & before & f2 & k & wk & -> & -> & Hbefore & Hk & Hdone & Hpre & Hprog)]).
      * exists (Returned tt), w2, (new1 ++ new2). split; [done |].
        split; [by rewrite Hreq2, Hreq1, <- app_assoc |]. left. split; [done |].
        by apply Forall_app.
      * exists (Thrown e2), w2, ((new1 ++ before) ++ [(f2, Thrown e2)]).
        split; [done |]. split; [by rewrite Hreq2, Hreq1, <- !app_assoc |]. right.
        exists e2, (new1 ++ before), f2, (S k), wk.
        split; [done |]. split; [done |]. split; [by apply Forall_app |].
        split; [simpl; lia |]. split; [| done].
        cbn [take forEachPart]. unfold bind at 1. by rewrite Hrun1.
    + rewrite Hrun1.
      exists (Thrown e1), w1, (pre1 ++ [(f1, Thrown e1)]).
      split; [done |]. split; [done |]. right.
      exists e1, pre1, f1, 0%nat, w.
      split; [done |]. split; [done |]. split; [done |]. split; [simpl; lia |].
      split; [done |]. split; [| done].
      rewrite Hreq1. by apply prefix_app_r.
Qed.

(** C3: when a generation request fails with an error whose message does
    not look like a context window error, the orchestrator throws that very
    error, the failing request is the last one it makes, and what has been
    accumulated and published is what the iterations completed before it
    left. *)
Theorem fatal_failure_aborts_and_keeps_progress (input : PlanInput)
    (w0 : World) (r : result (string * list PlanTable)) (w : World)
    (i : nat) (prompt : string) (e : thrown) :
  buildWeeklyPlan generate buildAdaptiveRunningCoachPrompt JSON_parse input w0 = (r, w) →
  (length (requests w0) ≤ i)%nat →
  requests w !! i = Some (prompt, Thrown e) →
  looksLikeContextWindowError (planningMessage e) = false →
  r = Thrown e
  ∧ length (requests w) = S i
  ∧ ∃ parts k wk,
      buildParts (seq 1 (Z.to_nat (planLengthWeeks input))) = Returned parts
      ∧ (k < length parts)%nat
      ∧ loop input (toCompactInput input) (parseRunDayCap (runDaysPerWeek input))
          parts (take k parts) (initLocals w0).2
        = (Returned tt, wk)
      ∧ requests wk `prefix_of` requests w
      ∧ progress w = progress wk.
Proof.
  intros Hrun Hi Hreq Hfatal.
  assert (∀ new : list (string * result string),
            Forall recoverable new →
            (requests w0 ++ new) !! i ≠ Some (prompt, Thrown e)) as Hnone.
  { intros new Hnew Hlook. rewrite lookup_app_r in Hlook by done.
    rewrite Forall_forall in Hnew.
    specialize (Hnew _ (list_elem_of_lookup_2 _ _ _ Hlook) e eq_refl). congruence. }
  unfold buildWeeklyPlan in Hrun.
  destruct (buildParts (seq 1 (Z.to_nat (planLengthWeeks input)))) as [parts | e0] eqn:Hparts.
  - unfold bind at 1 in Hrun. unfold initLocals at 1, modify in Hrun.
    unfold bind at 1 in Hrun.
    destruct (forEachPart_outcome input (toCompactInput input)
                (parseRunDayCap (runDaysPerWeek input)) parts parts
                (initLocals w0).2)
      as (r1 & w1 & new & Hloop & Hreq1
          & [(-> & Hok)
            | (e1 & before & failing & k & wk & -> & -> & Hbefore & Hk & Hdone & Hpre & Hprog)]).
    + (* the loop returned: no request failed fatally *)
      unfold initLocals, modify in Hloop. cbn [snd] in Hloop. rewrite Hloop in Hrun.
      unfold bind, publishDebug, modify, gets, ret in Hrun. injection Hrun as <- <-.
      cbn [requests] in Hreq. unfold initLocals, modify in Hreq1.
      cbn [snd requests] in Hreq1. rewrite Hreq1 in Hreq.
      by destruct (Hnone new Hok).
    + unfold initLocals, modify in Hloop. cbn [snd] in Hloop. rewrite Hloop in Hrun.
      injection Hrun as <- <-.
      unfold initLocals, modify in Hreq1, Hdone. cbn [snd requests] in Hreq1.
      assert (i = length (requests w0 ++ before)) as ->.
      { rewrite Hreq1, app_assoc in Hreq.
        destruct (decide (i < length (requests w0 ++ before))%nat) as [Hlt | Hge].
        - rewrite lookup_app_l in Hreq by done. by destruct (Hnone before Hbefore).
        - apply lookup_lt_Some in Hreq. rewrite length_app in Hreq. simpl in Hreq. lia. }
      rewrite Hreq1, app_assoc in Hreq.
      rewrite lookup_app_r, Nat.sub_diag in Hreq by done. injection Hreq as -> ->.
      split; [done |]. split.
      * rewrite Hreq1, app_assoc, length_app. simpl. lia.
      * by exists parts, k, wk.
  - unfold throw in Hrun. injection Hrun as <- <-.
    destruct (Hnone []); [constructor |]. by rewrite app_nil_r.
Qed.

End OrchestratorFacts.

Lemma fatal_failure_aborts_and_keeps_progress_witness :
  let run := buildWeeklyPlan flakyModel samplePrompt noJson sampleInput emptyWorld in
  run.1 = Thrown (ErrorObject "Network request failed")
  ∧ length (requests run.2) = 2%nat
  ∧ ∃ parts k wk,
      buildParts (seq 1 (Z.to_nat (planLengthWeeks sampleInput))) = Returned parts
      ∧ (k < length parts)%nat
      ∧ forEachPart flakyModel samplePrompt noJson sampleInput (toCompactInput sampleInput)
          (parseRunDayCap (runDaysPerWeek sampleInput)) parts (take k parts)
          (initLocals emptyWorld).2
        = (Returned tt, wk)
      ∧ requests wk `prefix_of` requests run.2
      ∧ progress run.2 = progress wk.
Proof.
  intros run.
  apply (fatal_failure_aborts_and_keeps_progress flakyModel samplePrompt noJson
           sampleInput emptyWorld run.1 run.2 1
           (samplePrompt
              (withHistory sampleInput
                 (Js.join NL ["Week 1 Summary:"; "- Monday: Easy Run";
                              "- Sunday: Long Run"])) "week2")
           (ErrorObject "Network request failed")).
  - apply surjective_pairing.
  - simpl. lia.
  - vm_compute. reflexivity.
  - reflexivity.
Defined.


(** ** Printing and reading integers *)

Lemma digitsPrefix_uint (d : Decimal.uint) :
  Js.digitsPrefix (NilEmpty.string_of_uint d)
  = String.list_ascii_of_string (NilEmpty.string_of_uint d).
Proof. induction d; cbn; by f_equal. Qed.

Lemma digits_fold_uint (d : Decimal.uint) (acc : positive) :
  fold_left (λ a c, 10 * a + Js.digitValue c)
    (String.list_ascii_of_string (NilEmpty.string_of_uint d)) (Z.pos acc)
  = Z.pos (Pos.of_uint_acc d acc).
Proof.
  revert acc. induction d; intros acc; cbn [NilEmpty.string_of_uint
    String.list_ascii_of_string fold_left Pos.of_uint_acc]; [done | ..];
  match goal with
  | |- context [10 * Z.pos acc + Js.digitValue ?c] =>
      let v := eval vm_compute in (Js.digitValue c) in
      change (Js.digitValue c) with v
  end;
  rewrite <- IHd; f_equal; lia.
Qed.

Lemma digitsValue_uint (d : Decimal.uint) :
  Js.digitsValue (String.list_ascii_of_string (NilEmpty.string_of_uint d))
  = Z.of_uint d.
Proof.
  unfold Js.digitsValue, Z.of_uint.
  induction d; cbn [NilEmpty.string_of_uint String.list_ascii_of_string fold_left
    Pos.of_uint]; [done | ..];
  match goal with
  | |- context [10 * 0 + Js.digitValue ?c] =>
      let v := eval vm_compute in (10 * 0 + Js.digitValue c) in
      change (10 * 0 + Js.digitValue c) with v
  end; [exact IHd | ..]; apply digits_fold_uint.
Qed.

Lemma to_uint_nonempty (p : positive) : Pos.to_uint p ≠ Decimal.Nil.
Proof.
  intros H. pose proof (DecimalPos.Unsigned.of_to p) as E.
  rewrite H in E. discriminate.
Qed.

(** The decimal text of a natural number: its digits, of which there is at
    least one. *)
Lemma showInt_digits (z : Z) :
  0 ≤ z →
  ∃ c rest, Js.showInt z = String c rest ∧ Js.isDigit c = true
    ∧ Js.digitsPrefix (Js.showInt z) = String.list_ascii_of_string (Js.showInt z)
    ∧ Js.digitsValue (String.list_ascii_of_string (Js.showInt z)) = z.
Proof.
  intros Hz. unfold Js.showInt.
  assert (Z.of_int (Z.to_int z) = z) as Hof by apply DecimalZ.of_to.
  destruct z as [| p | p]; [| | lia].
  - by exists "0"%char, EmptyString.
  - cbn [Z.to_int NilEmpty.string_of_int] in *.
    rewrite digitsPrefix_uint, digitsValue_uint.
    pose proof (to_uint_nonempty p) as Hne.
    destruct (Pos.to_uint p) as [| d | d | d | d | d | d | d | d | d | d];
      [done | ..]; eexists _, _; (split; [reflexivity |]); by split.
Qed.

Lemma safe_integer_finite : Js.MAX_SAFE_INTEGER < Js.overflowThreshold.
Proof. vm_compute. reflexivity. Qed.

Lemma parseInt_showInt (z : Z) :
  - Js.MAX_SAFE_INTEGER ≤ z ≤ Js.MAX_SAFE_INTEGER →
  Js.parseInt (Js.showInt z) = Js.Int z.
Proof.
  intros Hz. pose proof safe_integer_finite as Hsafe. destruct (decide (0 ≤ z)) as [Hpos | Hneg].
  - destruct (showInt_digits z Hpos) as (c & rest & Hs & Hc & Hpre & Hval).
    unfold Js.parseInt. rewrite Hs in *.
    assert (Js.isWhiteSpace c = false ∧ c ≠ "-"%char ∧ c ≠ "+"%char) as (Hw & Hm & Hp).
    { clear -Hc. destruct c as [[] [] [] [] [] [] [] []]; by vm_compute in Hc |- *. }
    cbn [Js.trimStart]. rewrite Hw.
    assert ((let '(negative, s2) :=
               match String c rest with
               | String "-" r => (true, r)
               | String "+" r => (false, r)
               | _ => (false, String c rest)
               end in
             (negative, s2)) = (false, String c rest)) as E.
    { clear -Hm Hp. destruct c as [[] [] [] [] [] [] [] []]; done. }
    revert E.
    destruct (match String c rest with
              | String "-" r => (true, r)
              | String "+" r => (false, r)
              | _ => (false, String c rest)
              end) as [negative s2]. intros [= -> ->].
    rewrite Hpre. cbn [String.list_ascii_of_string] in Hval |- *. rewrite Hval.
    by rewrite (proj2 (Z.ltb_lt z Js.overflowThreshold)) by lia.
  - destruct z as [| p | p]; [lia | lia |].
    destruct (showInt_digits (Z.pos p)) as (c & rest & Hs & Hc & Hpre & Hval); [lia |].
    unfold Js.showInt in *. cbn [Z.to_int NilEmpty.string_of_int] in *.
    unfold Js.parseInt. cbn [Js.trimStart]. change (Js.isWhiteSpace "-") with false.
    cbv iota. rewrite Hs in *. rewrite Hpre.
    cbn [String.list_ascii_of_string] in Hval |- *. rewrite Hval.
    by rewrite (proj2 (Z.ltb_lt (Z.pos p) Js.overflowThreshold)) by lia.
Qed.

Lemma substring_all (s : string) : String.substring 0 (String.length s) s = s.
Proof. induction s as [| c s IH]; [done |]. cbn. by rewrite IH. Qed.

Lemma string_of_list_ascii_of_string (s : string) :
  String.string_of_list_ascii (String.list_ascii_of_string s) = s.
Proof. induction s as [| c s IH]; [done |]. cbn. by rewrite IH. Qed.

Lemma weekDigits_here (s ds : string) :
  weekDigitsHere s = Some ds → weekDigits s = Some ds.
Proof. intros H. destruct s; cbn [weekDigits]; by rewrite H. Qed.

(** The week number printed into a label is the one read back from it. *)
Lemma extractWeekNumber_weekLabel (weekNumber fallback : Z) :
  0 ≤ weekNumber ≤ Js.MAX_SAFE_INTEGER →
  extractWeekNumber (weekLabel weekNumber) fallback = weekNumber.
Proof.
  intros Hn.
  destruct (showInt_digits weekNumber) as (c & rest & Hs & Hc & Hpre & Hval); [lia |].
  pose proof (parseInt_showInt weekNumber) as Hparse.
  unfold extractWeekNumber, weekLabel.
  assert (weekDigits ("Week " +:+ Js.showInt weekNumber) = Some (Js.showInt weekNumber))
    as ->.
  { change ("Week " +:+ Js.showInt weekNumber)
      with (String "W" (String "e" (String "e" (String "k"
              (String " " (Js.showInt weekNumber)))))).
    apply weekDigits_here. unfold weekDigitsHere.
    cbn [Js.toLowerCase].
    change (String.prefix "week" ?s) with true. cbv iota.
    unfold dropChars. cbn [String.length Nat.sub String.substring].
    rewrite substring_all. change (Js.isWhiteSpace " ") with true. cbv iota.
    assert (skipWhiteSpace (Js.showInt weekNumber) = Js.showInt weekNumber) as ->.
    { rewrite Hs. cbn [skipWhiteSpace].
      assert (Js.isWhiteSpace c = false) as ->; [| done].
      clear -Hc. destruct c as [[] [] [] [] [] [] [] []]; by vm_compute in Hc |- *. }
    rewrite Hpre.
    destruct (String.list_ascii_of_string (Js.showInt weekNumber)) as [| a l] eqn:E.
    - by rewrite Hs in E.
    - by rewrite <- E, string_of_list_ascii_of_string. }
  rewrite Hparse; [done | lia].
Qed.


(** ** The shape of the tables the parsers return *)

Lemma tableOfBlock_shape (block : list string) :
  Forall (λ table, (1 ≤ length (headers table))%nat ∧ rows table ≠ []
                   ∧ rectangular table)
    (tableOfBlock block).
Proof.
  unfold tableOfBlock.
  destruct ((length block <? 3)%nat || _); [constructor |].
  set (hs := parseCells (default EmptyString (block !! 0%nat))).
  destruct (List.filter _ _) as [| row rows'] eqn:E; [constructor |].
  constructor; [| constructor]. cbn [headers rows].
  split; [apply parseCells_width_positive |]. split; [done |].
  unfold rectangular. cbn [headers rows]. rewrite <- E.
  apply Forall_forall. intros r Hr.
  apply elem_of_bool_filter in Hr as [_ Hr]. by apply Nat.eqb_eq in Hr.
Qed.

Lemma scanLines_Forall (P : PlanTable → Prop) (lines block : list string) :
  (∀ b, Forall P (tableOfBlock b)) → Forall P (scanLines lines block).
Proof.
  intros H. revert block. induction lines as [| line rest IH]; intros block.
  - apply H.
  - cbn [scanLines]. destruct (isTableLine line); [apply IH |].
    apply Forall_app. split; [apply H | apply IH].
Qed.

(** X1: every table [parseMarkdownTables] returns has at least one header
    and at least one row, and each of its rows is as wide as the headers,
    whatever the text. *)
Theorem parseMarkdownTables_rectangular (text : string) :
  Forall (λ table, (1 ≤ length (headers table))%nat ∧ rows table ≠ []
                   ∧ rectangular table)
    (parseMarkdownTables text).
Proof. apply scanLines_Forall, tableOfBlock_shape. Qed.

Lemma scanLines_few_lines (lines block : list string) :
  (length block + length (List.filter isTableLine lines) < 3)%nat →
  scanLines lines block = [].
Proof.
  revert block. induction lines as [| line rest IH]; intros block Hfew.
  - cbn [scanLines]. unfold tableOfBlock. cbn in Hfew.
    by rewrite (proj2 (Nat.ltb_lt (length block) 3)) by lia.
  - cbn [scanLines List.filter] in *. destruct (isTableLine line).
    + apply IH. rewrite length_app. cbn in *. lia.
    + rewrite IH by (cbn; lia). unfold tableOfBlock.
      by rewrite (proj2 (Nat.ltb_lt (length block) 3)) by lia.
Qed.

(** X2: a text with fewer than three table lines, that is, trimmed lines
    that start and end with a pipe, yields no table. *)
Theorem parseMarkdownTables_needs_three_lines (text : string) :
  (length (List.filter isTableLine (rawLinesOf text)) < 3)%nat →
  parseMarkdownTables text = [].
Proof. intros H. by apply scanLines_few_lines. Qed.

Lemma parseMarkdownTables_needs_three_lines_witness :
  parseMarkdownTables headerOnlyText = [].
Proof.
  apply (parseMarkdownTables_needs_three_lines headerOnlyText).
  vm_compute. lia.
Defined.

(** ** The week column after normalisation *)

Lemma enforceWeekOnTable_labels (weekNumber : Z) (table : PlanTable) :
  ∃ weekIndex,
    findIndex isWeekHeader (headers (enforceWeekOnTable weekNumber table))
    = Some weekIndex
    ∧ Forall (λ row, row !! weekIndex = Some (weekLabel weekNumber))
        (rows (enforceWeekOnTable weekNumber table)).
Proof.
  unfold enforceWeekOnTable.
  destruct (findIndex isWeekHeader (headers table)) as [weekIndex |] eqn:E.
  - exists weekIndex. cbn [headers rows]. split; [done |].
    apply Forall_fmap, Forall_forall. intros row _. apply assign_lookup_same.
  - exists 0%nat. cbn [headers rows]. split; [done |].
    apply Forall_fmap, Forall_forall. by intros row _.
Qed.

Lemma enforceWeekOnTable_rectangular (weekNumber : Z) (table : PlanTable) :
  rectangular table → rectangular (enforceWeekOnTable weekNumber table).
Proof.
  unfold rectangular, enforceWeekOnTable. intros H.
  destruct (findIndex isWeekHeader (headers table)) as [weekIndex |] eqn:E;
    cbn [headers rows]; apply Forall_fmap; eapply Forall_impl; try exact H;
    intros row Hrow; cbn.
  - rewrite assign_length_in_range; [done |].
    rewrite Hrow. by apply (findIndex_lt isWeekHeader).
  - by rewrite Hrow.
Qed.

(** X3: after [enforceExpectedWeek] every table has a week column, and in
    every row, also one that was too short to reach that column, the cell
    of that column is the label of the expected week. The tables keep their
    number and each keeps its number of rows. *)
Theorem enforceExpectedWeek_labels_every_row (tables : list PlanTable)
    (weekNumber : Z) :
  Forall (λ table,
            ∃ weekIndex,
              findIndex isWeekHeader (headers table) = Some weekIndex
              ∧ Forall (λ row, row !! weekIndex = Some (weekLabel weekNumber))
                  (rows table))
    (enforceExpectedWeek tables weekNumber)
  ∧ Forall2 (λ table table', length (rows table') = length (rows table))
      tables (enforceExpectedWeek tables weekNumber).
Proof.
  unfold enforceExpectedWeek. split.
  - apply Forall_fmap, Forall_forall. intros table _.
    apply enforceWeekOnTable_labels.
  - induction tables as [| t tables IH]; constructor; [| exact IH].
    unfold enforceWeekOnTable.
    destruct (findIndex isWeekHeader (headers t)); cbn [rows]; apply length_fmap.
Qed.


(** ** What the run-day enforcer leaves alone *)

Lemma clampTable_within_cap (table : PlanTable) (runDayCap : Z) (longRunDay : string) :
  Z.of_nat (length (nonRestRows table)) ≤ runDayCap →
  clampTable runDayCap longRunDay table = table.
Proof.
  intros Hcap. unfold clampTable, nonRestRows in *.
  destruct (findIndex isDayHeader (headers table)) as [dayIndex |]; [| done].
  destruct (findIndex isWorkoutHeader (headers table)) as [workoutIndex |]; [| done].
  rewrite filter_pairs_length. by rewrite (proj2 (Z.leb_le _ _)) by lia.
Qed.

Lemma clampTable_headers (table : PlanTable) (runDayCap : Z) (longRunDay : string) :
  headers (clampTable runDayCap longRunDay table) = headers table
  ∧ length (rows (clampTable runDayCap longRunDay table)) = length (rows table).
Proof.
  unfold clampTable.
  destruct (findIndex isDayHeader (headers table)) as [dayIndex |]; [| done].
  destruct (findIndex isWorkoutHeader (headers table)) as [workoutIndex |]; [| done].
  destruct (_ <=? _); [done |]. cbn [headers rows]. split; [done | apply length_imap].
Qed.

Lemma clampTable_rest_rows (table : PlanTable) (runDayCap : Z) (longRunDay : string)
    (workoutIndex i : nat) (row : list string) :
  findIndex isWorkoutHeader (headers table) = Some workoutIndex →
  rows table !! i = Some row →
  isRestLikeWorkout (cellOr "" row workoutIndex) = true →
  rows (clampTable runDayCap longRunDay table) !! i = Some row.
Proof.
  intros Hw Hrow Hrest. unfold clampTable. rewrite Hw.
  destruct (findIndex isDayHeader (headers table)) as [dayIndex |]; [| done].
  destruct (_ <=? _); [done |]. cbn [rows].
  rewrite list_lookup_imap, Hrow. cbn. by rewrite Hrest, orb_true_r.
Qed.

Lemma clampTable_rectangular (table : PlanTable) (runDayCap : Z) (longRunDay : string) :
  rectangular table → rectangular (clampTable runDayCap longRunDay table).
Proof.
  unfold rectangular. intros Hrect. unfold clampTable.
  destruct (findIndex isDayHeader (headers table)) as [dayIndex |]; [| done].
  destruct (findIndex isWorkoutHeader (headers table)) as [workoutIndex |] eqn:Hw;
    [| done].
  destruct (_ <=? _); [done |]. cbn [headers rows].
  apply Forall_lookup. intros i row' Hrow'. rewrite list_lookup_imap in Hrow'.
  destruct (rows table !! i) as [row |] eqn:Hrow; [| done].
  injection Hrow' as <-.
  pose proof (Forall_lookup_1 _ _ _ _ Hrect Hrow) as Hwidth. cbv beta in Hwidth.
  destruct (_ || _); [done |].
  rewrite demoteRow_length; [done | ..]; rewrite Hwidth.
  - by apply (findIndex_lt isWorkoutHeader).
  - intros d. apply findIndex_lt.
  - intros r. apply findIndex_lt.
Qed.

(** X4: the run-day enforcer never adds or removes a table, a column or a
    row: each table keeps its headers and its number of rows, a table whose
    rows are as wide as the headers stays so, and a row whose workout cell
    is rest-like is returned as it is, whatever the cap and the long-run
    day. *)
Theorem clampWeekToRunDayCap_keeps_shape (tables : list PlanTable) (runDayCap : Z)
    (longRunDay : string) :
  Forall2 (λ table table',
             headers table' = headers table
             ∧ length (rows table') = length (rows table)
             ∧ (rectangular table → rectangular table')
             ∧ ∀ workoutIndex i row,
                 findIndex isWorkoutHeader (headers table) = Some workoutIndex →
                 rows table !! i = Some row →
                 isRestLikeWorkout (cellOr "" row workoutIndex) = true →
                 rows table' !! i = Some row)
    tables (clampWeekToRunDayCap tables runDayCap longRunDay).
Proof.
  unfold clampWeekToRunDayCap.
  induction tables as [| table tables IH]; constructor; [| exact IH].
  destruct (clampTable_headers table runDayCap longRunDay) as [Hh Hn].
  split; [done |]. split; [done |]. split; [apply clampTable_rectangular |].
  intros workoutIndex i row. apply clampTable_rest_rows.
Qed.

(** X5: tables that plan no more active rows than the cap are returned
    unchanged. *)
Theorem clampWeekToRunDayCap_within_cap (tables : list PlanTable) (runDayCap : Z)
    (longRunDay : string) :
  Forall (λ table, Z.of_nat (length (nonRestRows table)) ≤ runDayCap) tables →
  clampWeekToRunDayCap tables runDayCap longRunDay = tables.
Proof.
  unfold clampWeekToRunDayCap. intros H.
  induction H as [| table tables Htable _ IH]; [done |].
  cbn [fmap list_fmap]. f_equal; [by apply clampTable_within_cap | exact IH].
Qed.

Lemma clampWeekToRunDayCap_within_cap_witness :
  clampWeekToRunDayCap [mergedColumnTable; paceTable] 3 "Sunday"
  = [mergedColumnTable; paceTable].
Proof.
  apply (clampWeekToRunDayCap_within_cap [mergedColumnTable; paceTable] 3 "Sunday").
  repeat constructor; vm_compute; discriminate.
Defined.


Lemma workoutColumnApart_spec (table : PlanTable) (workoutIndex : nat) :
  workoutColumnApart table = true →
  findIndex isWorkoutHeader (headers table) = Some workoutIndex →
  findIndex isDetailsHeader (headers table) ≠ Some workoutIndex
  ∧ findIndex isRationaleHeader (headers table) ≠ Some workoutIndex.
Proof.
  unfold workoutColumnApart. intros H Hw. rewrite Hw in H.
  apply andb_true_iff in H as [H1 H2].
  apply negb_true_iff, bool_decide_eq_false in H1, H2. done.
Qed.

(** With the workout column apart and a cap that is not negative, the rows
    left active are at most as many as the cap, unless the table lacks the
    day or the workout column. *)
Lemma clampTable_active_bound (table : PlanTable) (runDayCap : Z)
    (longRunDay : string) (dayIndex workoutIndex : nat) :
  workoutColumnApart table = true → 0 ≤ runDayCap →
  findIndex isDayHeader (headers table) = Some dayIndex →
  findIndex isWorkoutHeader (headers table) = Some workoutIndex →
  Z.of_nat (length (nonRestRows (clampTable runDayCap longRunDay table))) ≤ runDayCap.
Proof.
  intros Hapart Hcap Hday Hworkout.
  destruct (workoutColumnApart_spec table workoutIndex Hapart Hworkout) as [Hd Hr].
  destruct (decide (Z.of_nat (length (nonRestRows table)) ≤ runDayCap)) as [Hle | Hgt].
  - by rewrite clampTable_within_cap.
  - destruct (clampTable_enforces_cap table runDayCap longRunDay dayIndex workoutIndex
                Hday Hworkout Hd Hr) as (_ & _ & Hcount & _); [lia |].
    rewrite Hcount. lia.
Qed.

(** X6: with the workout column apart from the details and rationale
    columns and a cap that is not negative, enforcing the cap a second time
    changes nothing. *)
Theorem clampWeekToRunDayCap_idempotent (tables : list PlanTable) (runDayCap : Z)
    (longRunDay : string) :
  0 ≤ runDayCap →
  Forall (λ table, workoutColumnApart table = true) tables →
  clampWeekToRunDayCap (clampWeekToRunDayCap tables runDayCap longRunDay)
    runDayCap longRunDay
  = clampWeekToRunDayCap tables runDayCap longRunDay.
Proof.
  intros Hcap Hall. unfold clampWeekToRunDayCap.
  induction Hall as [| table tables Hapart _ IH]; [done |].
  cbn [fmap list_fmap]. f_equal; [| exact IH].
  destruct (findIndex isDayHeader (headers table)) as [dayIndex |] eqn:Hday.
  - destruct (findIndex isWorkoutHeader (headers table)) as [workoutIndex |] eqn:Hw.
    + apply clampTable_within_cap. by eapply clampTable_active_bound.
    + assert (clampTable runDayCap longRunDay table = table) as E; [| by rewrite !E].
      unfold clampTable. by rewrite Hday, Hw.
  - assert (clampTable runDayCap longRunDay table = table) as E; [| by rewrite !E].
    unfold clampTable. by rewrite Hday.
Qed.

Lemma clampWeekToRunDayCap_idempotent_witness :
  clampWeekToRunDayCap (clampWeekToRunDayCap [crowdedWeek] 4 "Sunday") 4 "Sunday"
  = clampWeekToRunDayCap [crowdedWeek] 4 "Sunday".
Proof.
  apply (clampWeekToRunDayCap_idempotent [crowdedWeek] 4 "Sunday").
  - lia.
  - repeat constructor.
Defined.

(** ** Counting run days after enforcement *)

Lemma addRunDays_size (runDays : gset string) (table : PlanTable) :
  (size (addRunDays runDays table) ≤ size runDays + length (nonRestRows table))%nat.
Proof.
  unfold addRunDays, nonRestRows.
  destruct (findIndex isDayHeader (headers table)) as [dayIndex |]; [| lia].
  destruct (findIndex isWorkoutHeader (headers table)) as [workoutIndex |]; [| lia].
  generalize (rows table). intros l. revert runDays.
  induction l as [| row l IH]; intros runDays; [cbn; lia |].
  cbn [fold_left List.filter].
  destruct (isRestLikeWorkout (cellOr "" row workoutIndex)) eqn:Hrest.
  - assert (isActiveRow workoutIndex row = false) as ->
      by (unfold isActiveRow; by rewrite Hrest).
    rewrite orb_true_r. apply IH.
  - assert (isActiveRow workoutIndex row = true) as ->
      by (unfold isActiveRow; by rewrite Hrest).
    rewrite orb_false_r. cbn [length].
    destruct (String.eqb _ ""); [specialize (IH runDays); lia |].
    etransitivity; [apply IH |].
    pose proof (size_union_alt {[Js.toLowerCase (Js.trim (cellOr "" row dayIndex))]}
                  runDays) as Hsize.
    rewrite size_singleton in Hsize.
    pose proof (subseteq_size (runDays ∖ {[Js.toLowerCase (Js.trim (cellOr "" row dayIndex))]})
                  runDays) as Hsub.
    assert (size (runDays ∖ {[Js.toLowerCase (Js.trim (cellOr "" row dayIndex))]})
            ≤ size runDays)%nat by (apply Hsub, subseteq_difference_l; done).
    lia.
Qed.

Lemma addRunDays_without_columns (runDays : gset string) (table : PlanTable) :
  findIndex isDayHeader (headers table) = None
  ∨ findIndex isWorkoutHeader (headers table) = None →
  addRunDays runDays table = runDays.
Proof.
  unfold addRunDays. intros [-> | ->]; [done |].
  by destruct (findIndex isDayHeader (headers table)).
Qed.

Lemma addRunDays_clamped_size (runDays : gset string) (table : PlanTable)
    (runDayCap : Z) (longRunDay : string) :
  workoutColumnApart table = true → 0 ≤ runDayCap →
  Z.of_nat (size (addRunDays runDays (clampTable runDayCap longRunDay table)))
  ≤ Z.of_nat (size runDays) + runDayCap.
Proof.
  intros Hapart Hcap.
  destruct (clampTable_headers table runDayCap longRunDay) as [Hh _].
  destruct (findIndex isDayHeader (headers table)) as [dayIndex |] eqn:Hday.
  - destruct (findIndex isWorkoutHeader (headers table)) as [workoutIndex |] eqn:Hw.
    + pose proof (addRunDays_size runDays (clampTable runDayCap longRunDay table)).
      pose proof (clampTable_active_bound table runDayCap longRunDay dayIndex
                    workoutIndex Hapart Hcap Hday Hw).
      lia.
    + rewrite addRunDays_without_columns; [lia |]. right. by rewrite Hh.
  - rewrite addRunDays_without_columns; [lia |]. left. by rewrite Hh.
Qed.

(** X7: with the workout column apart and a cap that is not negative, the
    run days counted in the enforced tables, which is the number the
    orchestrator compares with the cap, are at most the cap for each table:
    one table never counts more run days than the cap. *)
Theorem countPlannedRunDays_after_clamp (tables : list PlanTable) (runDayCap : Z)
    (longRunDay : string) :
  0 ≤ runDayCap →
  Forall (λ table, workoutColumnApart table = true) tables →
  Z.of_nat (countPlannedRunDays (clampWeekToRunDayCap tables runDayCap longRunDay))
  ≤ runDayCap * Z.of_nat (length tables).
Proof.
  intros Hcap Hall. unfold countPlannedRunDays, clampWeekToRunDayCap.
  assert (∀ runDays : gset string,
            Z.of_nat (size (fold_left addRunDays
                              (clampTable runDayCap longRunDay <$> tables) runDays))
            ≤ Z.of_nat (size runDays) + runDayCap * Z.of_nat (length tables)) as H.
  { induction Hall as [| table tables Hapart _ IH]; intros runDays.
    - cbn. lia.
    - cbn [fmap list_fmap fold_left length].
      etransitivity; [apply IH |].
      pose proof (addRunDays_clamped_size runDays table runDayCap longRunDay
                    Hapart Hcap).
      lia. }
  specialize (H ∅). rewrite size_empty in H. lia.
Qed.

Lemma countPlannedRunDays_after_clamp_witness :
  Z.of_nat (countPlannedRunDays (clampWeekToRunDayCap [crowdedWeek] 4 "Sunday"))
  ≤ 4 * Z.of_nat (length [crowdedWeek]).
Proof.
  apply (countPlannedRunDays_after_clamp [crowdedWeek] 4 "Sunday").
  - lia.
  - repeat constructor.
Defined.


(** ** The weeks the structured parser returns *)

Lemma trimmedOr_nonempty (d s : string) : d ≠ "" → trimmedOr d s ≠ "".
Proof. intros Hd. unfold trimmedOr. by destruct (Js.trim s). Qed.

Lemma addDayEntry_complete (byDay byDay' : gmap string StructuredPlanDay) (entry : json) :
  map_Forall completeDay byDay →
  addDayEntry byDay entry = Some byDay' →
  map_Forall completeDay byDay'.
Proof.
  intros Hinv. unfold addDayEntry.
  destruct (getProp entry "day") as [dayField |]; [| done]. cbn [mbind option_bind].
  destruct (stringOr "" dayField) as [dayText |]; [| done]. cbn [mbind option_bind].
  destruct (normalizeDayName dayText) as [name |]; [| by intros [= <-]].
  case_decide; [by intros [= <-] |].
  destruct (getProp entry "workoutType") as [f1 |]; [| done]. cbn [mbind option_bind].
  destruct (stringOr "Rest Day" f1) as [t1 |]; [| done]. cbn [mbind option_bind].
  destruct (getProp entry "details") as [f2 |]; [| done]. cbn [mbind option_bind].
  destruct (stringOr "" f2) as [t2 |]; [| done]. cbn [mbind option_bind].
  destruct (getProp entry "rationale") as [f3 |]; [| done]. cbn [mbind option_bind].
  destruct (stringOr "" f3) as [t3 |]; [| done]. cbn [mbind option_bind].
  intros [= <-]. apply map_Forall_insert_2; [| done].
  split; [done |]. cbn [workoutType details rationale].
  split; [| split]; by apply trimmedOr_nonempty.
Qed.

Lemma collectDays_complete (entries : list json) (byDay byDay' : gmap string StructuredPlanDay) :
  map_Forall completeDay byDay →
  collectDays byDay entries = Some byDay' →
  map_Forall completeDay byDay'.
Proof.
  revert byDay. induction entries as [| entry rest IH]; intros byDay Hinv.
  - by intros [= <-].
  - cbn [collectDays].
    destruct (addDayEntry byDay entry) as [byDay1 |] eqn:E; [| done].
    cbn [mbind option_bind]. apply IH. by eapply addDayEntry_complete.
Qed.

Lemma weekDays_complete (byDay : gmap string StructuredPlanDay) :
  map_Forall completeDay byDay →
  day <$> weekDays byDay = WEEKDAY_NAMES
  ∧ Forall (λ d, workoutType d ≠ "" ∧ details d ≠ "" ∧ rationale d ≠ "")
      (weekDays byDay).
Proof.
  intros Hinv.
  assert (∀ name, completeDay name (default (restDay name) (byDay !! name))) as H.
  { intros name. destruct (byDay !! name) as [d |] eqn:E; [by apply (Hinv name) |].
    by repeat split. }
  unfold weekDays, WEEKDAY_NAMES. cbn [fmap list_fmap]. split.
  - pose proof (λ name, proj1 (H name)) as Hday. by rewrite !Hday.
  - repeat (constructor; [apply (proj2 (H _)) |]). constructor.
Qed.

Lemma weekOfJson_complete (parsed : json) (expectedWeek : Z) (w : StructuredPlanWeek) :
  weekOfJson parsed expectedWeek = Some w →
  day <$> days w = WEEKDAY_NAMES
  ∧ Forall (λ d, workoutType d ≠ "" ∧ details d ≠ "" ∧ rationale d ≠ "") (days w)
  ∧ verdict w ≠ "" ∧ reasoning w ≠ "".
Proof.
  unfold weekOfJson.
  destruct (getProp parsed "days") as [[[| | | | entries |] |] |]; try done.
  cbn [mbind option_bind].
  destruct (collectDays ∅ entries) as [byDay |] eqn:E; [| done].
  cbn [mbind option_bind].
  destruct (getProp parsed "week") as [weekField |]; [| done]. cbn [mbind option_bind].
  destruct (getProp parsed "verdict") as [f1 |]; [| done]. cbn [mbind option_bind].
  destruct (stringOr "Maintenance" f1) as [t1 |]; [| done]. cbn [mbind option_bind].
  destruct (getProp parsed "reasoning") as [f2 |]; [| done]. cbn [mbind option_bind].
  destruct (stringOr "Balanced load and recovery." f2) as [t2 |]; [| done].
  cbn [mbind option_bind]. intros [= <-]. cbn [days verdict reasoning].
  destruct (weekDays_complete byDay) as [Hnames Hfields].
  { eapply collectDays_complete; [| exact E]. apply map_Forall_empty. }
  split; [done |]. split; [done |]. split; by apply trimmedOr_nonempty.
Qed.

Lemma parseWeekJsonFromText_complete (JSON_parse : string → option json)
    (text : string) (expectedWeek : Z) (w : StructuredPlanWeek) :
  parseWeekJsonFromText JSON_parse text expectedWeek = Some w →
  day <$> days w = WEEKDAY_NAMES
  ∧ Forall (λ d, workoutType d ≠ "" ∧ details d ≠ "" ∧ rationale d ≠ "") (days w)
  ∧ verdict w ≠ "" ∧ reasoning w ≠ "".
Proof.
  unfold parseWeekJsonFromText.
  destruct (jsonCandidate text) as [candidate |]; [| done]. cbn [mbind option_bind].
  destruct (JSON_parse candidate) as [parsed |]; [| done]. cbn [mbind option_bind].
  apply weekOfJson_complete.
Qed.

(** X8: whenever [parseWeekJsonFromText] returns a week, whatever the types
    of the fields in the text, the week has the seven days Monday to
    Sunday in this order, and no workout type, details, rationale, verdict
    or reasoning in it is empty. *)
Theorem parseWeekJsonFromText_complete_week (JSON_parse : string → option json)
    (text : string) (expectedWeek : Z) (w : StructuredPlanWeek) :
  parseWeekJsonFromText JSON_parse text expectedWeek = Some w →
  day <$> days w = WEEKDAY_NAMES
  ∧ Forall (λ d, workoutType d ≠ "" ∧ details d ≠ "" ∧ rationale d ≠ "") (days w)
  ∧ verdict w ≠ "" ∧ reasoning w ≠ "".
Proof. apply parseWeekJsonFromText_complete. Qed.

Lemma parseWeekJsonFromText_complete_week_witness :
  let w := default (mkWeek 0 "" "" [])
             (parseWeekJsonFromText shuffledParse shuffledText 9) in
  day <$> days w = WEEKDAY_NAMES
  ∧ Forall (λ d, workoutType d ≠ "" ∧ details d ≠ "" ∧ rationale d ≠ "") (days w)
  ∧ verdict w ≠ "" ∧ reasoning w ≠ "".
Proof.
  intros w.
  apply (parseWeekJsonFromText_complete_week shuffledParse shuffledText 9 w).
  vm_compute. reflexivity.
Defined.

(** ** A structured week under the run-day cap *)

Lemma demoteRow_other_cell (workoutIndex : nat) (detailsIndex rationaleIndex : option nat)
    (runDayCap : Z) (row : list string) (j : nat) :
  workoutIndex ≠ j → detailsIndex ≠ Some j → rationaleIndex ≠ Some j →
  cellOr "" (demoteRow workoutIndex detailsIndex rationaleIndex runDayCap row) j
  = cellOr "" row j.
Proof.
  intros Hw Hd Hr. unfold demoteRow.
  destruct rationaleIndex as [r |]; [rewrite assign_lookup_other by congruence |];
    (destruct detailsIndex as [d |]; [rewrite assign_lookup_other by congruence |]);
    by rewrite assign_lookup_other.
Qed.

(** The enforcer writes the workout, details and rationale columns only. *)
Lemma clampTable_other_column (table : PlanTable) (runDayCap : Z) (longRunDay : string)
    (j : nat) :
  findIndex isWorkoutHeader (headers table) ≠ Some j →
  findIndex isDetailsHeader (headers table) ≠ Some j →
  findIndex isRationaleHeader (headers table) ≠ Some j →
  (λ row, cellOr "" row j) <$> rows (clampTable runDayCap longRunDay table)
  = (λ row, cellOr "" row j) <$> rows table.
Proof.
  intros Hw Hd Hr. unfold clampTable.
  destruct (findIndex isDayHeader (headers table)) as [dayIndex |]; [| done].
  destruct (findIndex isWorkoutHeader (headers table)) as [workoutIndex |]; [| done].
  destruct (_ <=? _); [done |]. cbn [rows].
  apply list_eq. intros i. rewrite !list_lookup_fmap, list_lookup_imap.
  destruct (rows table !! i) as [row |]; [| done]. cbn. f_equal.
  destruct (_ || _); [done |]. apply demoteRow_other_cell; congruence.
Qed.

(** X9: when the answer of the model parses as a structured week and the
    cap is not negative, what the orchestrator stores for the week is one
    table of five columns and seven rows, one row per weekday from Monday
    to Sunday, in which at most as many rows as the cap are not rest-like,
    and which counts at most as many run days as the cap. *)
Theorem structured_week_respects_cap (JSON_parse : string → option json)
    (text : string) (expectedWeek : Z) (w : StructuredPlanWeek)
    (runDayCap : Z) (longRunDay : string) :
  parseWeekJsonFromText JSON_parse text expectedWeek = Some w →
  0 ≤ runDayCap →
  ∃ table,
    clampWeekToRunDayCap (normalizeResponse JSON_parse text expectedWeek)
      runDayCap longRunDay = [table]
    ∧ headers table
      = ["Week"; "Day"; "Workout Type"; "Details (Distance/Pace/Zone)"; "Rationale"]
    ∧ (λ row, cellOr "" row 1) <$> rows table = WEEKDAY_NAMES
    ∧ rectangular table
    ∧ Z.of_nat (length (nonRestRows table)) ≤ runDayCap
    ∧ Z.of_nat (countPlannedRunDays [table]) ≤ runDayCap.
Proof.
  intros Hparse Hcap.
  destruct (parseWeekJsonFromText_complete JSON_parse text expectedWeek w Hparse)
    as (Hnames & _).
  unfold normalizeResponse. rewrite Hparse. cbn [clampWeekToRunDayCap fmap list_fmap].
  set (t := structuredWeekToTable w).
  exists (clampTable runDayCap longRunDay t).
  destruct (clampTable_headers t runDayCap longRunDay) as [Hh Hn].
  split; [done |]. split; [by rewrite Hh |]. split; [| split; [| split]].
  - rewrite clampTable_other_column by done.
    unfold t, structuredWeekToTable. cbn [rows].
    rewrite <- list_fmap_compose. by rewrite <- Hnames.
  - apply clampTable_rectangular. unfold rectangular, t, structuredWeekToTable.
    cbn [headers rows]. apply Forall_fmap, Forall_forall. by intros d _.
  - by apply (clampTable_active_bound t runDayCap longRunDay 1%nat 2%nat).
  - unfold countPlannedRunDays. cbn [fold_left].
    pose proof (addRunDays_clamped_size ∅ t runDayCap longRunDay eq_refl Hcap) as H.
    by rewrite size_empty in H.
Qed.

Lemma structured_week_respects_cap_witness :
  ∃ table,
    clampWeekToRunDayCap (normalizeResponse shuffledParse shuffledText 9) 1 "Sunday"
    = [table]
    ∧ headers table
      = ["Week"; "Day"; "Workout Type"; "Details (Distance/Pace/Zone)"; "Rationale"]
    ∧ (λ row, cellOr "" row 1) <$> rows table = WEEKDAY_NAMES
    ∧ rectangular table
    ∧ Z.of_nat (length (nonRestRows table)) ≤ 1
    ∧ Z.of_nat (countPlannedRunDays [table]) ≤ 1.
Proof.
  apply (structured_week_respects_cap shuffledParse shuffledText 9
           (default (mkWeek 0 "" "" [])
              (parseWeekJsonFromText shuffledParse shuffledText 9))
           1 "Sunday").
  - vm_compute. reflexivity.
  - lia.
Defined.

(** ** From a structured week to a table and back *)

(** X10: the table of a structured week that has the seven weekdays in
    order, as every parsed week has, and whose week number is an integer
    from 0 to [Number.MAX_SAFE_INTEGER], is read back by
    [tableToStructuredWeek] as the same week number and the same seven
    days, whatever the fallback week; the verdict and the reasoning are not
    in the table and come back as the fixed texts. *)
Theorem tableToStructuredWeek_of_structured_week (w : StructuredPlanWeek)
    (fallbackWeek : Z) :
  day <$> days w = WEEKDAY_NAMES →
  0 ≤ week w ≤ Js.MAX_SAFE_INTEGER →
  tableToStructuredWeek (structuredWeekToTable w) fallbackWeek
  = mkWeek (week w) "Maintenance" "Generated via fallback parsing." (days w).
Proof.
  intros Hnames Hweek. destruct w as [n v r ds]. cbn [days week] in *.
  unfold WEEKDAY_NAMES in Hnames.
  destruct ds as [| [n1 t1 e1 r1] ds]; [discriminate Hnames |].
  destruct ds as [| [n2 t2 e2 r2] ds]; [discriminate Hnames |].
  destruct ds as [| [n3 t3 e3 r3] ds]; [discriminate Hnames |].
  destruct ds as [| [n4 t4 e4 r4] ds]; [discriminate Hnames |].
  destruct ds as [| [n5 t5 e5 r5] ds]; [discriminate Hnames |].
  destruct ds as [| [n6 t6 e6 r6] ds]; [discriminate Hnames |].
  destruct ds as [| [n7 t7 e7 r7] ds]; [discriminate Hnames |].
  destruct ds; [| discriminate Hnames].
  cbn [fmap list_fmap day] in Hnames.
  injection Hnames as -> -> -> -> -> -> ->.
  unfold tableToStructuredWeek, structuredWeekToTable.
  cbn [headers rows days week]. cbn [fmap list_fmap day workoutType details rationale].
  f_equal.
  change (findIndex isWeekHeader _) with (Some 0%nat).
  change ("Week " +:+ Js.showInt n) with (weekLabel n).
  cbn [List.find].
  change (hasCell 0 (weekLabel n :: ?l)) with true. cbv iota.
  change (cellOr (weekLabel fallbackWeek) (weekLabel n :: ?l) 0) with (weekLabel n).
  by apply extractWeekNumber_weekLabel.
Qed.

Lemma tableToStructuredWeek_of_structured_week_witness :
  let w := default (mkWeek 0 "" "" [])
             (parseWeekJsonFromText shuffledParse shuffledText 9) in
  tableToStructuredWeek (structuredWeekToTable w) 5
  = mkWeek (week w) "Maintenance" "Generated via fallback parsing." (days w).
Proof.
  intros w. apply (tableToStructuredWeek_of_structured_week w 5).
  - vm_compute. reflexivity.
  - vm_compute. split; discriminate.
Defined.


(** ** Calendar days *)

(** The civil date of a day number is the date of that day number. *)
Lemma daysFromCivil_civilFromDays (z : Z) :
  let '(y, m, d) := civilFromDays z in daysFromCivil y m d = z.
Proof.
  unfold civilFromDays, daysFromCivil.
  set (z' := z + 719468).
  set (era := z' / 146097).
  set (doe := z' - era * 146097).
  set (yoe := (doe - doe / 1460 + doe / 36524 - doe / 146096) / 365).
  set (doy := doe - (365 * yoe + yoe / 4 - yoe / 100)).
  set (mp := (5 * doy + 2) / 153).
  assert (0 ≤ doe < 146097) by (unfold doe, era; Z.to_euclidean_division_equations; lia).
  assert (0 ≤ yoe ≤ 399) by (unfold yoe; Z.to_euclidean_division_equations; lia).
  assert (0 ≤ doy ≤ 365) by (unfold doy, yoe; Z.to_euclidean_division_equations; lia).
  assert (0 ≤ mp ≤ 11) by (unfold mp; Z.to_euclidean_division_equations; lia).
  destruct (mp <? 10) eqn:E1.
  - apply Z.ltb_lt in E1.
    destruct (mp + 3 <=? 2) eqn:E2; [apply Z.leb_le in E2; lia |].
    destruct (2 <? mp + 3) eqn:E3; [| apply Z.ltb_ge in E3; lia].
    unfold mp, doy, yoe, doe, era in *. Z.to_euclidean_division_equations. lia.
  - apply Z.ltb_ge in E1.
    destruct (mp - 9 <=? 2) eqn:E2; [| apply Z.leb_gt in E2; lia].
    destruct (2 <? mp - 9) eqn:E3; [apply Z.ltb_lt in E3; lia |].
    unfold mp, doy, yoe, doe, era in *. Z.to_euclidean_division_equations. lia.
Qed.

Lemma daysFromCivil_day (y m d : Z) :
  daysFromCivil y m 1 + d - 1 = daysFromCivil y m d.
Proof. unfold daysFromCivil. lia. Qed.

Section CalendarDays.

Variable tzOffsetMinutes now : Z.
Variable Date_parse : string → option Z.

Local Abbreviation local := (localTime tzOffsetMinutes).
Local Abbreviation utc := (utcOfLocal tzOffsetMinutes).

(** [setDate] with a day of the month that is [k] days from the current
    one moves the date by [k] days, across the ends of months and years. *)
Lemma setDate_getDate_add (t k : Z) :
  setDate tzOffsetMinutes t (getDate tzOffsetMinutes t + k) = t + k * msPerDay.
Proof.
  unfold setDate, getDate.
  pose proof (daysFromCivil_civilFromDays (local t / msPerDay)) as Hciv.
  destruct (civilFromDays (local t / msPerDay)) as [[y m] d]. cbn [snd].
  replace (daysFromCivil y m 1 + (d + k) - 1) with (daysFromCivil y m d + k)
    by (rewrite <- (daysFromCivil_day y m d); lia).
  rewrite Hciv. unfold utcOfLocal, localTime, msPerDay in *.
  Z.to_euclidean_division_equations. lia.
Qed.

Lemma setHours_seven (t : Z) :
  setHours tzOffsetMinutes t 7 = utc (local t / msPerDay * msPerDay + 7 * msPerHour).
Proof. done. Qed.

Lemma local_day_add (t k : Z) :
  local (t + k * msPerDay) / msPerDay = local t / msPerDay + k.
Proof.
  unfold localTime, msPerDay. Z.to_euclidean_division_equations. lia.
Qed.

Lemma estimatedDurationMinutes_range (workoutType : string) :
  45 ≤ estimatedDurationMinutes workoutType ≤ 90.
Proof.
  unfold estimatedDurationMinutes.
  repeat match goal with |- context [if ?b then _ else _] => destruct b end; lia.
Qed.

(** The event of a row whose day label is the weekday number [n]. *)
Lemma rowEvent_scheduled (anchor weekNumber : Z) (dayIndex workoutTypeIndex : nat)
    (detailsIndex rationaleIndex : option nat) (row : list string) (n : nat) :
  DAY_INDEX (Js.toLowerCase (Js.trim (cellOr "" row dayIndex))) = Some (DayNumber n) →
  isRestLikeWorkout (cellOr "Run" row workoutTypeIndex) = false →
  let workoutType := cellOr "Run" row workoutTypeIndex in
  let start :=
    utc ((local anchor / msPerDay + (weekNumber - 1) * 7 + Z.of_nat n) * msPerDay
         + 7 * msPerHour) in
  ∃ notes,
    rowEvent tzOffsetMinutes (Some anchor) weekNumber dayIndex workoutTypeIndex
      detailsIndex rationaleIndex row
    = Some [ mkEvent ("Frunna W" +:+ Js.showInt weekNumber +:+ ": " +:+ workoutType)
               (toISOString start)
               (toISOString (start + estimatedDurationMinutes workoutType * msPerMinute))
               notes ].
Proof.
  intros Hday Hrest workoutType start. unfold rowEvent. rewrite Hday, Hrest.
  fold workoutType.
  replace (getDate tzOffsetMinutes anchor + (weekNumber - 1) * 7 + Z.of_nat n)
    with (getDate tzOffsetMinutes anchor + ((weekNumber - 1) * 7 + Z.of_nat n)) by lia.
  rewrite setDate_getDate_add, setHours_seven, local_day_add.
  replace (local anchor / msPerDay + ((weekNumber - 1) * 7 + Z.of_nat n))
    with (local anchor / msPerDay + (weekNumber - 1) * 7 + Z.of_nat n) by lia.
  fold start. unfold start at 2 3. rewrite end_after_minutes. fold start.
  eexists. reflexivity.
Qed.

End CalendarDays.

(** In a week that lies within the range of [Date], the week number is a
    safe integer and the start and the end of each event of the week are
    time values of a [Date]. *)
Lemma week_within_range (tzOffsetMinutes anchor weekNumber minutes : Z) (n : nat) :
  validTime anchor = true →
  (let firstDay :=
     localTime tzOffsetMinutes anchor / msPerDay + (weekNumber - 1) * 7 in
   validTime (utcOfLocal tzOffsetMinutes (firstDay * msPerDay))
   && validTime (utcOfLocal tzOffsetMinutes ((firstDay + 7) * msPerDay))) = true →
  (n < 7)%nat → 45 ≤ minutes ≤ 90 →
  let start :=
    utcOfLocal tzOffsetMinutes
      ((localTime tzOffsetMinutes anchor / msPerDay + (weekNumber - 1) * 7
        + Z.of_nat n) * msPerDay + 7 * msPerHour) in
  (- Js.MAX_SAFE_INTEGER ≤ weekNumber ≤ Js.MAX_SAFE_INTEGER)
  ∧ validTime start = true
  ∧ validTime (start + minutes * msPerMinute) = true.
Proof.
  intros Hanchor Hweek Hn Hminutes start. unfold start. cbv zeta in Hweek.
  unfold validTime in *.
  apply andb_true_iff in Hweek as [H1 H2].
  apply andb_true_iff in Hanchor as [Ha1 Ha2], H1 as [H1 H1'], H2 as [H2 H2'].
  rewrite !andb_true_iff, !Z.leb_le in *.
  change Js.MAX_SAFE_INTEGER with 9007199254740991.
  unfold utcOfLocal, localTime, maxTime, msPerDay, msPerHour, msPerMinute in *.
  Z.to_euclidean_division_equations. lia.
Qed.

(** X11: on a host whose local time is UTC plus a fixed offset, with a
    plan start that parses to the instant [anchor], and with tables whose
    weeks, counted from the local day of the anchor, all lie within the
    range of [Date], a row that names the weekday number [n] (Monday is 0)
    and is not rest-like, in the table at position [k], gets an event on
    the day that lies [(week - 1) * 7 + n] days after the local date of the
    anchor, across the ends of months and years alike, from 07:00 local
    time on that day until the estimated duration later, which is between
    45 and 90 minutes. The week is the one read off the title of the table,
    or [k + 1]; it is a safe integer, and the start and the end are time
    values of a [Date]. No day label of the tables may be a name that the
    weekday table inherits. *)
Theorem calendar_event_of_row (tzOffsetMinutes now : Z)
    (Date_parse : string → option Z) (iso : string) (anchor : Z)
    (tables : list DisplayPlanTable) (k : nat) (table : DisplayPlanTable)
    (dayIndex workoutIndex : nat) (row : list string) (n : nat) :
  iso ≠ EmptyString →
  Date_parse iso = Some anchor →
  validTime anchor = true →
  forallb (λ p, weekWithinDateRange tzOffsetMinutes anchor p.1 p.2) (imap pair tables)
  = true →
  forallb tableDaysResolve tables = true →
  tables !! k = Some table →
  findIndex isDayHeader (dheaders table) = Some dayIndex →
  findIndex isWorkoutHeader (dheaders table) = Some workoutIndex →
  row ∈ drows table →
  DAY_INDEX (Js.toLowerCase (Js.trim (cellOr "" row dayIndex))) = Some (DayNumber n) →
  isRestLikeWorkout (cellOr "Run" row workoutIndex) = false →
  let workoutType := cellOr "Run" row workoutIndex in
  let weekNumber := extractWeekNumber (title table) (Z.of_nat k + 1) in
  let startDay :=
    localTime tzOffsetMinutes anchor / msPerDay + (weekNumber - 1) * 7 + Z.of_nat n in
  let start := utcOfLocal tzOffsetMinutes (startDay * msPerDay + 7 * msPerHour) in
  let minutes := estimatedDurationMinutes workoutType in
  45 ≤ minutes ≤ 90
  ∧ (- Js.MAX_SAFE_INTEGER ≤ weekNumber ≤ Js.MAX_SAFE_INTEGER)
  ∧ validTime start = true
  ∧ validTime (start + minutes * msPerMinute) = true
  ∧ ∃ events ev,
      toCalendarEvents tzOffsetMinutes now Date_parse tables (Some iso) = Some events
      ∧ ev ∈ events
      ∧ ev_title ev = "Frunna W" +:+ Js.showInt weekNumber +:+ ": " +:+ workoutType
      ∧ ev_startDate ev = toISOString start
      ∧ ev_endDate ev = toISOString (start + minutes * msPerMinute).
Proof.
  intros Hiso Hparse Hanchor Hweeks Hresolve Hk Hday Hworkout Hrow Hlabel Hrest
    workoutType weekNumber startDay start minutes.
  split; [apply estimatedDurationMinutes_range |].
  assert (weekWithinDateRange tzOffsetMinutes anchor k table = true) as Hweek.
  { rewrite forallb_forall in Hweeks.
    apply (Hweeks (k, table)), list_elem_of_In. by apply elem_of_indexed. }
  destruct (week_within_range tzOffsetMinutes anchor weekNumber minutes n Hanchor Hweek)
    as (Hsafe & Hstart & Hend).
  { by apply DAY_INDEX_number_bound in Hlabel. }
  { apply estimatedDurationMinutes_range. }
  split; [done |]. split; [done |]. split; [done |].
  destruct (tablesEvents_contains tzOffsetMinutes anchor tables 0 Hresolve)
    as (events & Hevents & Hin).
  assert (tableDaysResolve table = true) as Htable.
  { rewrite forallb_forall in Hresolve. apply Hresolve, list_elem_of_In.
    by eapply list_elem_of_lookup_2. }
  unfold tableDaysResolve in Htable. rewrite Hday in Htable.
  destruct (rowsEvents_contains tzOffsetMinutes anchor weekNumber dayIndex workoutIndex
              (findIndex isDetailsHeader (dheaders table))
              (findIndex isRationaleHeader (dheaders table)) (drows table) Htable)
    as (evs & Hevs & Hinrow).
  destruct (rowEvent_scheduled tzOffsetMinutes anchor weekNumber dayIndex workoutIndex
              (findIndex isDetailsHeader (dheaders table))
              (findIndex isRationaleHeader (dheaders table)) row n Hlabel Hrest)
    as (notes & Hev).
  eexists events, _. split; [| split; [| split; [| split]]].
  - unfold toCalendarEvents. destruct iso; [done |]. by rewrite Hparse.
  - apply (Hin k table evs _ Hk).
    + unfold tableEvents. rewrite Hday, Hworkout. exact Hevs.
    + apply (Hinrow row _ Hrow). exact Hev.
  - done.
  - done.
  - done.
Qed.

Lemma calendar_event_of_row_witness :
  45 ≤ estimatedDurationMinutes "Intervals" ≤ 90
  ∧ (- Js.MAX_SAFE_INTEGER ≤ 2 ≤ Js.MAX_SAFE_INTEGER)
  ∧ validTime (june3 + 9 * msPerDay + 5 * msPerHour) = true
  ∧ validTime (june3 + 9 * msPerDay + 5 * msPerHour + 70 * msPerMinute) = true
  ∧ ∃ events ev,
      toCalendarEvents 120 0 (λ _, Some (june3 - 120 * msPerMinute)) [week2Intervals]
        (Some "2024-06-02T22:00:00.000Z") = Some events
      ∧ ev ∈ events
      ∧ ev_title ev = "Frunna W2: Intervals"
      ∧ ev_startDate ev = "2024-06-12T05:00:00.000Z"
      ∧ ev_endDate ev = "2024-06-12T06:10:00.000Z".
Proof.
  destruct (calendar_event_of_row 120 0 (λ _, Some (june3 - 120 * msPerMinute))
              "2024-06-02T22:00:00.000Z" (june3 - 120 * msPerMinute)
              [week2Intervals] 0 week2Intervals 0 1
              ["Wednesday"; "Intervals"; "6 x 400 m"] 2)
    as (Hrange & Hsafe & Hstart & Hend & events & ev & Hrun & Hin & Htitle & Hs & He).
  - discriminate.
  - reflexivity.
  - reflexivity.
  - reflexivity.
  - reflexivity.
  - reflexivity.
  - reflexivity.
  - reflexivity.
  - do 2 constructor.
  - reflexivity.
  - reflexivity.
  - split; [exact Hrange |]. split; [exact Hsafe |].
    split; [exact Hstart |]. split; [exact Hend |]. exists events, ev.
    split; [exact Hrun |]. split; [exact Hin |].
    split; [exact Htitle |]. split; [exact Hs | exact He].
Defined.

(** X12: [nextMonday] is a Monday at local midnight, at least one and at
    most seven days after the local midnight that begins today: on a Monday
    it is the Monday of the week after. *)
Theorem nextMonday_is_a_coming_monday (tzOffsetMinutes now : Z) :
  let monday := nextMonday tzOffsetMinutes now in
  getDay tzOffsetMinutes monday = 1
  ∧ localTime tzOffsetMinutes monday mod msPerDay = 0
  ∧ ∃ k, 1 ≤ k ≤ 7
      ∧ monday = localMidnight tzOffsetMinutes now + k * msPerDay
      ∧ (getDay tzOffsetMinutes now = 1 → k = 7).
Proof.
  intros monday. unfold monday, nextMonday.
  set (start := localMidnight tzOffsetMinutes now).
  set (k := if (8 - getDay tzOffsetMinutes start) mod 7 =? 0 then 7
            else (8 - getDay tzOffsetMinutes start) mod 7).
  rewrite setDate_getDate_add.
  assert (localTime tzOffsetMinutes start
          = localTime tzOffsetMinutes now / msPerDay * msPerDay) as Hstart.
  { unfold start, localMidnight. apply localTime_utcOfLocal. }
  assert (getDay tzOffsetMinutes start = getDay tzOffsetMinutes now) as Hday.
  { unfold getDay. rewrite Hstart. f_equal. f_equal.
    unfold msPerDay. Z.to_euclidean_division_equations. lia. }
  assert (0 ≤ getDay tzOffsetMinutes start < 7) as Hrange
    by (unfold getDay; apply Z.mod_pos_bound; lia).
  assert (1 ≤ k ≤ 7 ∧ (getDay tzOffsetMinutes start + k) mod 7 = 1) as [Hk Hmod].
  { unfold k. destruct (_ =? 0) eqn:E.
    - apply Z.eqb_eq in E. split; [lia |].
      revert E. Z.to_euclidean_division_equations. lia.
    - apply Z.eqb_neq in E. revert E. Z.to_euclidean_division_equations. lia. }
  split; [| split].
  - unfold getDay in *. rewrite local_day_add.
    revert Hmod. Z.to_euclidean_division_equations. lia.
  - unfold localTime in *. unfold msPerDay in *.
    revert Hstart. Z.to_euclidean_division_equations. lia.
  - exists k. split; [done |]. split; [done |].
    intros Hmonday. rewrite <- Hday in Hmonday. unfold k. rewrite Hmonday. done.
Qed.

(** ** Which rows get an event *)

Lemma rowEvent_count (planStartMonday : option Z) (tzOffsetMinutes weekNumber : Z)
    (dayIndex workoutTypeIndex : nat) (detailsIndex rationaleIndex : option nat)
    (row : list string) (evs : list CalendarWorkoutEvent) :
  rowEvent tzOffsetMinutes planStartMonday weekNumber dayIndex workoutTypeIndex
    detailsIndex rationaleIndex row = Some evs →
  length evs = if isScheduledRow dayIndex workoutTypeIndex row then 1%nat else 0%nat.
Proof.
  unfold rowEvent, isScheduledRow.
  destruct (DAY_INDEX _) as [e |]; [| by intros [= <-]].
  destruct (isRestLikeWorkout _); [by intros [= <-] |]. cbn [negb].
  destruct planStartMonday as [anchor |]; [| done].
  destruct e as [n | name]; [| done]. by intros [= <-].
Qed.

Lemma rowsEvents_count (planStartMonday : option Z) (tzOffsetMinutes weekNumber : Z)
    (dayIndex workoutTypeIndex : nat) (detailsIndex rationaleIndex : option nat)
    (rows : list (list string)) (evs : list CalendarWorkoutEvent) :
  rowsEvents tzOffsetMinutes planStartMonday weekNumber dayIndex workoutTypeIndex
    detailsIndex rationaleIndex rows = Some evs →
  length evs = length (List.filter (isScheduledRow dayIndex workoutTypeIndex) rows).
Proof.
  revert evs. induction rows as [| row rows IH]; intros evs; [by intros [= <-] |].
  cbn [rowsEvents List.filter].
  destruct (rowEvent _ _ _ _ _ _ _ row) as [first |] eqn:E; [| done].
  cbn [mbind option_bind].
  destruct (rowsEvents _ _ _ _ _ _ _ rows) as [more |]; [| done].
  cbn [mbind option_bind]. intros [= <-].
  apply rowEvent_count in E. rewrite length_app, E, (IH more eq_refl).
  by destruct (isScheduledRow dayIndex workoutTypeIndex row).
Qed.

Lemma tablesEvents_count (planStartMonday : option Z) (tzOffsetMinutes : Z)
    (tableIndex : nat) (tables : list DisplayPlanTable)
    (events : list CalendarWorkoutEvent) :
  tablesEvents tzOffsetMinutes planStartMonday tableIndex tables = Some events →
  length events = length (tables ≫= scheduledRows).
Proof.
  revert tableIndex events.
  induction tables as [| table tables IH]; intros tableIndex events;
    [by intros [= <-] |].
  cbn [tablesEvents].
  destruct (tableEvents _ _ tableIndex table) as [first |] eqn:E; [| done].
  cbn [mbind option_bind].
  destruct (tablesEvents _ _ (S tableIndex) tables) as [more |] eqn:E'; [| done].
  cbn [mbind option_bind]. intros [= <-].
  rewrite bind_cons, !length_app, (IH _ _ E'). f_equal.
  unfold tableEvents, scheduledRows in *.
  destruct (findIndex isDayHeader (dheaders table)) as [dayIndex |];
    [| by injection E as <-].
  destruct (findIndex isWorkoutHeader (dheaders table)) as [workoutIndex |];
    [| by injection E as <-].
  by apply rowsEvents_count in E.
Qed.

Lemma rowsEvents_without_start (tzOffsetMinutes weekNumber : Z)
    (dayIndex workoutTypeIndex : nat) (detailsIndex rationaleIndex : option nat)
    (rows : list (list string)) :
  rowsEvents tzOffsetMinutes None weekNumber dayIndex workoutTypeIndex
    detailsIndex rationaleIndex rows
  = if existsb (isScheduledRow dayIndex workoutTypeIndex) rows then None else Some [].
Proof.
  induction rows as [| row rows IH]; [done |].
  cbn [rowsEvents existsb]. rewrite IH. unfold rowEvent, isScheduledRow.
  destruct (DAY_INDEX _) as [e |]; cbn [mbind option_bind orb].
  - destruct (isRestLikeWorkout _); cbn [negb mbind option_bind orb]; [| done].
    by destruct (existsb _ rows).
  - by destruct (existsb _ rows).
Qed.

Lemma tablesEvents_without_start (tzOffsetMinutes : Z) (tableIndex : nat)
    (tables : list DisplayPlanTable) :
  tablesEvents tzOffsetMinutes None tableIndex tables
  = if forallb (λ table, bool_decide (scheduledRows table = [])) tables
    then Some [] else None.
Proof.
  revert tableIndex. induction tables as [| table tables IH]; intros tableIndex;
    [done |].
  cbn [tablesEvents forallb]. rewrite IH. unfold tableEvents, scheduledRows.
  destruct (findIndex isDayHeader (dheaders table)) as [dayIndex |];
    [| by destruct (forallb _ tables)].
  destruct (findIndex isWorkoutHeader (dheaders table)) as [workoutIndex |];
    [| by destruct (forallb _ tables)].
  rewrite rowsEvents_without_start.
  destruct (existsb _ (drows table)) eqn:E.
  - rewrite bool_decide_eq_false_2; [done |].
    apply existsb_exists in E as (row & Hin & Hrow). intros Hnil.
    assert (row ∈ List.filter (isScheduledRow dayIndex workoutIndex) (drows table)) as H.
    { apply elem_of_bool_filter. split; [by apply list_elem_of_In | done]. }
    rewrite Hnil in H. by apply elem_of_nil in H.
  - rewrite bool_decide_eq_true_2; [by destruct (forallb _ tables) |].
    induction (drows table) as [| row rows IHrows]; [done |].
    cbn [existsb List.filter] in *. apply orb_false_iff in E as [-> E]. by apply IHrows.
Qed.

Lemma rowEvent_exact (tzOffsetMinutes anchor weekNumber : Z)
    (dayIndex workoutTypeIndex : nat) (detailsIndex rationaleIndex : option nat)
    (row : list string) (evs : list CalendarWorkoutEvent) :
  rowEvent tzOffsetMinutes (Some anchor) weekNumber dayIndex workoutTypeIndex
    detailsIndex rationaleIndex row = Some evs →
  evs = if isScheduledRow dayIndex workoutTypeIndex row
        then [scheduledEvent tzOffsetMinutes anchor weekNumber dayIndex
                workoutTypeIndex detailsIndex rationaleIndex row]
        else [].
Proof.
  unfold rowEvent, isScheduledRow, scheduledEvent.
  destruct (DAY_INDEX _) as [e |]; [| by intros [= <-]].
  destruct (isRestLikeWorkout _); [by intros [= <-] |]. cbn [negb].
  destruct e as [n | name]; [| done]. intros [= <-]. f_equal.
  replace (getDate tzOffsetMinutes anchor + (weekNumber - 1) * 7 + Z.of_nat n)
    with (getDate tzOffsetMinutes anchor + ((weekNumber - 1) * 7 + Z.of_nat n)) by lia.
  rewrite setDate_getDate_add, setHours_seven, local_day_add.
  replace (localTime tzOffsetMinutes anchor / msPerDay
           + ((weekNumber - 1) * 7 + Z.of_nat n))
    with (localTime tzOffsetMinutes anchor / msPerDay + (weekNumber - 1) * 7
          + Z.of_nat n) by lia.
  by rewrite end_after_minutes.
Qed.

Lemma rowsEvents_exact (tzOffsetMinutes anchor weekNumber : Z)
    (dayIndex workoutTypeIndex : nat) (detailsIndex rationaleIndex : option nat)
    (rows : list (list string)) (evs : list CalendarWorkoutEvent) :
  rowsEvents tzOffsetMinutes (Some anchor) weekNumber dayIndex workoutTypeIndex
    detailsIndex rationaleIndex rows = Some evs →
  evs = scheduledEvent tzOffsetMinutes anchor weekNumber dayIndex workoutTypeIndex
          detailsIndex rationaleIndex
        <$> List.filter (isScheduledRow dayIndex workoutTypeIndex) rows.
Proof.
  revert evs. induction rows as [| row rows IH]; intros evs; [by intros [= <-] |].
  cbn [rowsEvents List.filter].
  destruct (rowEvent _ _ _ _ _ _ _ row) as [first |] eqn:E; [| done].
  cbn [mbind option_bind].
  destruct (rowsEvents _ _ _ _ _ _ _ rows) as [more |]; [| done].
  cbn [mbind option_bind]. intros [= <-].
  apply rowEvent_exact in E. rewrite E, (IH more eq_refl).
  by destruct (isScheduledRow dayIndex workoutTypeIndex row).
Qed.

Lemma tablesEvents_exact (tzOffsetMinutes anchor : Z) (tableIndex : nat)
    (tables : list DisplayPlanTable) (events : list CalendarWorkoutEvent) :
  tablesEvents tzOffsetMinutes (Some anchor) tableIndex tables = Some events →
  events
  = mjoin (imap (λ i, scheduledEventsOf tzOffsetMinutes anchor (tableIndex + i)) tables).
Proof.
  revert tableIndex events.
  induction tables as [| table tables IH]; intros tableIndex events;
    [by intros [= <-] |].
  cbn [tablesEvents].
  destruct (tableEvents _ _ tableIndex table) as [first |] eqn:E; [| done].
  cbn [mbind option_bind].
  destruct (tablesEvents _ _ (S tableIndex) tables) as [more |] eqn:E'; [| done].
  cbn [mbind option_bind]. intros [= <-].
  rewrite imap_cons. cbn [mjoin list_join]. rewrite Nat.add_0_r. f_equal.
  - unfold tableEvents, scheduledEventsOf in *.
    destruct (findIndex isDayHeader (dheaders table)) as [dayIndex |];
      [| by injection E as <-].
    destruct (findIndex isWorkoutHeader (dheaders table)) as [workoutIndex |];
      [| by injection E as <-].
    by apply rowsEvents_exact in E.
  - rewrite (IH _ _ E'). f_equal. apply imap_ext. intros i t _. cbn [compose].
    f_equal. lia.
Qed.

(** X13: when the event derivation returns, it returns exactly the events
    of the rows that name a key of the weekday table and are not rest-like,
    in the tables with a day and a workout column: one event for each such
    row, in the order of the tables and of their rows, each with the title,
    the start at 07:00 local time on the day of the row, the end after the
    estimated duration and the notes of that row, and no other event.
    Rest-like rows, rows with another day label and tables without these
    columns add none. With a start date that is not a date it returns only
    when there is no such row. Local time is UTC plus a fixed offset. *)
Theorem toCalendarEvents_one_event_per_scheduled_row (tzOffsetMinutes now : Z)
    (Date_parse : string → option Z) (tables : list DisplayPlanTable)
    (planStartDateIso : option string) (events : list CalendarWorkoutEvent) :
  toCalendarEvents tzOffsetMinutes now Date_parse tables planStartDateIso = Some events →
  let planStartMonday :=
    match planStartDateIso with
    | None | Some EmptyString => Some (nextMonday tzOffsetMinutes now)
    | Some iso => Date_parse iso
    end in
  match planStartMonday with
  | Some anchor => events = scheduledEvents tzOffsetMinutes anchor tables
  | None => events = [] ∧ tables ≫= scheduledRows = []
  end
  ∧ length events = length (tables ≫= scheduledRows).
Proof.
  intros H planStartMonday. unfold toCalendarEvents in H. fold planStartMonday in H.
  split; [| by apply tablesEvents_count in H].
  destruct planStartMonday as [anchor |].
  - by apply tablesEvents_exact in H.
  - pose proof (tablesEvents_count _ _ _ _ _ H) as Hlen.
    rewrite tablesEvents_without_start in H.
    destruct (forallb _ tables); [| done]. injection H as <-.
    split; [done |]. symmetry in Hlen. by apply nil_length_inv in Hlen.
Qed.

Lemma toCalendarEvents_one_event_per_scheduled_row_witness :
  let tables := [week2Intervals; restWeek; week2LongIntervals] in
  let events :=
    default [] (toCalendarEvents 0 0 (λ _, Some june3) tables (Some "2024-06-03")) in
  events = scheduledEvents 0 june3 tables
  ∧ length events = length (tables ≫= scheduledRows).
Proof.
  apply (toCalendarEvents_one_event_per_scheduled_row 0 0 (λ _, Some june3)
           [week2Intervals; restWeek; week2LongIntervals] (Some "2024-06-03")).
  vm_compute. reflexivity.
Defined.

(** X14: with a plan start date that is not empty and does not parse to a
    date, the event derivation throws as soon as one row would get an
    event, and returns no event when no row would. *)
Theorem toCalendarEvents_invalid_start_date (tzOffsetMinutes now : Z)
    (Date_parse : string → option Z) (tables : list DisplayPlanTable) (iso : string) :
  iso ≠ EmptyString →
  Date_parse iso = None →
  toCalendarEvents tzOffsetMinutes now Date_parse tables (Some iso)
  = if forallb (λ table, bool_decide (scheduledRows table = [])) tables
    then Some [] else None.
Proof.
  intros Hiso Hparse. unfold toCalendarEvents. destruct iso; [done |].
  rewrite Hparse. apply tablesEvents_without_start.
Qed.

Lemma toCalendarEvents_invalid_start_date_witness :
  toCalendarEvents 0 0 (λ _, None) [restWeek; week2Intervals] (Some "next week")
  = if forallb (λ table, bool_decide (scheduledRows table = []))
         [restWeek; week2Intervals]
    then Some [] else None.
Proof.
  apply (toCalendarEvents_invalid_start_date 0 0 (λ _, None)
           [restWeek; week2Intervals] "next week").
  - discriminate.
  - reflexivity.
Defined.


(** ** Display tables *)

Lemma weekLabel_key (weekNumber : Z) :
  weekLabel weekNumber ≠ EmptyString
  ∧ (weekLabel weekNumber ∉ OBJECT_PROTOTYPE_NAMES)
  ∧ arrayIndex (weekLabel weekNumber) = None.
Proof.
  split; [done |]. split; [| done].
  unfold OBJECT_PROTOTYPE_NAMES. intros H.
  repeat (apply elem_of_cons in H as [H | H]; [discriminate H |]).
  by apply elem_of_nil in H.
Qed.

Lemma groupRow_same_key (fallbackTitle label : string) (weekColumnIndex : nat)
    (rows done : list (list string)) :
  label ≠ EmptyString →
  Forall (λ row, row !! weekColumnIndex = Some label) rows →
  fold_left (groupRow fallbackTitle weekColumnIndex) rows (Some [(label, done)])
  = Some [(label, done ++ rows)].
Proof.
  intros Hlabel Hrows. revert done.
  induction Hrows as [| row rows Hrow _ IH]; intros done; [by rewrite app_nil_r |].
  cbn [fold_left]. unfold groupRow at 2. cbn [mbind option_bind].
  unfold cellOr. rewrite Hrow. cbn [default from_option id].
  destruct label as [| c label']; [done |]. cbv iota.
  unfold pushGrouped. cbn [existsb fst snd fmap list_fmap].
  rewrite String.eqb_refl. cbn [orb]. rewrite IH. by rewrite <- app_assoc.
Qed.

(** A table with a week column in which every row carries the same label
    is displayed as one table with that title and without that column. *)
Lemma displayTablesOf_one_week (tableIndex : nat) (table : PlanTable)
    (weekColumnIndex : nat) (label : string) :
  findIndex isWeekHeader (headers table) = Some weekColumnIndex →
  rows table ≠ [] →
  Forall (λ row, row !! weekColumnIndex = Some label) (rows table) →
  label ≠ EmptyString → label ∉ OBJECT_PROTOTYPE_NAMES → arrayIndex label = None →
  displayTablesOf tableIndex table
  = Some [mkDisplayPlanTable label (delete weekColumnIndex (headers table))
            (delete weekColumnIndex <$> rows table)].
Proof.
  intros Hweek Hne Hrows Hlabel Hproto Hindex. unfold displayTablesOf. rewrite Hweek.
  destruct (rows table) as [| row rows'] eqn:E; [done |].
  apply Forall_cons in Hrows as [Hrow Hrows].
  cbn [fold_left]. unfold groupRow at 2. cbn [mbind option_bind].
  unfold cellOr. rewrite Hrow. cbn [default from_option id].
  destruct label as [| c label']; [done |]. cbv iota.
  unfold pushGrouped. cbn [existsb]. rewrite bool_decide_eq_false_2 by done.
  cbn [app]. rewrite groupRow_same_key by done. cbn [mbind option_bind app].
  unfold objectEntries. cbn [omap list_omap List.filter fst snd]. rewrite Hindex.
  cbn [fmap option_fmap option_map]. 
  rewrite bool_decide_eq_false_2 by (by intros [? ?]).
  done.
Qed.

Lemma displayTablesFrom_fmap (f : PlanTable → PlanTable) (g : PlanTable → DisplayPlanTable)
    (tables : list PlanTable) (tableIndex : nat) :
  (∀ i table, table ∈ tables → displayTablesOf i (f table) = Some [g table]) →
  displayTablesFrom tableIndex (f <$> tables) = Some (g <$> tables).
Proof.
  revert tableIndex. induction tables as [| table tables IH]; intros tableIndex H;
    [done |].
  cbn [fmap list_fmap displayTablesFrom].
  rewrite (H tableIndex table) by constructor. cbn [mbind option_bind].
  change (list_fmap _ _ f tables) with (f <$> tables).
  rewrite IH; [done |]. intros i t Ht. apply H. by constructor.
Qed.

(** X15: tables that come without a week column and with at least one row,
    as the markdown parser returns them when the answer has no such column,
    are displayed, after [enforceExpectedWeek] has added the column, as one
    table each, titled with the label of the expected week and with the
    headers and rows the parser returned: the display grouping undoes the
    added column. *)
Theorem buildDisplayTables_after_enforceExpectedWeek (tables : list PlanTable)
    (weekNumber : Z) :
  Forall (λ table, findIndex isWeekHeader (headers table) = None ∧ rows table ≠ [])
    tables →
  buildDisplayTables (enforceExpectedWeek tables weekNumber)
  = Some ((λ table, mkDisplayPlanTable (weekLabel weekNumber) (headers table)
                      (rows table)) <$> tables).
Proof.
  intros Hall. unfold buildDisplayTables, enforceExpectedWeek.
  apply displayTablesFrom_fmap. intros i table Hin.
  rewrite Forall_forall in Hall. destruct (Hall table Hin) as [Hweek Hne].
  destruct (weekLabel_key weekNumber) as (Hlabel & Hproto & Hindex).
  unfold enforceWeekOnTable. rewrite Hweek.
  rewrite (displayTablesOf_one_week i _ 0%nat (weekLabel weekNumber));
    cbn [headers rows]; try done.
  - do 3 f_equal. rewrite <- list_fmap_compose. apply list_fmap_id.
  - by destruct (rows table).
  - apply Forall_fmap, Forall_forall. by intros row _.
Qed.

Lemma buildDisplayTables_after_enforceExpectedWeek_witness :
  buildDisplayTables (enforceExpectedWeek [paceTable] 3)
  = Some [mkDisplayPlanTable "Week 3" (headers paceTable) (rows paceTable)].
Proof.
  apply (buildDisplayTables_after_enforceExpectedWeek [paceTable] 3).
  repeat constructor. discriminate.
Defined.

(** X16: the table of a structured week with at least one day, whose week
    number is an integer from 0 to [Number.MAX_SAFE_INTEGER], is displayed
    as one table titled with the week label, with the four columns after
    the week column; and the week number that the calendar reads off this
    title is that of the week, whatever the position of the table. *)
Theorem buildDisplayTables_of_structured_week (w : StructuredPlanWeek) (fallback : Z) :
  days w ≠ [] →
  0 ≤ week w ≤ Js.MAX_SAFE_INTEGER →
  buildDisplayTables [structuredWeekToTable w]
  = Some [mkDisplayPlanTable (weekLabel (week w))
            ["Day"; "Workout Type"; "Details (Distance/Pace/Zone)"; "Rationale"]
            ((λ d, [day d; workoutType d; details d; rationale d]) <$> days w)]
  ∧ extractWeekNumber (weekLabel (week w)) fallback = week w.
Proof.
  intros Hdays Hweek. split; [| by apply extractWeekNumber_weekLabel].
  destruct (weekLabel_key (week w)) as (Hlabel & Hproto & Hindex).
  unfold buildDisplayTables. cbn [displayTablesFrom].
  rewrite (displayTablesOf_one_week 0 _ 0%nat (weekLabel (week w)));
    unfold structuredWeekToTable; cbn [headers rows]; try done.
  - cbn [mbind option_bind app]. do 3 f_equal. by rewrite <- list_fmap_compose.
  - by destruct (days w).
  - apply Forall_fmap, Forall_forall. by intros d _.
Qed.

Lemma buildDisplayTables_of_structured_week_witness :
  let w := default (mkWeek 0 "" "" [])
             (parseWeekJsonFromText shuffledParse shuffledText 9) in
  buildDisplayTables [structuredWeekToTable w]
  = Some [mkDisplayPlanTable (weekLabel (week w))
            ["Day"; "Workout Type"; "Details (Distance/Pace/Zone)"; "Rationale"]
            ((λ d, [day d; workoutType d; details d; rationale d]) <$> days w)]
  ∧ extractWeekNumber (weekLabel (week w)) 7 = week w.
Proof.
  intros w. apply (buildDisplayTables_of_structured_week w 7).
  - discriminate.
  - vm_compute. split; discriminate.
Defined.

(** *** Week cells that name an inherited property *)

Lemma groupRow_thrown (fallbackTitle : string) (weekColumnIndex : nat)
    (rows : list (list string)) :
  fold_left (groupRow fallbackTitle weekColumnIndex) rows None = None.
Proof. by induction rows. Qed.

Lemma pushGrouped_keys (weekKey : string) (row : list string)
    (acc acc' : list (string * list (list string))) :
  pushGrouped weekKey row acc = Some acc' →
  Forall (λ kv, kv.1 ∉ OBJECT_PROTOTYPE_NAMES) acc →
  Forall (λ kv, kv.1 ∉ OBJECT_PROTOTYPE_NAMES) acc'.
Proof.
  unfold pushGrouped. intros H Hacc. destruct (existsb _ acc).
  - injection H as <-. apply Forall_fmap. eapply Forall_impl; [exact Hacc |].
    intros kv Hkv. cbn. by destruct (String.eqb kv.1 weekKey).
  - case_bool_decide as Hin; [done |]. injection H as <-.
    apply Forall_app. split; [done |]. by constructor.
Qed.

Lemma pushGrouped_inherited (weekKey : string) (row : list string)
    (acc : list (string * list (list string))) :
  weekKey ∈ OBJECT_PROTOTYPE_NAMES →
  Forall (λ kv, kv.1 ∉ OBJECT_PROTOTYPE_NAMES) acc →
  pushGrouped weekKey row acc = None.
Proof.
  intros Hkey Hacc. unfold pushGrouped.
  destruct (existsb _ acc) eqn:E.
  - apply existsb_exists in E as (kv & Hin & Heq). apply String.eqb_eq in Heq.
    rewrite Forall_forall in Hacc. destruct (Hacc kv); [by apply list_elem_of_In |].
    by rewrite Heq.
  - by rewrite bool_decide_eq_true_2.
Qed.

Lemma groupRow_inherited (fallbackTitle key : string) (weekColumnIndex : nat)
    (rows : list (list string)) (row : list string)
    (acc : list (string * list (list string))) :
  row ∈ rows → row !! weekColumnIndex = Some key → key ∈ OBJECT_PROTOTYPE_NAMES →
  Forall (λ kv, kv.1 ∉ OBJECT_PROTOTYPE_NAMES) acc →
  fold_left (groupRow fallbackTitle weekColumnIndex) rows (Some acc) = None.
Proof.
  intros Hin Hcell Hkey. revert acc.
  induction rows as [| r rows IH]; intros acc Hacc; [by apply elem_of_nil in Hin |].
  cbn [fold_left]. unfold groupRow at 2. cbn [mbind option_bind].
  destruct (pushGrouped _ r acc) as [acc' |] eqn:E; [| apply groupRow_thrown].
  apply elem_of_cons in Hin as [<- | Hin].
  - unfold cellOr in E. rewrite Hcell in E. cbn [default from_option id] in E.
    destruct key as [| c key'].
    { unfold OBJECT_PROTOTYPE_NAMES in Hkey.
      repeat (apply elem_of_cons in Hkey as [Hkey | Hkey]; [discriminate Hkey |]).
      by apply elem_of_nil in Hkey. }
    by rewrite pushGrouped_inherited in E.
  - apply IH; [done |]. by eapply pushGrouped_keys.
Qed.

Lemma displayTablesFrom_thrown (tables : list PlanTable) (tableIndex k : nat)
    (table : PlanTable) :
  tables !! k = Some table →
  displayTablesOf (tableIndex + k) table = None →
  displayTablesFrom tableIndex tables = None.
Proof.
  revert tableIndex k. induction tables as [| t tables IH]; intros tableIndex k Hk H;
    [done |].
  cbn [displayTablesFrom]. destruct k as [| k]; cbn in Hk.
  - injection Hk as ->. rewrite Nat.add_0_r in H. by rewrite H.
  - rewrite (IH (S tableIndex) k); [by destruct (displayTablesOf tableIndex t) | done |].
    by replace (S tableIndex + k)%nat with (tableIndex + S k)%nat by lia.
Qed.

(** X17: a week cell that is the name of a property every object inherits,
    such as [constructor] or [toString], makes [buildDisplayTables] throw:
    the grouping of the rows finds the inherited value under that name and
    calls [push] on it. *)
Theorem buildDisplayTables_inherited_week_cell (tables : list PlanTable) (k : nat)
    (table : PlanTable) (weekColumnIndex : nat) (row : list string) (key : string) :
  tables !! k = Some table →
  findIndex isWeekHeader (headers table) = Some weekColumnIndex →
  row ∈ rows table →
  row !! weekColumnIndex = Some key →
  key ∈ OBJECT_PROTOTYPE_NAMES →
  buildDisplayTables tables = None.
Proof.
  intros Hk Hweek Hrow Hcell Hkey. unfold buildDisplayTables.
  apply (displayTablesFrom_thrown tables 0 k table Hk).
  unfold displayTablesOf. rewrite Hweek.
  by rewrite (groupRow_inherited _ key weekColumnIndex (rows table) row []).
Qed.

Lemma buildDisplayTables_inherited_week_cell_witness :
  buildDisplayTables
    [paceTable;
     mkPlanTable ["Week"; "Day"; "Workout"]
       [["Week 1"; "Monday"; "Easy Run"]; ["toString"; "Tuesday"; "Tempo Run"]]]
  = None.
Proof.
  apply (buildDisplayTables_inherited_week_cell _ 1
           (mkPlanTable ["Week"; "Day"; "Workout"]
              [["Week 1"; "Monday"; "Easy Run"]; ["toString"; "Tuesday"; "Tempo Run"]])
           0 ["toString"; "Tuesday"; "Tempo Run"] "toString").
  - reflexivity.
  - reflexivity.
  - do 2 constructor.
  - reflexivity.
  - unfold OBJECT_PROTOTYPE_NAMES. repeat constructor.
Defined.

(** *** No row is lost in the grouping *)

Lemma insertByIndex_perm {A : Type} (x : Z * A) (l : list (Z * A)) :
  insertByIndex x l ≡ₚ x :: l.
Proof.
  induction l as [| y l IH]; [done |]. cbn [insertByIndex].
  destruct (x.1 <? y.1); [done |]. rewrite IH. apply Permutation_swap.
Qed.

Lemma objectEntries_perm {A : Type} (o : list (string * A)) : objectEntries o ≡ₚ o.
Proof.
  unfold objectEntries.
  set (indexed := omap (λ kv, (λ n, (n, kv)) <$> arrayIndex kv.1) o).
  assert ((foldr insertByIndex [] indexed).*2 ≡ₚ indexed.*2) as ->.
  { apply fmap_Permutation. induction indexed as [| x l IH]; [done |].
    cbn [foldr]. by rewrite insertByIndex_perm, IH. }
  unfold indexed. clear indexed.
  induction o as [| kv o IH]; [done |].
  cbn [omap list_omap List.filter].
  destruct (arrayIndex kv.1) as [n |]; cbn [fmap option_fmap option_map].
  - rewrite bool_decide_eq_true_2 by done. cbn [negb fmap list_fmap snd app].
    by constructor.
  - rewrite bool_decide_eq_false_2 by (by intros [? ?]). cbn [negb].
    rewrite <- Permutation_middle. by constructor.
Qed.

Lemma pushGrouped_other_keys (weekKey : string) (row : list string)
    (acc : list (string * list (list string))) :
  weekKey ∉ acc.*1 →
  (λ kv : string * list (list string),
     if String.eqb kv.1 weekKey then (kv.1, kv.2 ++ [row]) else kv) <$> acc = acc.
Proof.
  induction acc as [| kv acc IH]; [done |]. intros Hnot.
  apply not_elem_of_cons in Hnot as [Hne Hnot]. cbn [fmap list_fmap].
  destruct (String.eqb kv.1 weekKey) eqn:E;
    [apply String.eqb_eq in E; by destruct Hne |].
  f_equal. by apply IH.
Qed.

Lemma pushGrouped_total (weekKey : string) (row : list string)
    (acc acc' : list (string * list (list string))) :
  NoDup acc.*1 →
  pushGrouped weekKey row acc = Some acc' →
  NoDup acc'.*1 ∧ length (acc' ≫= snd) = S (length (acc ≫= snd)).
Proof.
  unfold pushGrouped. intros Hnd H. destruct (existsb _ acc) eqn:E.
  - injection H as <-. split.
    + rewrite <- list_fmap_compose.
      erewrite list_fmap_ext; [exact Hnd |].
      intros i kv _. cbn. by destruct (String.eqb kv.1 weekKey).
    + induction acc as [| kv acc IH]; [done |].
      apply NoDup_cons in Hnd as [Hnot Hnd]. cbn [existsb] in E.
      cbn [fmap list_fmap]. rewrite !bind_cons, !length_app.
      destruct (String.eqb kv.1 weekKey) eqn:Hkey.
      * apply String.eqb_eq in Hkey. rewrite <- Hkey.
        change (list_fmap _ _ ?f acc) with (f <$> acc).
        rewrite (pushGrouped_other_keys kv.1 row acc Hnot).
        cbn [snd]. rewrite length_app. cbn [length]. lia.
      * cbn [orb] in E. change (list_fmap _ _ ?f acc) with (f <$> acc).
        rewrite (IH Hnd E). lia.
  - case_bool_decide; [done |]. injection H as <-. split.
    + rewrite fmap_app. apply NoDup_app. split; [done |]. split; [| apply NoDup_singleton].
      intros k Hk Hk'. apply list_elem_of_singleton in Hk'. subst k.
      apply list_elem_of_fmap in Hk as (kv & Hkv & Hin).
      assert (existsb (λ kv, String.eqb kv.1 weekKey) acc = true) as E'; [| congruence].
      apply existsb_exists. exists kv. split; [by apply list_elem_of_In |].
      apply String.eqb_eq. cbn in Hkv. by rewrite <- Hkv.
    + rewrite bind_app, length_app. cbn. lia.
Qed.

Lemma pushGrouped_perm (weekKey : string) (row : list string)
    (acc acc' : list (string * list (list string))) :
  NoDup acc.*1 →
  pushGrouped weekKey row acc = Some acc' →
  acc' ≫= snd ≡ₚ row :: (acc ≫= snd).
Proof.
  unfold pushGrouped. intros Hnd H. destruct (existsb _ acc) eqn:E.
  - injection H as <-.
    induction acc as [| kv acc IH]; [done |].
    apply NoDup_cons in Hnd as [Hnot Hnd]. cbn [existsb] in E.
    cbn [fmap list_fmap]. rewrite !bind_cons.
    destruct (String.eqb kv.1 weekKey) eqn:Hkey.
    + apply String.eqb_eq in Hkey. rewrite <- Hkey.
      change (list_fmap _ _ ?f acc) with (f <$> acc).
      rewrite (pushGrouped_other_keys kv.1 row acc Hnot).
      cbn [snd]. rewrite <- app_assoc. cbn [app].
      by rewrite <- Permutation_middle.
    + cbn [orb] in E. change (list_fmap _ _ ?f acc) with (f <$> acc).
      rewrite (IH Hnd E). by rewrite <- Permutation_middle.
  - case_bool_decide; [done |]. injection H as <-.
    rewrite bind_app. cbn. by rewrite <- Permutation_cons_append.
Qed.

Lemma groupRow_perm (fallbackTitle : string) (weekColumnIndex : nat)
    (rows : list (list string)) (acc groupedRows : list (string * list (list string))) :
  NoDup acc.*1 →
  fold_left (groupRow fallbackTitle weekColumnIndex) rows (Some acc) = Some groupedRows →
  groupedRows ≫= snd ≡ₚ (acc ≫= snd) ++ rows.
Proof.
  revert acc. induction rows as [| row rows IH]; intros acc Hnd.
  - intros [= <-]. by rewrite app_nil_r.
  - cbn [fold_left]. unfold groupRow at 2. cbn [mbind option_bind].
    destruct (pushGrouped _ row acc) as [acc' |] eqn:E;
      [| by rewrite groupRow_thrown].
    destruct (pushGrouped_total _ _ _ _ Hnd E) as [Hnd' _].
    intros H. rewrite (IH acc' Hnd' H), (pushGrouped_perm _ _ _ _ Hnd E).
    by rewrite <- Permutation_middle.
Qed.

Lemma displayTablesOf_perm (tableIndex : nat) (table : PlanTable)
    (displayed : list DisplayPlanTable) :
  displayTablesOf tableIndex table = Some displayed →
  displayed ≫= drows ≡ₚ shownRows table.
Proof.
  unfold displayTablesOf, shownRows.
  destruct (findIndex isWeekHeader (headers table)) as [weekColumnIndex |].
  - destruct (fold_left _ (rows table) (Some [])) as [groupedRows |] eqn:E; [| done].
    cbn [mbind option_bind]. intros [= <-].
    apply groupRow_perm in E; [| constructor]. cbn [mbind list_bind app] in E.
    assert (∀ l : list (string * list (list string)),
              ((λ entry, mkDisplayPlanTable entry.1
                           (delete weekColumnIndex (headers table))
                           (delete weekColumnIndex <$> entry.2)) <$> l) ≫= drows
              = delete weekColumnIndex <$> (l ≫= snd)) as ->.
    { induction l as [| entry l IH]; [done |].
      cbn [fmap list_fmap]. rewrite !bind_cons, fmap_app. cbn [drows].
      change (list_fmap _ _ ?f ?l) with (f <$> l). by rewrite IH. }
    apply fmap_Permutation. rewrite <- E.
    apply bind_Permutation, objectEntries_perm.
  - intros [= <-]. cbn. by rewrite app_nil_r.
Qed.

Lemma shownRows_length (tables : list PlanTable) :
  length (tables ≫= shownRows) = length (tables ≫= rows).
Proof.
  induction tables as [| table tables IH]; [done |].
  rewrite !bind_cons, !length_app, IH. f_equal. unfold shownRows.
  destruct (findIndex isWeekHeader (headers table)); [apply length_fmap | done].
Qed.

(** X18: when [buildDisplayTables] returns, the rows of the display tables
    are the rows of the tables given, each without the cell of the week
    column of its table, up to their order: the grouping by week cell loses
    no row and shows none twice. In particular they are as many. *)
Theorem buildDisplayTables_keeps_every_row (tables : list PlanTable)
    (displayed : list DisplayPlanTable) :
  buildDisplayTables tables = Some displayed →
  displayed ≫= drows ≡ₚ tables ≫= shownRows
  ∧ length (displayed ≫= drows) = length (tables ≫= rows).
Proof.
  intros H.
  assert (displayed ≫= drows ≡ₚ tables ≫= shownRows) as Hperm.
  { revert H. unfold buildDisplayTables. generalize 0%nat. revert displayed.
    induction tables as [| table tables IH]; intros displayed tableIndex.
    - by intros [= <-].
    - cbn [displayTablesFrom].
      destruct (displayTablesOf tableIndex table) as [first |] eqn:E; [| done].
      cbn [mbind option_bind].
      destruct (displayTablesFrom (S tableIndex) tables) as [more |] eqn:E'; [| done].
      cbn [mbind option_bind]. intros [= <-].
      rewrite bind_app, bind_cons.
      by rewrite (displayTablesOf_perm _ _ _ E), (IH _ _ E'). }
  split; [done |]. by rewrite Hperm, shownRows_length.
Qed.

Lemma buildDisplayTables_keeps_every_row_witness :
  let displayed := default [] (buildDisplayTables [crowdedWeek; paceTable]) in
  displayed ≫= drows ≡ₚ [crowdedWeek; paceTable] ≫= shownRows
  ∧ length (displayed ≫= drows) = length ([crowdedWeek; paceTable] ≫= rows).
Proof.
  apply (buildDisplayTables_keeps_every_row [crowdedWeek; paceTable]).
  vm_compute. reflexivity.
Defined.


(** ** The two segments of the plan *)

Lemma isVisible_complement (tableIndex : nat) (table : DisplayPlanTable) :
  isVisible weeks5to8 tableIndex table = negb (isVisible weeks1to4 tableIndex table).
Proof.
  unfold isVisible.
  destruct (Z.leb_spec (extractWeekNumber (title table) (Z.of_nat tableIndex + 1)) 4),
           (Z.leb_spec 5 (extractWeekNumber (title table) (Z.of_nat tableIndex + 1)));
    (done || lia).
Qed.

Lemma filter_indexed_split {A : Type} (p : nat → A → bool) (l : list A) (k : nat) :
  (List.filter (λ x, p x.1 x.2) (imap (λ i, pair (k + i)%nat) l)).*2
  ++ (List.filter (λ x, negb (p x.1 x.2)) (imap (λ i, pair (k + i)%nat) l)).*2
  ≡ₚ l.
Proof.
  revert k. induction l as [| x l IH]; intros k; [done |].
  cbn [imap List.filter]. rewrite Nat.add_0_r.
  assert (imap ((λ i, pair (k + i)%nat) ∘ S) l = imap (λ i, pair (S k + i)%nat) l) as ->.
  { apply imap_ext. intros i y _. cbn. f_equal. lia. }
  cbn [fst snd]. specialize (IH (S k)).
  destruct (p k x); cbn [negb fmap list_fmap app snd].
  - by constructor.
  - rewrite <- Permutation_middle. by constructor.
Qed.

Lemma imap_pair_values {A : Type} (l : list A) (k : nat) :
  (imap (λ i, pair (k + i)%nat) l).*2 = l.
Proof.
  revert k. induction l as [| x l IH]; intros k; [done |]. cbn. f_equal.
  rewrite <- (IH (S k)) at 2. f_equal. apply imap_ext. intros i y _. cbn.
  f_equal. lia.
Qed.

(** X19: the two segments split the display tables: every table is shown
    in exactly one of them, and each segment shows its tables in the order
    they have in the plan. *)
Theorem getVisibleTables_split (tables : list DisplayPlanTable) :
  getVisibleTables tables weeks1to4 ++ getVisibleTables tables weeks5to8 ≡ₚ tables
  ∧ getVisibleTables tables weeks1to4 `sublist_of` tables
  ∧ getVisibleTables tables weeks5to8 `sublist_of` tables.
Proof.
  unfold getVisibleTables.
  assert (∀ segment,
            (List.filter (λ p, isVisible segment p.1 p.2) (imap pair tables)).*2
            `sublist_of` tables) as Hsub.
  { intros segment. rewrite <- (imap_pair_values tables 0) at 2.
    apply fmap_sublist, filter_sublist. }
  split; [| split; apply Hsub].
  rewrite (filter_ext_elem (λ p, isVisible weeks5to8 p.1 p.2)
             (λ p, negb (isVisible weeks1to4 p.1 p.2)))
    by (intros [i t] _; apply isVisible_complement).
  exact (filter_indexed_split (isVisible weeks1to4) tables 0).
Qed.

(** ** The week calendar *)

Lemma addCalendarDay_lookup (dayIndex workoutIndex : nat) (detailsIndex : option nat)
    (rows : list (list string)) (dayMap : gmap string (string * string))
    (name : string) :
  fold_left (addCalendarDay dayIndex workoutIndex detailsIndex) rows dayMap !! name
  = match dayMap !! name with
    | Some value => Some value
    | None =>
        (λ row, (cellOr "Rest Day" row workoutIndex, cellAt "" row detailsIndex))
        <$> List.find
              (λ row, bool_decide (normalizeDayName (cellOr "" row dayIndex) = Some name))
              rows
    end.
Proof.
  revert dayMap. induction rows as [| row rows IH]; intros dayMap.
  - cbn. by destruct (dayMap !! name).
  - cbn [fold_left List.find]. rewrite IH. unfold addCalendarDay.
    destruct (normalizeDayName (cellOr "" row dayIndex)) as [normalizedDay |] eqn:E.
    + case_decide as Hseen.
      * destruct (dayMap !! name) as [value |] eqn:Hname; [done |].
        rewrite bool_decide_eq_false_2; [done |].
        intros [= ->]. rewrite Hname in Hseen. by destruct Hseen.
      * destruct (decide (normalizedDay = name)) as [-> | Hne].
        -- rewrite lookup_insert_eq. rewrite bool_decide_eq_true_2 by done.
           destruct (dayMap !! name) as [value |] eqn:Hname; [| done].
           destruct Hseen. by eexists.
        -- rewrite lookup_insert_ne by done.
           rewrite bool_decide_eq_false_2; [done |]. by intros [= ->].
    + by rewrite bool_decide_eq_false_2.
Qed.

(** X20: each row of the week calendar has the title of its table and
    seven cells, Monday to Sunday. In a table with a day and a workout
    column the cell of a weekday shows the first row that names the day, by
    its name or an abbreviation, and a weekday that no row names shows as a
    rest day; so does every weekday of a table without these columns. *)
Theorem buildCalendarWeekRows_cells (tables : list DisplayPlanTable) :
  Forall2 (λ table calendarRow,
             row_title calendarRow = title table
             ∧ cells calendarRow
               = match findIndex isDayHeader (dheaders table),
                       findIndex isWorkoutHeader (dheaders table) with
                 | Some dayIndex, Some workoutIndex =>
                     calendarCellFor dayIndex workoutIndex
                       (findIndex isDetailsHeader (dheaders table)) (drows table)
                     <$> WEEKDAY_NAMES
                 | _, _ => (λ name, mkCell name "Rest Day" "" true) <$> WEEKDAY_NAMES
                 end)
    tables (buildCalendarWeekRows tables).
Proof.
  unfold buildCalendarWeekRows.
  induction tables as [| table tables IH]; constructor; [| exact IH].
  split; [done |]. unfold calendarWeekRow. cbn [cells].
  destruct (findIndex isDayHeader (dheaders table)) as [dayIndex |];
    [destruct (findIndex isWorkoutHeader (dheaders table)) as [workoutIndex |] |];
    [| done | done].
  apply list_fmap_ext. intros _ name _. cbv zeta.
  rewrite addCalendarDay_lookup, lookup_empty. unfold calendarCellFor.
  by destruct (List.find _ (drows table)).
Qed.

Example buildCalendarWeekRows_sample :
  buildCalendarWeekRows [twoMondays]
  = [mkCalendarRow "Week 1"
       [ mkCell "Monday" "Easy Run" "5 km" false;
         mkCell "Tuesday" "Rest Day" "" true;
         mkCell "Wednesday" "Rest Day" "" true;
         mkCell "Thursday" "Rest Day" "" true;
         mkCell "Friday" "Rest Day" "" true;
         mkCell "Saturday" "Rest Day" "" true;
         mkCell "Sunday" "Day off" "" true ]].
Proof. vm_compute. reflexivity. Qed.


(** ** What the orchestrator stores and how much it asks *)

Lemma buildParts_thrown (before after : list nat) (e : thrown) :
  buildParts before = Thrown e → buildParts (before ++ after) = Thrown e.
Proof.
  induction before as [| n before IH]; [done |]. cbn [app buildParts].
  case_bool_decide; [| done].
  destruct (buildParts before) as [parts | e']; [done |].
  intros [= ->]. by rewrite IH.
Qed.

(** X21: a plan of more than twelve weeks is refused before anything else
    happens: the orchestrator throws the error of week 13, makes no
    request and leaves the state as it was. *)
Theorem buildWeeklyPlan_more_than_twelve_weeks (generate : nat → string → result string)
    (buildAdaptiveRunningCoachPrompt : PlanInput → string → string)
    (JSON_parse : string → option json) (input : PlanInput) (w : World) :
  12 < planLengthWeeks input →
  buildWeeklyPlan generate buildAdaptiveRunningCoachPrompt JSON_parse input w
  = (Thrown (ErrorObject "Unsupported week prompt key: week13"), w).
Proof.
  intros Hlen. unfold buildWeeklyPlan.
  replace (Z.to_nat (planLengthWeeks input))
    with (13 + (Z.to_nat (planLengthWeeks input) - 13))%nat by lia.
  rewrite seq_app.
  by rewrite (buildParts_thrown _ _ (ErrorObject "Unsupported week prompt key: week13")).
Qed.

Lemma buildWeeklyPlan_more_than_twelve_weeks_witness :
  buildWeeklyPlan steadyModel samplePrompt noJson longInput emptyWorld
  = (Thrown (ErrorObject "Unsupported week prompt key: week13"), emptyWorld).
Proof.
  apply (buildWeeklyPlan_more_than_twelve_weeks steadyModel samplePrompt noJson
           longInput emptyWorld).
  reflexivity.
Defined.

Lemma buildParts_weeks (n : nat) :
  (n ≤ 12)%nat →
  buildParts (seq 1 n) = Returned ((λ k, partOfWeek (Z.of_nat k)) <$> seq 1 n).
Proof.
  intros Hn. do 13 (destruct n as [| n]; [reflexivity |]). lia.
Qed.

Lemma normalizeResponse_stored (JSON_parse : string → option json) (text : string)
    (expectedWeekNumber : Z) :
  Forall storedTable (normalizeResponse JSON_parse text expectedWeekNumber).
Proof.
  unfold normalizeResponse.
  destruct (parseWeekJsonFromText JSON_parse text expectedWeekNumber) as [w |].
  - constructor; [| constructor]. split; [| by eexists].
    unfold rectangular, structuredWeekToTable. cbn [headers rows].
    apply Forall_fmap, Forall_forall. by intros d _.
  - unfold enforceExpectedWeek. apply Forall_fmap.
    eapply Forall_impl; [apply scanLines_Forall, tableOfBlock_shape |].
    intros table (_ & _ & Hrect). split.
    + by apply enforceWeekOnTable_rectangular.
    + destruct (enforceWeekOnTable_labels expectedWeekNumber table) as (wi & -> & _).
      by eexists.
Qed.

Lemma clampWeekToRunDayCap_stored (tables : list PlanTable) (runDayCap : Z)
    (longRunDay : string) :
  Forall storedTable tables →
  Forall storedTable (clampWeekToRunDayCap tables runDayCap longRunDay).
Proof.
  intros H. unfold clampWeekToRunDayCap. apply Forall_fmap.
  eapply Forall_impl; [exact H |]. intros table [Hrect Hweek]. split.
  - by apply clampTable_rectangular.
  - cbn. by rewrite (proj1 (clampTable_headers table runDayCap longRunDay)).
Qed.

Section OrchestratorEffects.

Variable generate : nat → string → result string.
Variable buildAdaptiveRunningCoachPrompt : PlanInput → string → string.
Variable JSON_parse : string → option json.

Local Abbreviation attempt := (generateWeek generate JSON_parse).
Local Abbreviation oneWeek :=
  (weekIteration generate buildAdaptiveRunningCoachPrompt JSON_parse).
Local Abbreviation everyWeek :=
  (forEachPart generate buildAdaptiveRunningCoachPrompt JSON_parse).

(** One attempt at a week: one or two requests, each logged with what the
    model gave; the published values stay; when it returns, one answer, the
    stored tables of the week and one digest have been added, and when it
    throws, nothing has. *)
Lemma generateWeek_effect (mode : promptMode) (prompt : string)
    (expectedWeekNumber runDayCap : Z) (longRunDay : string) (w : World) :
  ∃ r w' new,
    attempt mode prompt expectedWeekNumber runDayCap longRunDay w = (r, w')
    ∧ requests w' = requests w ++ new
    ∧ (1 ≤ length new ≤ 2)%nat
    ∧ Forall (answeredBy generate) new
    ∧ response w' = response w ∧ planTables w' = planTables w
    ∧ debugPrompts w' = debugPrompts w
    ∧ length (nextDebugPrompts w') = (length (nextDebugPrompts w) + length new)%nat
    ∧ ((r = Returned tt
        ∧ ∃ text tables,
            partResponses w' = partResponses w ++ [text]
            ∧ accumulatedTables w' = accumulatedTables w ++ tables
            ∧ historySummaries w'
              = historySummaries w ++ [summarizeWeekForHistory tables expectedWeekNumber]
            ∧ Forall storedTable tables)
       ∨ (∃ e, r = Thrown e ∧ Exists (λ request, request.2 = Thrown e) new
            ∧ partResponses w' = partResponses w
            ∧ accumulatedTables w' = accumulatedTables w
            ∧ historySummaries w' = historySummaries w)).
Proof.
  unfold generateWeek, bind, pushDebug, pushWeek, modify, queryModel, ret.
  cbn [requests nextDebugPrompts partResponses accumulatedTables historySummaries
       response planTables debugPrompts].
  destruct (generate (length (requests w)) prompt) as [text | e] eqn:E1.
  - destruct (Z.of_nat (countPlannedRunDays
                (normalizeResponse JSON_parse text expectedWeekNumber)) >? runDayCap).
    + cbn [requests nextDebugPrompts partResponses accumulatedTables historySummaries
           response planTables debugPrompts].
      match goal with
      | |- context [generate ?n ?p] => destruct (generate n p) as [text' | e] eqn:E2
      end.
      * eexists _, _, [(prompt, Returned text); (_, Returned text')].
        split; [reflexivity |].
        cbn [requests nextDebugPrompts partResponses accumulatedTables
             historySummaries response planTables debugPrompts fst snd].
        split; [by rewrite <- app_assoc |]. split; [cbn; lia |].
        split; [repeat constructor; eexists; cbn; by rewrite ?E1, ?E2 |].
        do 3 (split; [done |]). split; [rewrite !length_app; cbn; lia |].
        left. split; [done |]. eexists _, _. do 3 (split; [reflexivity |]).
        apply clampWeekToRunDayCap_stored, normalizeResponse_stored.
      * eexists _, _, [(prompt, Returned text); (_, Thrown e)].
        split; [reflexivity |].
        cbn [requests nextDebugPrompts partResponses accumulatedTables
             historySummaries response planTables debugPrompts].
        split; [by rewrite <- app_assoc |]. split; [cbn; lia |].
        split; [repeat constructor; eexists; cbn; by rewrite ?E1, ?E2 |].
        do 3 (split; [done |]). split; [rewrite !length_app; cbn; lia |].
        right. exists e. split; [done |]. split; [| done].
        apply Exists_cons_tl, Exists_cons_hd. done.
    + eexists _, _, [(prompt, Returned text)].
      split; [reflexivity |].
      cbn [requests nextDebugPrompts partResponses accumulatedTables
           historySummaries response planTables debugPrompts fst snd].
      split; [done |]. split; [cbn; lia |].
      split; [repeat constructor; eexists; cbn; by rewrite ?E1 |].
      do 3 (split; [done |]). split; [rewrite !length_app; cbn; lia |].
      left. split; [done |]. eexists _, _. do 3 (split; [reflexivity |]).
      apply clampWeekToRunDayCap_stored, normalizeResponse_stored.
  - eexists _, _, [(prompt, Thrown e)].
    split; [reflexivity |].
    cbn [requests nextDebugPrompts partResponses accumulatedTables
         historySummaries response planTables debugPrompts].
    split; [done |]. split; [cbn; lia |].
    split; [repeat constructor; eexists; cbn; by rewrite ?E1 |].
    do 3 (split; [done |]). split; [rewrite !length_app; cbn; lia |].
    right. exists e. split; [done |]. split; [| done]. by apply Exists_cons_hd.
Qed.

(** One iteration of the loop: between one and four requests, at most two
    when none fails; when it returns, one answer, the stored tables of the
    week and one digest have been added and published. *)
Lemma weekIteration_effect (input compactInput : PlanInput) (runDayCap : Z)
    (parts : list planPart) (part : planPart) (w : World) :
  ∃ r w' new,
    oneWeek input compactInput runDayCap parts part w = (r, w')
    ∧ requests w' = requests w ++ new
    ∧ (1 ≤ length new ≤ 4)%nat
    ∧ Forall (answeredBy generate) new
    ∧ length (nextDebugPrompts w') = (length (nextDebugPrompts w) + length new)%nat
    ∧ ((r = Returned tt
        ∧ (Forall succeeded new → length new ≤ 2)%nat
        ∧ planTables w' = accumulatedTables w'
        ∧ response w'
          = combineParts (take (length (partResponses w')) parts) (partResponses w')
        ∧ length (historySummaries w') = S (length (historySummaries w))
        ∧ ∃ text tables,
            partResponses w' = partResponses w ++ [text]
            ∧ accumulatedTables w' = accumulatedTables w ++ tables
            ∧ Forall storedTable tables)
       ∨ (∃ e, r = Thrown e ∧ Exists (λ request, request.2 = Thrown e) new
            ∧ progress w' = progress w)).
Proof.
  unfold weekIteration.
  set (week := match Js.parseInt (part_label part) with Js.Int n => n | _ => 0 end).
  unfold bind at 1. unfold gets at 1.
  set (history := Js.join (NL +:+ NL) (historySummaries w)).
  unfold bind at 1. unfold tryCatch.
  destruct (generateWeek_effect Full
              (buildAdaptiveRunningCoachPrompt (withHistory input history) (part_key part))
              week runDayCap (longRunDay input) w)
    as (r1 & w1 & new1 & -> & Hreq1 & Hlen1 & Hfrom1 & Hresp1 & Hplan1 & Hdebug1 & Hnext1
        & [(-> & text & tables & Hparts & Htables & Hhist & Hstored)
          | (e1 & -> & Hfail1 & Hparts1 & Htables1 & Hhist1)]).
  - unfold bind, gets, publish, modify.
    eexists _, _, new1. split; [reflexivity |].
    cbn [requests nextDebugPrompts partResponses accumulatedTables historySummaries
         response planTables debugPrompts].
    split; [done |]. split; [lia |]. split; [done |]. split; [done |].
    left. split; [done |]. split; [lia |]. split; [done |]. split; [done |].
    split; [rewrite Hhist, length_app; cbn; lia |]. by exists text, tables.
  - destruct (looksLikeContextWindowError (planningMessage e1)) eqn:Hctx; cbn [negb].
    + destruct (generateWeek_effect Compact
                  (buildAdaptiveRunningCoachPrompt (withHistory compactInput history)
                     (part_key part))
                  week runDayCap (longRunDay input) w1)
        as (r2 & w2 & new2 & -> & Hreq2 & Hlen2 & Hfrom2 & Hresp2 & Hplan2 & Hdebug2
            & Hnext2
            & [(-> & text & tables & Hparts & Htables & Hhist & Hstored)
              | (e2 & -> & Hfail2 & Hparts2 & Htables2 & Hhist2)]).
      * unfold bind, gets, publish, modify.
        eexists _, _, (new1 ++ new2). split; [reflexivity |].
        cbn [requests nextDebugPrompts partResponses accumulatedTables historySummaries
             response planTables debugPrompts].
        split; [by rewrite Hreq2, Hreq1, <- app_assoc |].
        split; [rewrite length_app; lia |]. split; [by apply Forall_app |].
        split; [rewrite length_app; lia |].
        left. split; [done |]. split.
        { intros Hall. apply Forall_app in Hall as [Hall _].
          apply Exists_exists in Hfail1 as (request & Hin & Hthrown).
          rewrite Forall_forall in Hall. destruct (Hall request Hin) as [t Ht].
          congruence. }
        split; [done |]. split; [done |].
        split; [rewrite Hhist, Hhist1, length_app; cbn; lia |].
        exists text, tables. by rewrite Hparts, Htables, Hparts1, Htables1.
      * eexists _, _, (new1 ++ new2). split; [reflexivity |].
        split; [by rewrite Hreq2, Hreq1, <- app_assoc |].
        split; [rewrite length_app; lia |]. split; [by apply Forall_app |].
        split; [rewrite length_app; lia |].
        right. exists e2. split; [done |]. split; [by apply Exists_app; right |].
        unfold progress. congruence.
    + unfold throw. eexists _, _, new1. split; [reflexivity |].
      split; [done |]. split; [lia |]. split; [done |]. split; [done |].
      right. exists e1. split; [done |]. split; [done |]. unfold progress. congruence.
Qed.

(** The loop over the parts. *)
Lemma forEachPart_effect (input compactInput : PlanInput) (runDayCap : Z)
    (parts todo : list planPart) (w : World) :
  ∃ r w' new,
    everyWeek input compactInput runDayCap parts todo w = (r, w')
    ∧ requests w' = requests w ++ new
    ∧ (length new ≤ 4 * length todo)%nat
    ∧ Forall (answeredBy generate) new
    ∧ length (nextDebugPrompts w') = (length (nextDebugPrompts w) + length new)%nat
    ∧ (∃ tables, accumulatedTables w' = accumulatedTables w ++ tables
                 ∧ Forall storedTable tables)
    ∧ ((planTables w' = planTables w ∧ accumulatedTables w' = accumulatedTables w)
       ∨ planTables w' = accumulatedTables w')
    ∧ ((r = Returned tt
        ∧ (length todo ≤ length new)%nat
        ∧ (Forall succeeded new → length new ≤ 2 * length todo)%nat
        ∧ length (partResponses w') = (length (partResponses w) + length todo)%nat
        ∧ length (historySummaries w') = (length (historySummaries w) + length todo)%nat
        ∧ (todo ≠ [] →
           planTables w' = accumulatedTables w'
           ∧ response w'
             = combineParts (take (length (partResponses w')) parts) (partResponses w')))
       ∨ (∃ e, r = Thrown e ∧ Exists (λ request, request.2 = Thrown e) new)).
Proof.
  revert w. induction todo as [| part rest IH]; intros w.
  - exists (Returned tt), w, []. split; [done |]. split; [by rewrite app_nil_r |].
    split; [cbn; lia |]. split; [constructor |].
    split; [cbn; lia |]. split; [exists []; by rewrite app_nil_r |].
    split; [by left |]. left. split; [done |]. split; [cbn; lia |].
    split; [cbn; lia |]. split; [cbn; lia |]. split; [cbn; lia |]. done.
  - cbn [forEachPart]. unfold bind at 1.
    destruct (weekIteration_effect input compactInput runDayCap parts part w)
      as (r1 & w1 & new1 & Hrun1 & Hreq1 & Hlen1 & Hfrom1 & Hnext1
          & [(-> & Hok1 & Hplan1 & Hresp1 & Hhist1 & text & tables & Hparts1 & Htables1
              & Hstored1)
            | (e1 & -> & Hfail1 & Hprog1)]).
    + rewrite Hrun1.
      destruct (IH w1)
        as (r2 & w2 & new2 & Hrun2 & Hreq2 & Hlen2 & Hfrom2 & Hnext2
            & (tables2 & Htables2 & Hstored2) & Hplan2 & Hcases).
      assert (planTables w2 = accumulatedTables w2) as Hpublished.
      { destruct Hplan2 as [[Hp Ha] | Hp]; congruence. }
      exists r2, w2, (new1 ++ new2). split; [done |].
      split; [by rewrite Hreq2, Hreq1, <- app_assoc |].
      split; [rewrite length_app; cbn [length]; lia |].
      split; [by apply Forall_app |].
      split; [rewrite length_app; lia |].
      split.
      { exists (tables ++ tables2). split; [| by apply Forall_app].
        by rewrite Htables2, Htables1, <- app_assoc. }
      split; [by right |].
      destruct Hcases
        as [(-> & Hmin & Hok2 & Hparts2 & Hhist2 & Hpub)
           | (e2 & -> & Hfail2)].
      * left. split; [done |].
        split; [rewrite length_app; cbn [length]; lia |].
        split.
        { intros Hall. apply Forall_app in Hall as [Hall1 Hall2].
          specialize (Hok1 Hall1). specialize (Hok2 Hall2).
          rewrite length_app. cbn [length]. lia. }
        split; [rewrite Hparts2, Hparts1, length_app; cbn [length]; lia |].
        split; [rewrite Hhist2, Hhist1; cbn [length]; lia |].
        intros _. split; [done |].
        destruct rest as [| part' rest']; [| by apply Hpub].
        cbn in Hrun2. by injection Hrun2 as <-.
      * right. exists e2. split; [done |]. by apply Exists_app; right.
    + rewrite Hrun1. exists (Thrown e1), w1, new1.
      unfold progress in Hprog1. injection Hprog1 as Hp1 Hp2 Hp3 Hp4 Hp5.
      split; [done |]. split; [done |]. split; [cbn [length]; lia |].
      split; [done |]. split; [done |].
      split; [exists []; by rewrite app_nil_r |]. split; [by left |].
      right. by exists e1.
Qed.

End OrchestratorEffects.

Lemma buildParts_length (weeks : list nat) (parts : list planPart) :
  buildParts weeks = Returned parts → length parts = length weeks.
Proof.
  revert parts. induction weeks as [| n weeks IH]; intros parts.
  - by intros [= <-].
  - cbn [buildParts]. case_bool_decide; [| done].
    destruct (buildParts weeks) as [parts' |]; [| done].
    intros [= <-]. cbn. by rewrite (IH parts').
Qed.

Lemma buildParts_at_most_twelve (n : nat) (parts : list planPart) :
  buildParts (seq 1 n) = Returned parts → (n ≤ 12)%nat.
Proof.
  intros H. destruct (decide (n ≤ 12)%nat) as [| Hgt]; [done |].
  replace n with (13 + (n - 13))%nat in H by lia.
  rewrite seq_app in H.
  by rewrite (buildParts_thrown _ _ (ErrorObject "Unsupported week prompt key: week13"))
    in H.
Qed.

(** X22: whatever the model does, a run of the orchestrator makes at most
    four requests for each week of the plan, so at most 48, each logged
    with what the model gave for it; the tables it publishes have rows as
    wide as their headers and a week column, if those published before had;
    and so have the tables it returns. *)
Theorem buildWeeklyPlan_bounded (generate : nat → string → result string)
    (buildAdaptiveRunningCoachPrompt : PlanInput → string → string)
    (JSON_parse : string → option json) (input : PlanInput) (w0 : World)
    (r : result (string * list PlanTable)) (w : World) :
  buildWeeklyPlan generate buildAdaptiveRunningCoachPrompt JSON_parse input w0 = (r, w) →
  ∃ new,
    requests w = requests w0 ++ new
    ∧ (length new ≤ 4 * Z.to_nat (planLengthWeeks input))%nat
    ∧ (length new ≤ 48)%nat
    ∧ Forall (answeredBy generate) new
    ∧ (Forall storedTable (planTables w0) → Forall storedTable (planTables w))
    ∧ (∀ combined tables, r = Returned (combined, tables) → Forall storedTable tables).
Proof.
  unfold buildWeeklyPlan.
  destruct (buildParts (seq 1 (Z.to_nat (planLengthWeeks input))))
    as [parts | e0] eqn:Hparts.
  - pose proof (buildParts_at_most_twelve _ _ Hparts) as Htwelve.
    apply buildParts_length in Hparts. rewrite length_seq in Hparts.
    unfold bind at 1. unfold initLocals at 1, modify. unfold bind at 1.
    destruct (forEachPart_effect generate buildAdaptiveRunningCoachPrompt JSON_parse
                input (toCompactInput input) (parseRunDayCap (runDaysPerWeek input))
                parts parts
                (mkWorld (requests w0) [] [] [] [] (response w0) (planTables w0)
                   (debugPrompts w0)))
      as (r1 & w1 & new & -> & Hreq & Hlen & Hfrom & _ & (tables & Htables & Hstored)
          & Hplan & Hcases).
    cbn [requests accumulatedTables planTables app] in *.
    destruct Hcases as [(-> & _) | (e & -> & _)].
    + unfold bind, publishDebug, modify, gets, ret. intros [= <- <-].
      exists new. cbn [requests planTables].
      split; [done |]. split; [lia |]. split; [lia |]. split; [done |]. split.
      * intros H0. destruct Hplan as [[-> _] | ->]; [done | by rewrite Htables].
      * intros combined tables' [= _ <-]. by rewrite Htables.
    + intros [= <- <-]. exists new.
      split; [done |]. split; [lia |]. split; [lia |]. split; [done |]. split.
      * intros H0. destruct Hplan as [[-> _] | ->]; [done | by rewrite Htables].
      * done.
  - unfold throw. intros [= <- <-]. exists [].
    split; [by rewrite app_nil_r |]. split; [cbn; lia |]. split; [cbn; lia |].
    split; [constructor |]. done.
Qed.

Lemma buildWeeklyPlan_bounded_witness :
  let run := buildWeeklyPlan flakyModel samplePrompt noJson sampleInput emptyWorld in
  ∃ new,
    requests run.2 = requests emptyWorld ++ new
    ∧ (length new ≤ 4 * Z.to_nat (planLengthWeeks sampleInput))%nat
    ∧ (length new ≤ 48)%nat
    ∧ Forall (answeredBy flakyModel) new
    ∧ (Forall storedTable (planTables emptyWorld) → Forall storedTable (planTables run.2))
    ∧ (∀ combined tables, run.1 = Returned (combined, tables) → Forall storedTable tables).
Proof.
  intros run.
  apply (buildWeeklyPlan_bounded flakyModel samplePrompt noJson sampleInput emptyWorld
           run.1 run.2).
  apply surjective_pairing.
Defined.




(** ** Completion keys *)

Lemma showInt_injective (z z' : Z) : Js.showInt z = Js.showInt z' → z = z'.
Proof.
  unfold Js.showInt. intros H. apply DecimalZ.to_int_inj.
  assert (Some (Z.to_int z) = Some (Z.to_int z')) as [= E]; [| done].
  by rewrite <- !NilEmpty.isi, H.
Qed.

Lemma showInt_without_colon (z : Z) : indexOf COLON (Js.showInt z) = None.
Proof.
  assert (∀ d, indexOf COLON (NilEmpty.string_of_uint d) = None) as H.
  { induction d; [done | ..]; cbn [NilEmpty.string_of_uint indexOf];
      match goal with
      | |- context [Ascii.eqb ?c COLON] => change (Ascii.eqb c COLON) with false
      end; cbv iota; by rewrite IHd. }
  unfold Js.showInt. destruct (Z.to_int z) as [d | d]; cbn [NilEmpty.string_of_int].
  - apply H.
  - cbn [indexOf]. change (Ascii.eqb "-" COLON) with false. cbv iota. by rewrite H.
Qed.

Lemma append_nil (s : string) : "" +:+ s = s.
Proof. done. Qed.

Lemma append_cons (c : ascii) (a s : string) : String c a +:+ s = String c (a +:+ s).
Proof. done. Qed.

(** Two texts cut at their first colon. *)
Lemma append_colon_injective (a a' r r' : string) :
  indexOf COLON a = None → indexOf COLON a' = None →
  a +:+ String COLON r = a' +:+ String COLON r' → a = a' ∧ r = r'.
Proof.
  revert a'. induction a as [| c a IH]; intros [| c' a'] Ha Ha' H;
    cbn [String.append indexOf] in *.
  - by injection H as ->.
  - injection H as <- _. by rewrite Ascii.eqb_refl in Ha'.
  - injection H as -> _. by rewrite Ascii.eqb_refl in Ha.
  - injection H as -> H.
    destruct (Ascii.eqb c' COLON); [done |].
    destruct (indexOf COLON a) eqn:E; [done |].
    destruct (indexOf COLON a') eqn:E'; [done |].
    destruct (IH a' eq_refl E' H) as [-> ->]. done.
Qed.

Lemma prefix_colon (a a' r : string) :
  indexOf COLON a = None → indexOf COLON a' = None →
  String.prefix (a +:+ String COLON EmptyString) (a' +:+ String COLON r) = true →
  a = a'.
Proof.
  revert a'. induction a as [| c a IH]; intros [| c' a'] Ha Ha' H;
    rewrite ?append_nil, ?append_cons in H; cbn [String.prefix indexOf] in *.
  - done.
  - destruct (Ascii.ascii_dec COLON c') as [<- |]; [| done].
    by rewrite Ascii.eqb_refl in Ha'.
  - destruct (Ascii.ascii_dec c COLON) as [-> |]; [| done].
    by rewrite Ascii.eqb_refl in Ha.
  - destruct (Ascii.ascii_dec c c') as [-> |]; [| done].
    destruct (Ascii.eqb c' COLON); [done |].
    destruct (indexOf COLON a) eqn:E; [done |].
    destruct (indexOf COLON a') eqn:E'; [done |].
    by rewrite (IH a' eq_refl E' H).
Qed.

Lemma prefix_append (a r : string) : String.prefix a (a +:+ r) = true.
Proof.
  induction a as [| c a IH]; rewrite ?append_nil, ?append_cons; cbn [String.prefix];
    [by destruct r |].
  by destruct (Ascii.ascii_dec c c).
Qed.

Lemma append_assoc (a b c : string) : (a +:+ b) +:+ c = a +:+ (b +:+ c).
Proof.
  induction a as [| x a IH]; rewrite ?append_nil, ?append_cons; [done | by rewrite IH].
Qed.

(** X25: for plan identifiers without a colon, as the application makes
    them, the completion keys of a plan are exactly the keys that start
    with its identifier and a colon, which is how the check-ins of a plan
    are selected; and two keys are equal only for the same plan, the same
    week number and day names that are equal up to the case of their
    letters. *)
Theorem completionKey_separates (planId planId' : string) (weekNumber weekNumber' : Z)
    (dayName dayName' : string) :
  indexOf COLON planId = None → indexOf COLON planId' = None →
  (Js.startsWith (planId +:+ ":") (completionKey planId' weekNumber' dayName') = true
   ↔ planId = planId')
  ∧ (completionKey planId weekNumber dayName = completionKey planId' weekNumber' dayName'
     → planId = planId' ∧ weekNumber = weekNumber'
       ∧ Js.toLowerCase dayName = Js.toLowerCase dayName').
Proof.
  intros Hid Hid'. unfold completionKey, Js.startsWith.
  change ":" with (String COLON "").
  change (":week-" +:+ ?r) with (String COLON ("week-" +:+ r)).
  change (String COLON "" +:+ ?r) with (String COLON r).
  split; [split |].
  - by apply prefix_colon.
  - intros <-.
    change (String COLON ?r) with (String COLON "" +:+ r) at 2.
    rewrite <- append_assoc. apply prefix_append.
  - intros H.
    apply (append_colon_injective planId planId') in H as [-> H]; [| done | done].
    split; [done |].
    rewrite !append_cons, !append_nil in H. injection H as H.
    apply append_colon_injective in H as [H ->]; [| apply showInt_without_colon ..].
    split; [by apply showInt_injective | done].
Qed.

Lemma completionKey_separates_witness :
  (Js.startsWith ("plan-17" +:+ ":") (completionKey "plan-17" 3 "MONDAY") = true
   ↔ "plan-17" = "plan-17")
  ∧ (completionKey "plan-17" 3 "Monday" = completionKey "plan-17" 3 "MONDAY"
     → "plan-17" = "plan-17" ∧ 3 = 3
       ∧ Js.toLowerCase "Monday" = Js.toLowerCase "MONDAY").
Proof.
  apply (completionKey_separates "plan-17" "plan-17" 3 3 "Monday" "MONDAY");
    reflexivity.
Defined.

(** ** Check-in ratings *)

(** X26: the ratings that a check-in stores are within their scales,
    whatever is typed: exertion and soreness between 1 and 10, sleep
    quality between 1 and 5. A text that does not start with a number, and
    the number zero, give the defaults 6, 4 and 3. *)
Theorem checkin_ratings_in_scale (text : string) :
  1 ≤ nextRpe text ≤ 10 ∧ 1 ≤ nextSoreness text ≤ 10 ∧ 1 ≤ nextSleep text ≤ 5
  ∧ (Js.parseInt text = Js.NaN ∨ Js.parseInt text = Js.Int 0 →
     nextRpe text = 6 ∧ nextSoreness text = 4 ∧ nextSleep text = 3).
Proof.
  unfold nextRpe, nextSoreness, nextSleep, checkinRating.
  destruct (Js.parseInt text) as [| [|] | [| p | p]];
    (split; [lia |]); (split; [lia |]); (split; [lia |]);
    intros [H | H]; done.
Qed.

(** ** Weekday names *)

(** X27: what [normalizeDayName] returns is one of the seven weekday names,
    and it returns each of them unchanged: normalising twice is normalising
    once. *)
Theorem normalizeDayName_canonical (value name : string) :
  normalizeDayName value = Some name →
  name ∈ WEEKDAY_NAMES ∧ normalizeDayName name = Some name.
Proof.
  unfold normalizeDayName at 1.
  destruct (DAY_INDEX _) as [[n | inherited] |] eqn:E; [| done | done].
  intros Hname. apply list_elem_of_lookup_2 in Hname as Hin. split; [done |].
  unfold WEEKDAY_NAMES in Hin.
  repeat (apply elem_of_cons in Hin as [-> | Hin]; [reflexivity |]).
  by apply elem_of_nil in Hin.
Qed.

Lemma normalizeDayName_canonical_witness :
  "Thursday" ∈ WEEKDAY_NAMES ∧ normalizeDayName "Thursday" = Some "Thursday".
Proof.
  apply (normalizeDayName_canonical " THURS " "Thursday"). reflexivity.
Defined.

(** ** The parts of a plan *)

(** X24: for a plan of at most twelve weeks the parts are those of the
    weeks 1, 2, ... in order: the part at position [i] has the key of that
    position in [WEEK_PARTS], and the week number that the orchestrator
    parses from its label is [i + 1]. *)
Theorem buildParts_weeks_in_order (weeks : nat) :
  (weeks ≤ 12)%nat →
  ∃ parts,
    buildParts (seq 1 weeks) = Returned parts
    ∧ length parts = weeks
    ∧ ∀ i part, parts !! i = Some part →
        WEEK_PARTS !! i = Some (part_key part)
        ∧ Js.parseInt (part_label part) = Js.Int (Z.of_nat i + 1)
        ∧ part_title part = "## Week " +:+ Js.showInt (Z.of_nat i + 1).
Proof.
  intros Hweeks. rewrite buildParts_weeks by done. eexists. split; [reflexivity |].
  split; [by rewrite length_fmap, length_seq |].
  intros i part Hpart. rewrite list_lookup_fmap in Hpart.
  destruct (seq 1 weeks !! i) as [k |] eqn:Hk; [| done]. injection Hpart as <-.
  apply lookup_seq in Hk as [-> Hi].
  do 12 (destruct i as [| i]; [by vm_compute |]). lia.
Qed.

Lemma buildParts_weeks_in_order_witness :
  ∃ parts,
    buildParts (seq 1 8) = Returned parts
    ∧ length parts = 8%nat
    ∧ ∀ i part, parts !! i = Some part →
        WEEK_PARTS !! i = Some (part_key part)
        ∧ Js.parseInt (part_label part) = Js.Int (Z.of_nat i + 1)
        ∧ part_title part = "## Week " +:+ Js.showInt (Z.of_nat i + 1).
Proof. apply (buildParts_weeks_in_order 8). lia. Defined.


(** ** The digest of a stored week *)

Lemma prefix_refl (s : string) : String.prefix s s = true.
Proof.
  induction s as [| c s IH]; [done |]. cbn [String.prefix].
  by destruct (Ascii.ascii_dec c c).
Qed.

Lemma includes_refl (s : string) : Js.includes s s = true.
Proof. destruct s; cbn [Js.includes]; by rewrite prefix_refl. Qed.

Lemma findIndex_Some {A : Type} (p : A → bool) (l : list A) (i : nat) :
  findIndex p l = Some i → ∃ x, l !! i = Some x ∧ p x = true.
Proof.
  revert i. induction l as [| x l IH]; intros i; cbn [findIndex]; [done |].
  destruct (p x) eqn:E.
  - intros [= <-]. by exists x.
  - destruct (findIndex p l) as [j |]; [| done]. intros [= <-].
    destruct (IH j eq_refl) as (y & Hy & Hp). by exists y.
Qed.

(** The week column is none of the columns the enforcer writes. *)
Lemma week_column_apart (table : PlanTable) (weekIndex : nat) :
  findIndex isWeekHeader (headers table) = Some weekIndex →
  findIndex isWorkoutHeader (headers table) ≠ Some weekIndex
  ∧ findIndex isDetailsHeader (headers table) ≠ Some weekIndex
  ∧ findIndex isRationaleHeader (headers table) ≠ Some weekIndex.
Proof.
  intros Hweek. apply findIndex_Some in Hweek as (h & Hh & Hp).
  unfold isWeekHeader in Hp. apply String.eqb_eq in Hp.
  split; [| split]; intros H; apply findIndex_Some in H as (h' & Hh' & Hp');
    assert (h' = h) as -> by congruence;
    unfold isWorkoutHeader, isDetailsHeader, isRationaleHeader in Hp';
    by rewrite Hp in Hp'.
Qed.

Lemma weekBullets_labelled (weekNumber : Z) (table : PlanTable) :
  labelledWith weekNumber table → weekBullets weekNumber table = allBullets table.
Proof.
  intros (weekIndex & Hweek & Hrows). unfold weekBullets, allBullets.
  rewrite Hweek. f_equal. apply filter_all.
  apply Forall_forall. intros row Hrow. rewrite Forall_forall in Hrows.
  specialize (Hrows row Hrow). unfold rowIsSummarised, cellOr in *.
  destruct (row !! weekIndex) as [cell |]; [| done]. cbn in Hrows. subst cell.
  change (Js.toLowerCase (weekLabel weekNumber))
    with (Js.toLowerCase ("week " +:+ Js.showInt weekNumber)).
  by rewrite includes_refl, orb_true_r.
Qed.

Lemma clampTable_labelled (weekNumber runDayCap : Z) (longRunDay : string)
    (table : PlanTable) :
  labelledWith weekNumber table →
  labelledWith weekNumber (clampTable runDayCap longRunDay table).
Proof.
  intros (weekIndex & Hweek & Hrows). exists weekIndex.
  rewrite (proj1 (clampTable_headers table runDayCap longRunDay)). split; [done |].
  destruct (week_column_apart table weekIndex Hweek) as (Hw & Hd & Hr).
  pose proof (clampTable_other_column table runDayCap longRunDay weekIndex Hw Hd Hr)
    as Hcolumn.
  apply Forall_lookup. intros i row' Hrow'.
  pose proof (f_equal (λ l, l !! i) Hcolumn) as Hi. cbv beta in Hi.
  rewrite !list_lookup_fmap, Hrow' in Hi.
  destruct (rows table !! i) as [row |] eqn:Hrow; [| done].
  injection Hi as ->. by apply (Forall_lookup_1 _ _ _ _ Hrows Hrow).
Qed.

Lemma normalizeResponse_labelled (JSON_parse : string → option json) (text : string)
    (expectedWeekNumber : Z) :
  (∀ w, parseWeekJsonFromText JSON_parse text expectedWeekNumber = Some w →
        week w = expectedWeekNumber) →
  Forall (labelledWith expectedWeekNumber)
    (normalizeResponse JSON_parse text expectedWeekNumber).
Proof.
  intros Hweek. unfold normalizeResponse.
  destruct (parseWeekJsonFromText JSON_parse text expectedWeekNumber) as [w |].
  - constructor; [| constructor]. exists 0%nat. split; [done |].
    unfold structuredWeekToTable. cbn [rows]. apply Forall_fmap, Forall_forall.
    intros d _. cbn. unfold weekLabel. by rewrite (Hweek w).
  - unfold enforceExpectedWeek. apply Forall_fmap, Forall_forall. intros table _.
    destruct (enforceWeekOnTable_labels expectedWeekNumber table) as (wi & Hwi & Hrows).
    exists wi. split; [done |]. eapply Forall_impl; [exact Hrows |].
    intros row Hrow. unfold cellOr. by rewrite Hrow.
Qed.

(** X28: the digest that the orchestrator keeps of a week skips no row of
    what it stores for that week: when the answer is a markdown table, or a
    structured week whose week number is the expected one, every stored
    row gets a bullet, in table and row order, before the digest is cut
    to seven bullets. *)
Theorem digest_covers_stored_week (JSON_parse : string → option json) (text : string)
    (expectedWeekNumber runDayCap : Z) (longRunDay : string) :
  (∀ w, parseWeekJsonFromText JSON_parse text expectedWeekNumber = Some w →
        week w = expectedWeekNumber) →
  let stored :=
    clampWeekToRunDayCap (normalizeResponse JSON_parse text expectedWeekNumber)
      runDayCap longRunDay in
  summaryLinesOf stored expectedWeekNumber = stored ≫= allBullets
  ∧ summarizeWeekForHistory stored expectedWeekNumber
    = Js.join NL ((weekLabel expectedWeekNumber +:+ " Summary:")
                  :: take 7 (stored ≫= allBullets)).
Proof.
  intros Hweek stored.
  assert (summaryLinesOf stored expectedWeekNumber = stored ≫= allBullets) as E.
  { unfold summaryLinesOf. rewrite summaryLines_from. cbn [app].
    assert (Forall (labelledWith expectedWeekNumber) stored) as Hall.
    { unfold stored, clampWeekToRunDayCap. apply Forall_fmap.
      eapply Forall_impl; [by apply normalizeResponse_labelled |].
      intros table. apply clampTable_labelled. }
    induction Hall as [| table tables Htable _ IH]; [done |].
    cbn [fmap list_fmap concat]. rewrite bind_cons. f_equal; [| exact IH].
    by apply weekBullets_labelled. }
  split; [exact E |]. unfold summarizeWeekForHistory. by rewrite E.
Qed.

Lemma digest_covers_stored_week_witness :
  let stored := clampWeekToRunDayCap (normalizeResponse noJson steadyText 3) 1 "Sunday" in
  summaryLinesOf stored 3 = stored ≫= allBullets
  ∧ summarizeWeekForHistory stored 3
    = Js.join NL ((weekLabel 3 +:+ " Summary:") :: take 7 (stored ≫= allBullets)).
Proof.
  apply (digest_covers_stored_week noJson steadyText 3 1 "Sunday").
  intros w H. vm_compute in H. discriminate H.
Defined.

(** X29: the run-day enforcer writes the workout, details and rationale
    columns only: every other column, the week and day columns among them,
    reads the same in every row before and after. *)
Theorem clampWeekToRunDayCap_other_columns (tables : list PlanTable) (runDayCap : Z)
    (longRunDay : string) :
  Forall2 (λ table table',
             ∀ j,
               findIndex isWorkoutHeader (headers table) ≠ Some j →
               findIndex isDetailsHeader (headers table) ≠ Some j →
               findIndex isRationaleHeader (headers table) ≠ Some j →
               (λ row, cellOr "" row j) <$> rows table'
               = (λ row, cellOr "" row j) <$> rows table)
    tables (clampWeekToRunDayCap tables runDayCap longRunDay).
Proof.
  unfold clampWeekToRunDayCap.
  induction tables as [| table tables IH]; constructor; [| exact IH].
  intros j. apply clampTable_other_column.
Qed.


(** ** What the structured parser hands to [JSON.parse] *)

Lemma length_append (a b : string) :
  String.length (a +:+ b) = (String.length a + String.length b)%nat.
Proof.
  induction a as [| c a IH]; rewrite ?append_nil, ?append_cons; [done |].
  cbn [String.length]. by rewrite IH.
Qed.

Lemma append_empty_r (s : string) : s +:+ "" = s.
Proof.
  induction s as [| c s IH]; rewrite ?append_nil, ?append_cons; [done |].
  by rewrite IH.
Qed.

Lemma list_ascii_of_append (a b : string) :
  String.list_ascii_of_string (a +:+ b)
  = String.list_ascii_of_string a ++ String.list_ascii_of_string b.
Proof.
  induction a as [| c a IH]; rewrite ?append_nil, ?append_cons; [done |].
  cbn. by rewrite IH.
Qed.

Lemma string_of_list_app (l k : list ascii) :
  String.string_of_list_ascii (l ++ k)
  = String.string_of_list_ascii l +:+ String.string_of_list_ascii k.
Proof.
  induction l as [| c l IH]; cbn [app String.string_of_list_ascii];
    rewrite ?append_nil, ?append_cons; [done |]. by rewrite IH.
Qed.

Lemma list_ascii_of_string_of_list (l : list ascii) :
  String.list_ascii_of_string (String.string_of_list_ascii l) = l.
Proof. induction l as [| c l IH]; [done |]. cbn. by rewrite IH. Qed.

Lemma reverse_append (a b : string) :
  Js.reverse (a +:+ b) = Js.reverse b +:+ Js.reverse a.
Proof.
  unfold Js.reverse. by rewrite list_ascii_of_append, rev_app_distr, string_of_list_app.
Qed.

Lemma reverse_involutive (s : string) : Js.reverse (Js.reverse s) = s.
Proof.
  unfold Js.reverse.
  by rewrite list_ascii_of_string_of_list, rev_involutive, string_of_list_ascii_of_string.
Qed.

Lemma length_reverse (s : string) : String.length (Js.reverse s) = String.length s.
Proof.
  assert (∀ t, String.length t = length (String.list_ascii_of_string t)) as H.
  { induction t as [| c t IH]; [done |]. cbn. by rewrite IH. }
  unfold Js.reverse. by rewrite !H, list_ascii_of_string_of_list, length_rev.
Qed.

Lemma indexOf_None (c : ascii) (s : string) :
  indexOf c s = None ↔ c ∉ String.list_ascii_of_string s.
Proof.
  induction s as [| x s IH]; cbn [indexOf String.list_ascii_of_string].
  - split; [intros _; apply not_elem_of_nil | done].
  - rewrite not_elem_of_cons. destruct (Ascii.eqb_spec x c) as [-> | Hne].
    + split; [done | intros [? _]; done].
    + destruct (indexOf c s); cbn.
      * split; [done |]. intros [_ H]. by apply IH in H.
      * split; [| done]. intros _. split; [congruence | by apply IH].
Qed.

Lemma indexOf_lt (c : ascii) (s : string) (i : nat) :
  indexOf c s = Some i → (i < String.length s)%nat.
Proof.
  revert i. induction s as [| x s IH]; intros i; cbn [indexOf String.length]; [done |].
  destruct (Ascii.eqb x c); [intros [= <-]; lia |].
  destruct (indexOf c s) as [j |]; [| done]. intros [= <-].
  specialize (IH j eq_refl). lia.
Qed.

Lemma indexOf_append (c : ascii) (a b : string) :
  indexOf c (a +:+ b)
  = match indexOf c a with
    | Some i => Some i
    | None => (λ i, String.length a + i)%nat <$> indexOf c b
    end.
Proof.
  induction a as [| x a IH]; rewrite ?append_nil, ?append_cons;
    cbn [indexOf String.length].
  - by destruct (indexOf c b).
  - destruct (Ascii.eqb x c); [done |]. rewrite IH.
    destruct (indexOf c a); [done |]. by destruct (indexOf c b).
Qed.

Lemma indexOf_reverse_None (c : ascii) (s : string) :
  indexOf c s = None → indexOf c (Js.reverse s) = None.
Proof.
  rewrite !indexOf_None. unfold Js.reverse. rewrite list_ascii_of_string_of_list.
  intros H Hin. apply H. apply list_elem_of_In. apply list_elem_of_In in Hin.
  by apply in_rev.
Qed.

Lemma braceFree_reverse (s : string) : braceFree s → braceFree (Js.reverse s).
Proof. intros [H1 H2]. split; by apply indexOf_reverse_None. Qed.

Lemma substring_append_l (p s : string) (n m : nat) :
  String.substring (String.length p + n) m (p +:+ s) = String.substring n m s.
Proof.
  induction p as [| c p IH]; rewrite ?append_nil, ?append_cons; [done |].
  cbn [String.length Nat.add String.substring]. exact IH.
Qed.

Lemma substring_append_r (s q : string) (n m : nat) :
  (n + m ≤ String.length s)%nat →
  String.substring n m (s +:+ q) = String.substring n m s.
Proof.
  revert n m. induction s as [| c s IH]; intros n m H;
    rewrite ?append_nil, ?append_cons; cbn [String.length] in *.
  - assert (n = 0 ∧ m = 0)%nat as [-> ->] by lia. by destruct q.
  - destruct n as [| n]; cbn [String.substring].
    + destruct m as [| m]; [done |]. f_equal. apply (IH 0%nat). lia.
    + apply IH. lia.
Qed.

Lemma substring_prefix (a b : string) :
  String.substring 0 (String.length a) (a +:+ b) = a.
Proof.
  induction a as [| c a IH]; rewrite ?append_nil, ?append_cons;
    cbn [String.length String.substring]; [by destruct b |]. by rewrite IH.
Qed.

(** Dropping a text without braces from the front or from the end of a
    text does not change its brace span. *)
Lemma braceSpan_append_l (p s : string) :
  braceFree p → braceSpan (p +:+ s) = braceSpan s.
Proof.
  intros [Hl Hr]. unfold braceSpan, lastIndexOf.
  rewrite indexOf_append, Hl, reverse_append, indexOf_append, length_append.
  destruct (indexOf LBRACE s) as [f |] eqn:Ef; cbn [fmap option_fmap option_map];
    [| done].
  destruct (indexOf RBRACE (Js.reverse s)) as [i |] eqn:Ei;
    cbn [fmap option_fmap option_map].
  - apply indexOf_lt in Ei as Hi. rewrite length_reverse in Hi.
    apply indexOf_lt in Ef as Hf.
    replace (String.length p + String.length s - 1 - i)%nat
      with (String.length p + (String.length s - 1 - i))%nat by lia.
    destruct (Nat.leb_spec (String.length s - 1 - i) f),
             (Nat.leb_spec (String.length p + (String.length s - 1 - i))
                (String.length p + f)); try lia; [done |].
    f_equal.
    replace (String.length p + (String.length s - 1 - i) + 1 - (String.length p + f))%nat
      with (String.length s - 1 - i + 1 - f)%nat by lia.
    apply substring_append_l.
  - by rewrite (indexOf_reverse_None _ _ Hr).
Qed.

Lemma braceSpan_append_r (s q : string) :
  braceFree q → braceSpan (s +:+ q) = braceSpan s.
Proof.
  intros [Hl Hr]. unfold braceSpan, lastIndexOf.
  rewrite indexOf_append, Hl, reverse_append, indexOf_append, length_append,
    (indexOf_reverse_None _ _ Hr), length_reverse.
  destruct (indexOf LBRACE s) as [f |] eqn:Ef; cbn [fmap option_fmap option_map];
    [| done].
  destruct (indexOf RBRACE (Js.reverse s)) as [i |] eqn:Ei;
    cbn [fmap option_fmap option_map]; [| done].
  apply indexOf_lt in Ei as Hi. rewrite length_reverse in Hi.
  replace (String.length s + String.length q - 1 - (String.length q + i))%nat
    with (String.length s - 1 - i)%nat by lia.
  destruct (_ <=? _)%nat eqn:E; [done |]. apply Nat.leb_gt in E.
  f_equal. apply substring_append_r. lia.
Qed.

Lemma trimStart_split (s : string) :
  ∃ p, s = p +:+ Js.trimStart s ∧ braceFree p.
Proof.
  induction s as [| c s (p & Hp & Hl & Hr)]; [by exists EmptyString |].
  cbn [Js.trimStart]. destruct (Js.isWhiteSpace c) eqn:E; [| by exists EmptyString].
  exists (String c p). rewrite append_cons. split; [by f_equal |].
  split; cbn [indexOf].
  - destruct (Ascii.eqb_spec c LBRACE) as [-> |]; [done | by rewrite Hl].
  - destruct (Ascii.eqb_spec c RBRACE) as [-> |]; [done | by rewrite Hr].
Qed.

Lemma trimEnd_split (s : string) :
  ∃ q, s = Js.trimEnd s +:+ q ∧ braceFree q.
Proof.
  unfold Js.trimEnd. destruct (trimStart_split (Js.reverse s)) as (p & Hp & Hfree).
  exists (Js.reverse p). split; [| by apply braceFree_reverse].
  by rewrite <- reverse_append, <- Hp, reverse_involutive.
Qed.

Lemma braceSpan_trim (s : string) : braceSpan (Js.trim s) = braceSpan s.
Proof.
  unfold Js.trim.
  destruct (trimStart_split s) as (p & Hp & Hfree).
  destruct (trimEnd_split (Js.trimStart s)) as (q & Hq & Hfree').
  rewrite Hp at 2. rewrite braceSpan_append_l by done.
  rewrite Hq at 2. by rewrite braceSpan_append_r.
Qed.

(** A text whose lower-case form starts with [p]: its start has the length
    of [p] and no brace if [p] has none. *)
Lemma lowered_prefix_split (p s : string) :
  String.prefix p (Js.toLowerCase s) = true → braceFree p →
  ∃ a b, s = a +:+ b ∧ String.length a = String.length p ∧ braceFree a.
Proof.
  revert s. induction p as [| c p IH]; intros s H Hfree.
  - by exists EmptyString, s.
  - destruct s as [| x s]; [done |]. cbn [Js.toLowerCase String.prefix] in H.
    destruct (Ascii.ascii_dec c (Js.lowerChar x)) as [-> |]; [| done].
    destruct Hfree as [Hl Hr]. cbn [indexOf] in Hl, Hr.
    destruct (Ascii.eqb_spec (Js.lowerChar x) LBRACE) as [| Hxl]; [done |].
    destruct (Ascii.eqb_spec (Js.lowerChar x) RBRACE) as [| Hxr]; [done |].
    destruct (indexOf LBRACE p) eqn:El; [done |].
    destruct (indexOf RBRACE p) eqn:Er; [done |].
    destruct (IH s H) as (a & b & -> & Hlen & Hal & Har); [done |].
    exists (String x a), b. rewrite append_cons. split; [done |].
    split; [cbn; by rewrite Hlen |].
    split; cbn [indexOf].
    + destruct (Ascii.eqb_spec x LBRACE) as [-> |]; [done | by rewrite Hal].
    + destruct (Ascii.eqb_spec x RBRACE) as [-> |]; [done | by rewrite Har].
Qed.

Lemma braceSpan_stripPrefixCI (p s : string) :
  braceFree p → braceSpan (stripPrefixCI p s) = braceSpan s.
Proof.
  intros Hfree. unfold stripPrefixCI.
  destruct (String.prefix p (Js.toLowerCase s)) eqn:E; [| done].
  destruct (lowered_prefix_split p s E Hfree) as (a & b & -> & Hlen & Ha).
  rewrite braceSpan_append_l by done. f_equal.
  unfold dropChars. rewrite <- Hlen, length_append.
  replace (String.length a + String.length b - String.length a)%nat
    with (String.length b) by lia.
  rewrite <- (Nat.add_0_r (String.length a)) at 1.
  by rewrite substring_append_l, substring_all.
Qed.

Lemma prefix_split (p s : string) :
  String.prefix p s = true → ∃ r, s = p +:+ r.
Proof.
  revert s. induction p as [| c p IH]; intros s H; [by exists s |].
  destruct s as [| x s]; [done |]. cbn [String.prefix] in H.
  destruct (Ascii.ascii_dec c x) as [-> |]; [| done].
  destruct (IH s H) as [r ->]. exists r. by rewrite append_cons.
Qed.

Lemma braceSpan_stripSuffix (p s : string) :
  braceFree p → braceSpan (stripSuffix p s) = braceSpan s.
Proof.
  intros Hfree. unfold stripSuffix, Js.endsWith.
  destruct (String.prefix (Js.reverse p) (Js.reverse s)) eqn:E; [| done].
  apply prefix_split in E as [r Hr].
  assert (s = Js.reverse r +:+ p) as ->.
  { by rewrite <- (reverse_involutive s), Hr, reverse_append, reverse_involutive. }
  rewrite braceSpan_append_r by done. f_equal.
  rewrite length_append.
  replace (String.length (Js.reverse r) + String.length p - String.length p)%nat
    with (String.length (Js.reverse r)) by lia.
  apply substring_prefix.
Qed.

(** X30: the code fences and the surrounding white space that the
    structured parser strips never change what it hands to [JSON.parse]:
    for every text this is the part of the text from its first opening
    brace to its last closing brace, and the parser gives up exactly when
    there is no such part. *)
Theorem jsonCandidate_is_brace_span (text : string) :
  jsonCandidate text = braceSpan text.
Proof.
  unfold jsonCandidate.
  destruct (String.eqb_spec (Js.trim text) "") as [Hempty | _].
  - by rewrite <- (braceSpan_trim text), Hempty.
  - change (match indexOf LBRACE ?s, lastIndexOf RBRACE ?s with
            | Some firstBrace, Some lastBrace =>
                if (lastBrace <=? firstBrace)%nat then None
                else Some (String.substring firstBrace (lastBrace + 1 - firstBrace) ?s)
            | _, _ => None
            end) with (braceSpan s).
    rewrite braceSpan_trim, braceSpan_stripSuffix, !braceSpan_stripPrefixCI,
      braceSpan_trim; done.
Qed.
